(** * Verification of the dev-blog backend

    A shallow embedding of the rate limiter (middleware.py), the cache
    wrappers (cache.py), slug validation and post loading
    (content_store.py) and the listing and single-post handlers (main.py),
    with the properties the specification states about them. *)

From Stdlib Require Import QArith Lqa Ascii String.
From Stdlib Require Import Sorting.Permutation Sorting.Sorted.
From stdpp Require Import gmap strings list pretty.

Open Scope Z_scope.

(** ** Python values shared by the modules *)

(** [str(n)] for an [int]. *)
Definition py_str_int (n : Z) : string := pretty n.

(** The one-character string holding a double quote. *)
Definition dquote : string := String (ascii_of_nat 34) EmptyString.

(** Truthiness of a [str]: the empty string is false. *)
Definition str_truthy (s : string) : bool :=
  match s with
  | EmptyString => false
  | String _ _ => true
  end.

(** The exceptions the handlers distinguish. [OtherError] stands for any
    exception that is none of the named classes (the [Exception] handler
    of main.py answers it with status 500). *)
Inductive exn : Type :=
  | ValueError (msg : string)
  | FileNotFoundError
  | HTTPException (status : Z) (detail : string)
  | ContentError
  | S3Error
  | YAMLError
  | OtherError.

(** A call either returns or raises. *)
Inductive result (A : Type) : Type :=
  | Ok (a : A)
  | Raise (e : exn).
Arguments Ok {A} a.
Arguments Raise {A} e.

(** Clock readings ([time.time()], the cache timer) are seconds, modelled
    as rationals, on which the comparisons of the source are exact. *)
Definition Qltb (a b : Q) : bool := negb (Qle_bool b a).

(** ** middleware.py: the sliding-window rate limiter *)

Module RateLimit.

Record RateLimitBucket : Type := { requests : list Q }.

(** [defaultdict(RateLimitBucket)]: reading a missing key yields a bucket
    with no requests (and stores it). *)
Definition default_bucket : RateLimitBucket := {| requests := [] |}.

Record RateLimitMiddleware : Type := {
  requests_per_minute : Z;
  requests_per_hour : Z;
  enabled : bool;
  buckets : gmap string RateLimitBucket
}.

Definition get_bucket (self : RateLimitMiddleware) (client_ip : string)
  : RateLimitBucket :=
  default (default_bucket) (buckets self !! client_ip).

Definition set_bucket (self : RateLimitMiddleware) (client_ip : string)
    (b : RateLimitBucket) : RateLimitMiddleware :=
  {| requests_per_minute := requests_per_minute self;
     requests_per_hour := requests_per_hour self;
     enabled := enabled self;
     buckets := <[client_ip := b]> (buckets self) |}.

(** [[t for t in bucket.requests if now - t < 3600]] *)
Definition clean_old (now : Q) (reqs : list Q) : list Q :=
  List.filter (fun t => Qltb (now - t) 3600) reqs.

(** [sum(1 for t in bucket.requests if t > minute_ago)] *)
Definition count_last_minute (minute_ago : Q) (reqs : list Q) : Z :=
  fold_right (fun t acc => if Qltb minute_ago t then 1 + acc else acc) 0 reqs.

Definition _is_rate_limited (self : RateLimitMiddleware) (client_ip : string)
    (now : Q) : RateLimitMiddleware * (bool * gmap string string) :=
  let bucket := get_bucket self client_ip in
  let bucket := {| requests := clean_old now (requests bucket) |} in
  let self := set_bucket self client_ip bucket in
  let minute_ago := (now - 60)%Q in
  let requests_last_minute := count_last_minute minute_ago (requests bucket) in
  let requests_last_hour := Z.of_nat (length (requests bucket)) in
  let remaining_minute :=
    Z.max 0 (requests_per_minute self - requests_last_minute) in
  let remaining_hour :=
    Z.max 0 (requests_per_hour self - requests_last_hour) in
  let headers : gmap string string :=
    <["X-RateLimit-Remaining-Hour" := py_str_int remaining_hour]>
    (<["X-RateLimit-Limit-Hour" := py_str_int (requests_per_hour self)]>
    (<["X-RateLimit-Remaining-Minute" := py_str_int remaining_minute]>
    (<["X-RateLimit-Limit-Minute" := py_str_int (requests_per_minute self)]>
     ∅))) in
  if requests_per_minute self <=? requests_last_minute then
    (self, (true, <["Retry-After" := "60"]> headers))
  else if requests_per_hour self <=? requests_last_hour then
    (self, (true, <["Retry-After" := "3600"]> headers))
  else
    (self, (false, headers)).

(** *** Client identity *)

(** [str.isspace] on the code points below 256. *)
Definition is_space (c : ascii) : bool :=
  let n := N_of_ascii c in
  ((9 <=? n) && (n <=? 13) || (28 <=? n) && (n <=? 32)
   || (n =? 133) || (n =? 160))%N.

Fixpoint lstrip (s : string) : string :=
  match s with
  | String c s' => if is_space c then lstrip s' else s
  | EmptyString => EmptyString
  end.

Fixpoint rstrip (s : string) : string :=
  match s with
  | String c s' =>
      match rstrip s' with
      | EmptyString => if is_space c then EmptyString else String c EmptyString
      | r => String c r
      end
  | EmptyString => EmptyString
  end.

(** [s.strip()] *)
Definition py_strip (s : string) : string := rstrip (lstrip s).

(** [s.split(",")[0]]: the text before the first comma. *)
Fixpoint split_comma_first (s : string) : string :=
  match s with
  | String c s' =>
      if Ascii.eqb c "," then EmptyString else String c (split_comma_first s')
  | EmptyString => EmptyString
  end.

(** What the middleware reads of a request: its headers, the host of the
    peer address when there is one, and the path of the URL. *)
Record Request : Type := {
  req_headers : gmap string string;
  client : option string;
  url_path : string
}.

Record Response : Type := {
  status_code : Z;
  headers : gmap string string;
  content : string
}.

Definition _get_client_ip (request : Request) : string :=
  match req_headers request !! "X-Forwarded-For" with
  | Some forwarded_for =>
      if str_truthy forwarded_for
      then py_strip (split_comma_first forwarded_for)
      else
        match req_headers request !! "X-Real-IP" with
        | Some real_ip =>
            if str_truthy real_ip then real_ip
            else default "unknown" (client request)
        | None => default "unknown" (client request)
        end
  | None =>
      match req_headers request !! "X-Real-IP" with
      | Some real_ip =>
          if str_truthy real_ip then real_ip
          else default "unknown" (client request)
      | None => default "unknown" (client request)
      end
  end.

(** [for key, value in headers.items(): response.headers[key] = value]:
    every rate-limit header is written over the response's headers. *)
Definition add_headers (hdrs : gmap string string) (response : Response)
  : Response :=
  {| status_code := status_code response;
     headers := hdrs ∪ headers response;
     content := content response |}.

Definition rate_limit_body : string :=
  "{" +:+ dquote +:+ "detail" +:+ dquote +:+ ":" +:+ dquote
  +:+ "Rate limit exceeded. Please try again later." +:+ dquote +:+ "}".

(** [Response(content=..., status_code=429, media_type="application/json")] *)
Definition rate_limit_response : Response :=
  {| status_code := 429;
     headers :=
       <["content-type" := "application/json"]>
       (<["content-length" :=
            py_str_int (Z.of_nat (String.length rate_limit_body))]> ∅);
     content := rate_limit_body |}.

(** [self.buckets[client_ip].requests.append(t)] *)
Definition record_request (self : RateLimitMiddleware) (client_ip : string)
    (t : Q) : RateLimitMiddleware :=
  set_bucket self client_ip
    {| requests := requests (get_bucket self client_ip) ++ [t] |}.

(** [dispatch] reads the clock twice: [now] inside [_is_rate_limited] and
    [now'] when it records the request. [call_next] is the rest of the
    application. *)
Definition dispatch (self : RateLimitMiddleware) (request : Request)
    (now now' : Q) (call_next : Request -> Response)
  : RateLimitMiddleware * Response :=
  if negb (enabled self) || String.eqb (url_path request) "/health" then
    (self, call_next request)
  else
    let client_ip := _get_client_ip request in
    let '(self, (is_limited, hdrs)) := _is_rate_limited self client_ip now in
    if is_limited then
      (self, add_headers hdrs rate_limit_response)
    else
      let self := record_request self client_ip now' in
      let response := call_next request in
      (self, add_headers hdrs response).

End RateLimit.

(** ** The TTL cache behind cache.py *)

Module Cache.

(** Modelled from the spec: the class [TTLCache] that cache.py imports from
    the cachetools package, whose code is not part of the source tree. The
    definitions follow sections 3 and 4.1 of the specification: an entry
    carries its value and the time it expires at; a read returns the value
    of a present, unexpired entry and removes an expired one; a write sets
    the expiry to now + ttl and, for a new key at capacity, first evicts the
    least recently inserted entry; the entries are kept in insertion
    order. An entry has expired once the clock has reached its
    [expiresAt]. *)
Record CacheEntry (V : Type) : Type := {
  value : V;
  expiresAt : Q
}.
Arguments value {V} _.
Arguments expiresAt {V} _.

Record TTLCache (V : Type) : Type := {
  maxsize : nat;
  ttl : Q;
  entries : list (string * CacheEntry V)
}.
Arguments maxsize {V} _.
Arguments ttl {V} _.
Arguments entries {V} _.

Section Operations.
Context {V : Type}.

Definition with_entries (c : TTLCache V) (es : list (string * CacheEntry V))
  : TTLCache V :=
  {| maxsize := maxsize c; ttl := ttl c; entries := es |}.

Fixpoint find_entry (key : string) (es : list (string * CacheEntry V))
  : option (CacheEntry V) :=
  match es with
  | [] => None
  | (k, e) :: es' => if String.eqb k key then Some e else find_entry key es'
  end.

Fixpoint remove_entry (key : string) (es : list (string * CacheEntry V))
  : list (string * CacheEntry V) :=
  match es with
  | [] => []
  | (k, e) :: es' =>
      if String.eqb k key then remove_entry key es'
      else (k, e) :: remove_entry key es'
  end.

Fixpoint overwrite_entry (key : string) (e : CacheEntry V)
    (es : list (string * CacheEntry V)) : list (string * CacheEntry V) :=
  match es with
  | [] => []
  | (k, e0) :: es' =>
      if String.eqb k key then (k, e) :: es'
      else (k, e0) :: overwrite_entry key e es'
  end.

Definition expired (now : Q) (e : CacheEntry V) : bool :=
  Qle_bool (expiresAt e) now.

(** Modelled from the spec: [get(key)] of section 4.1. *)
Definition get (c : TTLCache V) (key : string) (now : Q)
  : TTLCache V * option V :=
  match find_entry key (entries c) with
  | None => (c, None)
  | Some e =>
      if expired now e
      then (with_entries c (remove_entry key (entries c)), None)
      else (c, Some (value e))
  end.

(** Modelled from the spec: the eviction of the least recently inserted
    entry, the first of the insertion order. *)
Definition evict_one (es : list (string * CacheEntry V))
  : list (string * CacheEntry V) := tail es.

(** Modelled from the spec: [set(key, value)] of section 4.1. *)
Definition set (c : TTLCache V) (key : string) (v : V) (now : Q)
  : TTLCache V :=
  let e := {| value := v; expiresAt := (now + ttl c)%Q |} in
  match find_entry key (entries c) with
  | Some _ => with_entries c (overwrite_entry key e (entries c))
  | None =>
      let es :=
        if (maxsize c <=? length (entries c))%nat
        then evict_one (entries c) else entries c in
      with_entries c (es ++ [(key, e)])
  end.

(** Modelled from the spec: [clear()] and [size()] of section 4.1. *)
Definition clear (c : TTLCache V) : TTLCache V := with_entries c [].

Definition size (c : TTLCache V) : nat := length (entries c).

(** A cache as constructed: [TTLCache(maxsize=n, ttl=t)]. *)
Definition new (n : nat) (t : Q) : TTLCache V :=
  {| maxsize := n; ttl := t; entries := [] |}.

End Operations.

End Cache.

(** ** models.py *)

Record PostMeta : Type := {
  slug : string;
  title : string;
  date : string;
  description : option string;
  tags : list string
}.

(** [PostSummary = PostMeta] *)
Abbreviation PostSummary := PostMeta (only parsing).

Record PostDetail : Type := {
  meta : PostMeta;
  post_content : string
}.

Record PostListResponse : Type := {
  posts : list PostSummary;
  total : Z;
  limit : Z;
  offset : Z
}.

(** ** Logging *)

Inductive log_level : Type := DEBUG | INFO | WARNING | ERROR.

Inductive log_arg : Type :=
  | AStr (s : string)
  | AInt (n : Z)
  | AExn (e : exn).

(** A call [logger.<level>(fmt, *args)]. *)
Record log_record : Type := {
  level : log_level;
  fmt : string;
  args : list log_arg
}.

(** ** The state of the process

    The three module-level caches of cache.py, the records the logger has
    received (oldest first) and the slugs the storage backend has been
    asked for (oldest first). *)
Record World : Type := {
  _posts_list_cache : Cache.TTLCache (list PostSummary);
  _post_cache : Cache.TTLCache PostDetail;
  _slug_map_cache : Cache.TTLCache (gmap string string);
  log : list log_record;
  storage_reads : list string
}.

(** Code that reads and writes the state and may raise. *)
Definition M (A : Type) : Type := World -> World * result A.

Definition ret {A : Type} (a : A) : M A := fun w => (w, Ok a).

Definition raise {A : Type} (e : exn) : M A := fun w => (w, Raise e).

Definition bindM {A B : Type} (m : M A) (k : A -> M B) : M B :=
  fun w =>
    match m w with
    | (w', Ok a) => k a w'
    | (w', Raise e) => (w', Raise e)
    end.

Notation "'do' x '<-' m ';' k" := (bindM m (fun x => k))
  (at level 10, x name, m at level 100, k at level 200).

(** [try: m except <classes accepted by caught>: handler] *)
Definition try_except {A : Type} (m : M A) (caught : exn -> bool)
    (handler : exn -> M A) : M A :=
  fun w =>
    match m w with
    | (w', Ok a) => (w', Ok a)
    | (w', Raise e) => if caught e then handler e w' else (w', Raise e)
    end.

Definition lift {A : Type} (r : result A) : M A := fun w => (w, r).

Definition logger (lvl : log_level) (f : string) (a : list log_arg) : M unit :=
  fun w =>
    ({| _posts_list_cache := _posts_list_cache w;
        _post_cache := _post_cache w;
        _slug_map_cache := _slug_map_cache w;
        log := log w ++ [{| level := lvl; fmt := f; args := a |}];
        storage_reads := storage_reads w |}, Ok tt).

Definition put_posts_list_cache (c : Cache.TTLCache (list PostSummary))
    (w : World) : World :=
  {| _posts_list_cache := c;
     _post_cache := _post_cache w;
     _slug_map_cache := _slug_map_cache w;
     log := log w;
     storage_reads := storage_reads w |}.

Definition put_post_cache (c : Cache.TTLCache PostDetail) (w : World)
  : World :=
  {| _posts_list_cache := _posts_list_cache w;
     _post_cache := c;
     _slug_map_cache := _slug_map_cache w;
     log := log w;
     storage_reads := storage_reads w |}.

Definition put_slug_map_cache (c : Cache.TTLCache (gmap string string))
    (w : World) : World :=
  {| _posts_list_cache := _posts_list_cache w;
     _post_cache := _post_cache w;
     _slug_map_cache := c;
     log := log w;
     storage_reads := storage_reads w |}.

Definition record_storage_read (key : string) : M unit :=
  fun w =>
    ({| _posts_list_cache := _posts_list_cache w;
        _post_cache := _post_cache w;
        _slug_map_cache := _slug_map_cache w;
        log := log w;
        storage_reads := storage_reads w ++ [key] |}, Ok tt).

(** ** cache.py *)

Definition MAX_INDIVIDUAL_POST_CACHE : nat := 512.
Definition POSTS_LIST_CACHE_SIZE : nat := 1.
Definition SLUG_MAP_CACHE_SIZE : nat := 1.

(** The state at import time, for [settings.cache_ttl_seconds = t]. *)
Definition initial_world (cache_ttl_seconds : Z) : World :=
  {| _posts_list_cache :=
       Cache.new POSTS_LIST_CACHE_SIZE (inject_Z cache_ttl_seconds);
     _post_cache :=
       Cache.new MAX_INDIVIDUAL_POST_CACHE (inject_Z cache_ttl_seconds);
     _slug_map_cache :=
       Cache.new SLUG_MAP_CACHE_SIZE (inject_Z cache_ttl_seconds);
     log := [];
     storage_reads := [] |}.

(** The cache functions read the cache timer; its reading is the argument
    [now]. *)
Definition get_posts_list_cached (now : Q) : M (option (list PostSummary)) :=
  fun w =>
    let '(c, result) := Cache.get (_posts_list_cache w) "posts_list" now in
    let w := put_posts_list_cache c w in
    match result with
    | Some _ =>
        (do _ <- logger DEBUG "Cache hit for posts list" []; ret result) w
    | None => (w, Ok result)
    end.

Definition set_posts_list_cached (value : list PostSummary) (now : Q)
  : M unit :=
  fun w =>
    let w :=
      put_posts_list_cache
        (Cache.set (_posts_list_cache w) "posts_list" value now) w in
    logger DEBUG "Cached posts list with %d items"
      [AInt (Z.of_nat (length value))] w.

Definition get_post_cached (slug : string) (now : Q) : M (option PostDetail) :=
  fun w =>
    let '(c, result) := Cache.get (_post_cache w) slug now in
    let w := put_post_cache c w in
    match result with
    | Some _ =>
        (do _ <- logger DEBUG "Cache hit for post: %s" [AStr slug];
         ret result) w
    | None => (w, Ok result)
    end.

Definition set_post_cached (slug : string) (value : PostDetail) (now : Q)
  : M unit :=
  fun w =>
    let w := put_post_cache (Cache.set (_post_cache w) slug value now) w in
    logger DEBUG "Cached post: %s" [AStr slug] w.

Definition get_slug_map_cached (now : Q) : M (option (gmap string string)) :=
  fun w =>
    let '(c, result) := Cache.get (_slug_map_cache w) "slug_map" now in
    let w := put_slug_map_cache c w in
    match result with
    | Some _ =>
        (do _ <- logger DEBUG "Cache hit for slug map" []; ret result) w
    | None => (w, Ok result)
    end.

Definition set_slug_map_cached (value : gmap string string) (now : Q)
  : M unit :=
  fun w =>
    let w :=
      put_slug_map_cache
        (Cache.set (_slug_map_cache w) "slug_map" value now) w in
    logger DEBUG "Cached slug map with %d entries"
      [AInt (Z.of_nat (size value))] w.

Definition clear_all_caches : M unit :=
  fun w =>
    let w := put_posts_list_cache (Cache.clear (_posts_list_cache w)) w in
    let w := put_post_cache (Cache.clear (_post_cache w)) w in
    let w := put_slug_map_cache (Cache.clear (_slug_map_cache w)) w in
    logger INFO "All caches cleared" [] w.

(** ** content_store.py *)

(** The character class [[a-zA-Z0-9_-]]. *)
Definition is_slug_char (c : ascii) : bool :=
  let n := N_of_ascii c in
  ((97 <=? n) && (n <=? 122) || (65 <=? n) && (n <=? 90)
   || (48 <=? n) && (n <=? 57) || (n =? 95) || (n =? 45))%N.

Definition newline : ascii := ascii_of_nat 10.

(** What is left for [[a-zA-Z0-9_-]+$] once the first character of the
    class has been read: the rest of the run, then [$], which Python's [re]
    matches at the end of the string and also just before a newline that
    ends the string. *)
Fixpoint slug_run_then_end (s : string) : bool :=
  match s with
  | EmptyString => true
  | String c s' =>
      if is_slug_char c then slug_run_then_end s'
      else Ascii.eqb c newline && String.eqb s' EmptyString
  end.

(** [SLUG_PATTERN.match(s)] for
    [SLUG_PATTERN = re.compile(r"^[a-zA-Z0-9_-]+$")]. *)
Definition SLUG_PATTERN_match (s : string) : bool :=
  match s with
  | EmptyString => false
  | String c s' => is_slug_char c && slug_run_then_end s'
  end.

Definition MAX_SLUG_LENGTH : nat := 200.

Definition validate_slug (slug : string) : result string :=
  if negb (str_truthy slug) then
    Raise (ValueError "Slug cannot be empty")
  else if (MAX_SLUG_LENGTH <? String.length slug)%nat then
    Raise (ValueError "Slug too long (max 200 characters)")
  else if negb (SLUG_PATTERN_match slug) then
    Raise (ValueError
      "Invalid slug format. Use only alphanumeric characters, hyphens, and underscores.")
  else Ok slug.

(** ** More of Python's [str] and [os.path] *)

(** [c.lower()] on the code points below 256. *)
Definition py_lower_char (c : ascii) : ascii :=
  let n := N_of_ascii c in
  if ((65 <=? n) && (n <=? 90) || (192 <=? n) && (n <=? 214)
      || (216 <=? n) && (n <=? 222))%N
  then ascii_of_N (n + 32) else c.

(** [s.lower()] *)
Fixpoint py_lower (s : string) : string :=
  match s with
  | EmptyString => EmptyString
  | String c s' => String (py_lower_char c) (py_lower s')
  end.

(** [s.endswith(suffix)] *)
Fixpoint py_endswith (s suffix : string) : bool :=
  String.eqb s suffix
  || match s with
     | EmptyString => false
     | String _ s' => py_endswith s' suffix
     end.

(** [sep in s] for a one-character [sep]. *)
Fixpoint py_contains_char (sep : ascii) (s : string) : bool :=
  match s with
  | EmptyString => false
  | String c s' => Ascii.eqb c sep || py_contains_char sep s'
  end.

(** [s.rsplit(sep, 1)[0]]: the text before the last [sep], all of [s] when
    it has none. *)
Fixpoint py_rsplit1_first (sep : ascii) (s : string) : string :=
  match s with
  | EmptyString => EmptyString
  | String c s' =>
      if Ascii.eqb c sep && negb (py_contains_char sep s') then EmptyString
      else String c (py_rsplit1_first sep s')
  end.

(** [s.split(sep)[-1]]: the text after the last [sep], all of [s] when it
    has none. *)
Fixpoint py_split_last (sep : ascii) (s : string) : string :=
  match s with
  | EmptyString => EmptyString
  | String c s' =>
      if py_contains_char sep s' then py_split_last sep s'
      else if Ascii.eqb c sep then s' else s
  end.

(** [os.path.join(a, b)] on POSIX. *)
Definition os_path_join (a b : string) : string :=
  if String.prefix "/" b then b
  else if negb (str_truthy a) || py_endswith a "/" then a +:+ b
  else a +:+ "/" +:+ b.

(** ** middleware.py: the client identity of the request log *)

(** The [client_ip] that [RequestLoggingMiddleware.dispatch] computes for
    its log record. *)
Definition logged_client_ip (request : RateLimit.Request) : string :=
  let client_ip :=
    default
      (default (default "unknown" (RateLimit.client request))
         (RateLimit.req_headers request !! "X-Real-IP"))
      (RateLimit.req_headers request !! "X-Forwarded-For") in
  if py_contains_char "," client_ip
  then RateLimit.py_strip (RateLimit.split_comma_first client_ip)
  else client_ip.

(** ** config.py *)

Module Config.

Inductive Environment : Type := local | dev | staging | prod.

Record Settings : Type := {
  app_name : string;
  environment : Environment;
  log_level : string;
  aws_region : string;
  s3_bucket : string;
  s3_prefix : string;
  content_dir : string;
  cache_ttl_seconds : Z;
  cors_origins : list string
}.

Definition is_using_s3 (self : Settings) : bool :=
  str_truthy (s3_bucket self) && negb (str_truthy (content_dir self)).

Definition is_production (self : Settings) : bool :=
  match environment self with
  | prod => true
  | _ => false
  end.

Definition effective_cors_origins (self : Settings) : M (list string) :=
  if is_production self
     && existsb (String.eqb "*") (cors_origins self)
  then
    do _ <- logger WARNING
              "SECURITY WARNING: CORS allows all origins ('*') in production. Set DEV_BLOG_CORS_ORIGINS to specific domains."
              [];
    ret (cors_origins self)
  else ret (cors_origins self).

End Config.

(** ** cache.py: the statistics *)

(** [get_cache_stats()], a dict of integers. *)
Definition get_cache_stats (settings : Config.Settings) (w : World)
  : gmap string Z :=
  <["ttl_seconds" := Config.cache_ttl_seconds settings]>
  (<["slug_map_size" := Z.of_nat (Cache.size (_slug_map_cache w))]>
  (<["post_cache_max" := Z.of_nat MAX_INDIVIDUAL_POST_CACHE]>
  (<["post_cache_size" := Z.of_nat (Cache.size (_post_cache w))]>
  (<["posts_list_size" := Z.of_nat (Cache.size (_posts_list_cache w))]>
   ∅)))).

(** ** content_store.py: the local directory *)

(** What [os.listdir] returns or raises: the names, or an [OSError] (of
    any subclass) with its [str(e)]. *)
Inductive listdir_result : Type :=
  | Listed (names : list string)
  | ListOSError (msg : string).

(** What [open(path, encoding="utf-8").read()] returns or raises: the text,
    [FileNotFoundError], another [OSError], or [UnicodeDecodeError] (a
    [ValueError]); each exception with its [str(e)]. *)
Inductive read_result : Type :=
  | ReadOk (text : string)
  | ReadFileNotFoundError (msg : string)
  | ReadOSError (msg : string)
  | ReadUnicodeDecodeError (msg : string).

(** The file system as content_store.py uses it: [os.path.isdir],
    [os.listdir], [os.path.realpath] and
    [open(path, encoding="utf-8").read()]. *)
Record FileSystem : Type := {
  os_isdir : string -> bool;
  os_listdir : string -> listdir_result;
  os_realpath : string -> string;
  read_text : string -> read_result
}.

Module LocalStore.

Section WithFileSystem.
Variable settings : Config.Settings.
Variable fs : FileSystem.

(** The loop of [_list_local_slugs] over the names of the directory. *)
Fixpoint scan_names (names slugs : list string) : M (list string) :=
  match names with
  | [] => ret slugs
  | name :: names' =>
      if negb (py_endswith (py_lower name) ".md") then
        scan_names names' slugs
      else
        let slug := py_rsplit1_first "." name in
        if SLUG_PATTERN_match slug then scan_names names' (slugs ++ [slug])
        else
          do _ <- logger WARNING "Skipping file with invalid slug format: %s"
                    [AStr name];
          scan_names names' slugs
  end.

Definition _list_local_slugs : M (list string) :=
  let directory := Config.content_dir settings in
  if negb (os_isdir fs directory) then
    do _ <- logger WARNING "Content directory does not exist: %s"
              [AStr directory];
    ret []
  else
    match os_listdir fs directory with
    | Listed names =>
        do slugs <- scan_names names [];
        do _ <- logger DEBUG "Found %d posts in local directory"
                  [AInt (Z.of_nat (length slugs))];
        ret slugs
    | ListOSError msg =>
        do _ <- logger ERROR "Failed to list local content directory: %s"
                  [AStr msg];
        raise ContentError
    end.

(** [_load_local_post(slug)]; the path handed to [open] is recorded in
    [storage_reads]. *)
Definition _load_local_post (slug : string) : M string :=
  let path := os_path_join (Config.content_dir settings) (slug +:+ ".md") in
  let real_path := os_realpath fs path in
  let real_content_dir := os_realpath fs (Config.content_dir settings) in
  if negb (String.prefix real_content_dir real_path) then
    do _ <- logger ERROR "Path traversal attempt detected: %s" [AStr slug];
    raise (ValueError "Invalid slug")
  else
    do _ <- record_storage_read path;
    match read_text fs path with
    | ReadOk content =>
        do _ <- logger DEBUG "Loaded post from local file: %s" [AStr path];
        ret content
    | ReadFileNotFoundError _ =>
        do _ <- logger DEBUG "Post not found locally: %s" [AStr slug];
        raise FileNotFoundError
    | ReadOSError msg =>
        do _ <- logger ERROR "Failed to read local post %s: %s"
                  [AStr slug; AStr msg];
        raise ContentError
    | ReadUnicodeDecodeError msg => raise (ValueError msg)
    end.

End WithFileSystem.

End LocalStore.

(** ** s3_client.py *)

(** What a call of the boto3 client returns or raises: a [ClientError]
    with the code and the message of its response, when it has them, and
    its [str(e)]; or a [BotoCoreError] with its [str(e)]. *)
Inductive s3_result (A : Type) : Type :=
  | S3Ok (a : A)
  | S3ClientError (code message : option string) (text : string)
  | S3BotoCoreError (text : string).
Arguments S3Ok {A} a.
Arguments S3ClientError {A} code message text.
Arguments S3BotoCoreError {A} text.

(** boto3 as s3_client.py uses it: [boto3.client("s3", ...)] (the
    exception it raises, if it does), the pages of [list_objects_v2] for a
    bucket and a prefix (each page with the keys of its [Contents], when it
    has that entry), the bytes of [get_object] for a bucket and a key, and
    [bytes.decode("utf-8")] ([None] when it raises
    [UnicodeDecodeError]). *)
Record Boto3 : Type := {
  boto3_client : option exn;
  list_objects_v2 : string -> string -> s3_result (list (option (list string)));
  get_object : string -> string -> s3_result string;
  decode_utf8 : string -> option string
}.

Inductive BaseClient : Type := S3ClientHandle.

(** The state of the process with the module-level client of
    s3_client.py. *)
Record Process : Type := {
  world : World;
  _s3_client : option BaseClient
}.

(** Code of s3_client.py and its callers. *)
Definition MS (A : Type) : Type := Process -> Process * result A.

Definition retS {A : Type} (a : A) : MS A := fun p => (p, Ok a).

Definition raiseS {A : Type} (e : exn) : MS A := fun p => (p, Raise e).

Definition bindS {A B : Type} (m : MS A) (k : A -> MS B) : MS B :=
  fun p =>
    match m p with
    | (p', Ok a) => k a p'
    | (p', Raise e) => (p', Raise e)
    end.

Notation "'doS' x '<-' m ';' k" := (bindS m (fun x => k))
  (at level 10, x name, m at level 100, k at level 200).

(** Code that does not touch the client. *)
Definition liftW {A : Type} (m : M A) : MS A :=
  fun p =>
    let '(w, r) := m (world p) in
    ({| world := w; _s3_client := _s3_client p |}, r).

Definition loggerS (lvl : log_level) (f : string) (a : list log_arg)
  : MS unit := liftW (logger lvl f a).

(** [try: m except S3Error as e: handler] *)
Definition try_exceptS {A : Type} (m : MS A) (caught : exn -> bool)
    (handler : exn -> MS A) : MS A :=
  fun p =>
    match m p with
    | (p', Ok a) => (p', Ok a)
    | (p', Raise e) => if caught e then handler e p' else (p', Raise e)
    end.

Module S3Client.

Section WithBoto3.
Variable settings : Config.Settings.
Variable boto3 : Boto3.

Definition get_s3_client : MS BaseClient :=
  fun p =>
    match _s3_client p with
    | Some client => (p, Ok client)
    | None =>
        (doS _ <- loggerS DEBUG "Creating new S3 client for region: %s"
                    [AStr (Config.aws_region settings)];
         fun p =>
           match boto3_client boto3 with
           | Some e => (p, Raise e)
           | None =>
               ({| world := world p; _s3_client := Some S3ClientHandle |},
                Ok S3ClientHandle)
           end) p
    end.

Definition reset_s3_client : MS unit :=
  fun p =>
    loggerS DEBUG "S3 client reset" []
      {| world := world p; _s3_client := None |}.

(** [[key for page in pages for key in (page.get("Contents", []) or [])
    if key.lower().endswith(".md")]] *)
Definition markdown_keys (pages : list (option (list string)))
  : list string :=
  List.filter (fun key => py_endswith (py_lower key) ".md")
    (concat (map (default []) pages)).

Definition list_markdown_keys (prefix : option string) : MS (list string) :=
  doS client <- get_s3_client;
  let bucket := Config.s3_bucket settings in
  let effective_prefix := default (Config.s3_prefix settings) prefix in
  if negb (str_truthy bucket) then
    doS _ <- loggerS WARNING "S3 bucket not configured" [];
    retS []
  else
    doS _ <- loggerS DEBUG "Listing S3 keys in bucket=%s, prefix=%s"
               [AStr bucket; AStr effective_prefix];
    match list_objects_v2 boto3 bucket effective_prefix with
    | S3Ok pages =>
        let keys := markdown_keys pages in
        doS _ <- loggerS DEBUG "Found %d Markdown files in S3"
                   [AInt (Z.of_nat (length keys))];
        retS keys
    | S3ClientError code message text =>
        let error_code := default "Unknown" code in
        let error_msg := default text message in
        doS _ <-
          (if String.eqb error_code "NoSuchBucket" then
             loggerS ERROR "S3 bucket does not exist: %s" [AStr bucket]
           else if String.eqb error_code "AccessDenied" then
             loggerS ERROR "Access denied to S3 bucket: %s" [AStr bucket]
           else
             loggerS ERROR "S3 ClientError (%s): %s"
               [AStr error_code; AStr error_msg]);
        raiseS S3Error
    | S3BotoCoreError text =>
        doS _ <- loggerS ERROR "AWS connectivity error: %s" [AStr text];
        raiseS S3Error
    end.

Definition get_object_text (key : string) : MS string :=
  doS client <- get_s3_client;
  let bucket := Config.s3_bucket settings in
  if negb (str_truthy bucket) then raiseS S3Error
  else
    doS _ <- loggerS DEBUG "Fetching S3 object: s3://%s/%s"
               [AStr bucket; AStr key];
    match get_object boto3 bucket key with
    | S3Ok body =>
        match decode_utf8 boto3 body with
        | Some text => retS text
        | None =>
            doS _ <- loggerS ERROR "Failed to decode S3 object as UTF-8: %s"
                       [AStr key];
            raiseS S3Error
        end
    | S3ClientError code message text =>
        let error_code := default "Unknown" code in
        if String.eqb error_code "NoSuchKey" then
          doS _ <- loggerS WARNING "S3 object not found: %s" [AStr key];
          raiseS FileNotFoundError
        else
          doS _ <- loggerS ERROR "S3 error fetching %s: %s"
                     [AStr key; AStr text];
          raiseS S3Error
    | S3BotoCoreError text =>
        doS _ <- loggerS ERROR "AWS connectivity error fetching %s: %s"
                   [AStr key; AStr text];
        raiseS S3Error
    end.

(** One turn of the loop of [get_slug_to_key_map]. *)
Definition add_key (slug_map : gmap string string) (key : string)
  : gmap string string :=
  let filename := py_split_last "/" key in
  if py_endswith (py_lower filename) ".md" then
    let slug := py_rsplit1_first "." filename in
    <[slug := key]> slug_map
  else slug_map.

Definition build_slug_map (keys : list string) : gmap string string :=
  fold_left add_key keys ∅.

(** [now] is the reading of the cache timer at the lookup and [now'] at the
    store. *)
Definition get_slug_to_key_map (now now' : Q) : MS (gmap string string) :=
  doS cached <- liftW (get_slug_map_cached now);
  match cached with
  | Some cached => retS cached
  | None =>
      doS keys <- list_markdown_keys None;
      let slug_map := build_slug_map keys in
      doS _ <- liftW (set_slug_map_cached slug_map now');
      doS _ <- loggerS DEBUG "Built slug-to-key map with %d entries"
                 [AInt (Z.of_nat (size slug_map))];
      retS slug_map
  end.

End WithBoto3.

End S3Client.

(** ** content_store.py: the bucket, and the choice of the storage *)

Module ContentStore.

Section WithStorage.
Variable settings : Config.Settings.
Variable fs : FileSystem.
Variable boto3 : Boto3.

Definition is_S3Error (e : exn) : bool :=
  match e with
  | S3Error => true
  | _ => false
  end.

(** [list(slug_map.keys())]; the keys come in the order of the map of the
    model, not in the insertion order of the dict. *)
Definition _list_s3_slugs (now now' : Q) : MS (list string) :=
  try_exceptS
    (doS slug_map <- S3Client.get_slug_to_key_map settings boto3 now now';
     retS (map fst (map_to_list slug_map)))
    is_S3Error
    (fun e =>
       doS _ <- loggerS ERROR "Failed to list posts from S3: %s" [AExn e];
       raiseS ContentError).

(** [_load_s3_post(slug)]; the key handed to [get_object_text] is recorded
    in [storage_reads]. *)
Definition _load_s3_post (slug : string) (now now' : Q) : MS string :=
  try_exceptS
    (doS slug_map <- S3Client.get_slug_to_key_map settings boto3 now now';
     match slug_map !! slug with
     | Some key =>
         if str_truthy key then
           doS _ <- liftW (record_storage_read key);
           doS content <- S3Client.get_object_text settings boto3 key;
           doS _ <- loggerS DEBUG "Loaded post from S3: %s" [AStr key];
           retS content
         else
           doS _ <- loggerS DEBUG "Post not found in S3: %s" [AStr slug];
           raiseS FileNotFoundError
     | None =>
         doS _ <- loggerS DEBUG "Post not found in S3: %s" [AStr slug];
         raiseS FileNotFoundError
     end)
    is_S3Error
    (fun e =>
       doS _ <- loggerS ERROR "Failed to load post %s from S3: %s"
                  [AStr slug; AExn e];
       raiseS ContentError).

Definition list_post_slugs (now now' : Q) : MS (list string) :=
  if str_truthy (Config.content_dir settings)
  then liftW (LocalStore._list_local_slugs settings fs)
  else _list_s3_slugs now now'.

Definition load_post_by_slug (slug : string) (now now' : Q) : MS string :=
  doS _ <- liftW (lift (validate_slug slug));
  if str_truthy (Config.content_dir settings)
  then liftW (LocalStore._load_local_post settings fs slug)
  else _load_s3_post slug now now'.

End WithStorage.

End ContentStore.

(** ** Collaborators

    What the handlers call and the source tree does not define. *)
Module External.

Record Collaborators : Type := {
  (** The storage backend ([_list_local_slugs] or [_list_s3_slugs],
      [_load_local_post] or [_load_s3_post], chosen by
      [settings.content_dir]): what listing the slugs and reading one post
      return or raise. *)
  backend_list_slugs : result (list string);
  backend_load : string -> result string;
  (** The values of a front matter block, with the Python operations the
      handlers apply to them: [str(v)], [list(v or [])] ([None] when it
      raises [TypeError]), and pydantic's validation of a field of type
      [str | None] and of type [list[str]] ([None] when it fails). *)
  MetaValue : Type;
  py_str : MetaValue -> string;
  py_list_or_empty : MetaValue -> option (list MetaValue);
  as_optional_str : MetaValue -> option (option string);
  as_str_list : list MetaValue -> option (list string);
  (** [frontmatter.loads(raw)]: the metadata and the body, or the exception
      raised. *)
  frontmatter_loads : string -> result (gmap string MetaValue * string);
  (** [hashlib.md5(content.encode()).hexdigest()] *)
  md5_hexdigest : string -> string;
  (** [settings.cache_ttl_seconds] *)
  cache_ttl_seconds : Z
}.

End External.

Abbreviation Collaborators := External.Collaborators.

Section Backend.

Variable env : Collaborators.

Local Abbreviation backend_list_slugs := (External.backend_list_slugs env).
Local Abbreviation backend_load := (External.backend_load env).
Local Abbreviation MetaValue := (External.MetaValue env).
Local Abbreviation py_str := (External.py_str env).
Local Abbreviation py_list_or_empty := (External.py_list_or_empty env).
Local Abbreviation as_optional_str := (External.as_optional_str env).
Local Abbreviation as_str_list := (External.as_str_list env).
Local Abbreviation frontmatter_loads := (External.frontmatter_loads env).
Local Abbreviation md5_hexdigest := (External.md5_hexdigest env).
Local Abbreviation cache_ttl_seconds := (External.cache_ttl_seconds env).

(** The content store as the handlers see it: what its two functions
    return or raise. The records the storage layer writes to the log on
    its own and its use of the slug-map cache and of the S3 client are in
    Module [ContentStore] above and are left out here: the log of the
    handlers' model holds the records of main.py and cache.py only. *)
Definition list_post_slugs : M (list string) := lift backend_list_slugs.

(** [_load_local_post(slug)] or [_load_s3_post(slug)]: the one place a
    post is read from storage. *)
Definition read_from_storage (slug : string) : M string :=
  do _ <- record_storage_read slug;
  lift (backend_load slug).

Definition load_post_by_slug (slug : string) : M string :=
  do _ <- lift (validate_slug slug);
  read_from_storage slug.

(** ** main.py *)

Inductive json_content : Type :=
  | ListContent (r : PostListResponse)
  | DetailContent (d : PostDetail)
  | ErrorContent (detail : string) (error_code : option string).

(** A [JSONResponse]; [json_headers] holds the headers set by the
    handlers, not those Starlette derives from the rendered body. *)
Record JSONResponse : Type := {
  json_status : Z;
  json_headers : gmap string string;
  json_body : json_content
}.

Definition generate_etag (content : string) : string :=
  dquote +:+ md5_hexdigest content +:+ dquote.

Definition add_cache_headers (response : JSONResponse)
    (etag : option string) : JSONResponse :=
  let hdrs :=
    <["Cache-Control" :=
        "public, max-age=" +:+ py_str_int cache_ttl_seconds]>
    (json_headers response) in
  let hdrs :=
    match etag with
    | Some e => if str_truthy e then <["ETag" := e]> hdrs else hdrs
    | None => hdrs
    end in
  {| json_status := json_status response;
     json_headers := hdrs;
     json_body := json_body response |}.

Definition parse_frontmatter (raw slug : string)
  : M (gmap string MetaValue * string) :=
  match frontmatter_loads raw with
  | Ok parsed => ret parsed
  | Raise YAMLError =>
      do _ <- logger ERROR "YAML parse error in post %s: %s"
                [AStr slug; AExn YAMLError];
      raise (ValueError ("Invalid frontmatter format in post: " +:+ slug))
  | Raise e => raise e
  end.

(** [PostMeta(slug=slug, title=str(meta_dict.get("title", slug)),
    date=str(meta_dict.get("date", "")),
    description=meta_dict.get("description"),
    tags=list(meta_dict.get("tags", []) or []))]: the arguments are
    evaluated first, then pydantic validates the fields (its
    [ValidationError] is a [ValueError]). *)
Definition make_post_meta (slug : string)
    (meta_dict : gmap string MetaValue) : result PostMeta :=
  let title :=
    match meta_dict !! "title" with
    | Some v => py_str v
    | None => slug
    end in
  let date :=
    match meta_dict !! "date" with
    | Some v => py_str v
    | None => EmptyString
    end in
  let tags_arg :=
    match meta_dict !! "tags" with
    | Some v => py_list_or_empty v
    | None => Some []
    end in
  match tags_arg with
  | None => Raise OtherError
  | Some tags_arg =>
      (* the validator of the field in models.py has the body of
         validate_slug *)
      let slug_field := validate_slug slug in
      let description_field :=
        match meta_dict !! "description" with
        | Some v => as_optional_str v
        | None => Some None
        end in
      let tags_field := as_str_list tags_arg in
      match slug_field, description_field, tags_field with
      | Ok slug, Some description, Some tags =>
          Ok {| slug := slug; title := title; date := date;
                description := description; tags := tags |}
      | _, _, _ => Raise (ValueError "validation error for PostMeta")
      end
  end.

(** [x < y] on [str]. *)
Definition str_lt (x y : string) : bool :=
  match String.compare x y with
  | Lt => true
  | _ => false
  end.

(** [all_summaries.sort(key=lambda s: s.date, reverse=True)]. Python's
    sort is stable, also with [reverse=True], which fixes its result: an
    insertion sort that puts a summary before the first one whose date is
    not greater computes it. *)
Fixpoint insert_by_date (s : PostSummary) (l : list PostSummary)
  : list PostSummary :=
  match l with
  | [] => [s]
  | y :: l' =>
      if str_lt (date s) (date y) then y :: insert_by_date s l'
      else s :: y :: l'
  end.

Definition sort_by_date_desc (l : list PostSummary) : list PostSummary :=
  fold_right insert_by_date [] l.

(** An index of a slice, as Python clamps it for a list of length [len]. *)
Definition slice_index (len i : Z) : Z :=
  if i <? 0 then Z.max (i + len) 0 else Z.min i len.

(** [l[start:stop]] *)
Definition py_slice {A : Type} (l : list A) (start stop : Z) : list A :=
  let len := Z.of_nat (length l) in
  let a := slice_index len start in
  let b := slice_index len stop in
  firstn (Z.to_nat (b - a)) (skipn (Z.to_nat a) l).

(** The body of the [try] in the listing loop. *)
Definition load_summary (slug : string) : M PostSummary :=
  do raw <- load_post_by_slug slug;
  do parsed <- parse_frontmatter raw slug;
  lift (make_post_meta slug (fst parsed)).

(** [except (ValueError, FileNotFoundError)] *)
Definition skippable (e : exn) : bool :=
  match e with
  | ValueError _ | FileNotFoundError => true
  | _ => false
  end.

(** [for slug in slugs: try: ... all_summaries.append(...)
    except (ValueError, FileNotFoundError) as e: logger.warning(...);
    continue] *)
Fixpoint load_all_summaries (slugs : list string)
    (all_summaries : list PostSummary) : M (list PostSummary) :=
  match slugs with
  | [] => ret all_summaries
  | slug :: slugs' =>
      do all_summaries <-
        try_except
          (do s <- load_summary slug; ret (all_summaries ++ [s]))
          skippable
          (fun e =>
             do _ <- logger WARNING "Skipping post %s due to error: %s"
                       [AStr slug; AExn e];
             ret all_summaries);
      load_all_summaries slugs' all_summaries
  end.

(** The handlers take the values FastAPI has validated; [now] is the
    reading of the cache timer at the lookup and [now'] at the store. *)
Definition list_posts (limit offset : Z) (now now' : Q) : M JSONResponse :=
  do cached <- get_posts_list_cached now;
  do all_summaries <-
    match cached with
    | Some all_summaries => ret all_summaries
    | None =>
        do _ <- logger DEBUG
                  "Cache miss for posts list, loading from storage" [];
        do slugs <- list_post_slugs;
        do all_summaries <- load_all_summaries slugs [];
        let all_summaries := sort_by_date_desc all_summaries in
        do _ <- set_posts_list_cached all_summaries now';
        ret all_summaries
    end;
  let total := Z.of_nat (length all_summaries) in
  let paginated := py_slice all_summaries offset (offset + limit) in
  let response_data :=
    {| posts := paginated; total := total;
       limit := limit; offset := offset |} in
  let response :=
    {| json_status := 200; json_headers := ∅;
       json_body := ListContent response_data |} in
  let etag :=
    generate_etag
      (py_str_int total +:+ "-" +:+ py_str_int offset +:+ "-"
       +:+ py_str_int limit) in
  ret (add_cache_headers response (Some etag)).

Definition get_post (slug : string) (now now' : Q) : M JSONResponse :=
  if negb (SLUG_PATTERN_match slug) then
    do _ <- logger WARNING "Invalid slug format requested: %s" [AStr slug];
    raise (HTTPException 400
      "Invalid slug format. Use only alphanumeric characters, hyphens, and underscores.")
  else
    do cached <- get_post_cached slug now;
    match cached with
    | Some cached =>
        let response :=
          {| json_status := 200; json_headers := ∅;
             json_body := DetailContent cached |} in
        let etag := generate_etag (post_content cached) in
        ret (add_cache_headers response (Some etag))
    | None =>
        do raw <-
          try_except (load_post_by_slug slug)
            (fun e => match e with FileNotFoundError => true | _ => false end)
            (fun _ =>
               do _ <- logger DEBUG "Post not found: %s" [AStr slug];
               raise (HTTPException 404 "Post not found"));
        do parsed <- parse_frontmatter raw slug;
        let '(meta_dict, content) := parsed in
        do meta <- lift (make_post_meta slug meta_dict);
        let detail := {| meta := meta; post_content := content |} in
        do _ <- set_post_cached slug detail now';
        let response :=
          {| json_status := 200; json_headers := ∅;
             json_body := DetailContent detail |} in
        let etag := generate_etag content in
        ret (add_cache_headers response (Some etag))
    end.

(** The exception handlers of the application ([HTTPException] is
    answered by FastAPI with its status and detail). *)
Definition error_response (status : Z) (detail : string)
    (error_code : option string) : JSONResponse :=
  {| json_status := status; json_headers := ∅;
     json_body := ErrorContent detail error_code |}.

Definition handle_exception (path : string) (e : exn)
  : World -> World * JSONResponse :=
  fun w =>
    match e with
    | HTTPException status detail =>
        (w, error_response status detail None)
    | ValueError msg =>
        ((logger WARNING "Validation error on %s: %s" [AStr path; AExn e] w).1,
         error_response 400 msg (Some "VALIDATION_ERROR"))
    | ContentError =>
        ((logger ERROR "Content error on %s: %s" [AStr path; AExn e] w).1,
         error_response 503 "Content temporarily unavailable"
           (Some "CONTENT_ERROR"))
    | S3Error =>
        ((logger ERROR "S3 error on %s: %s" [AStr path; AExn e] w).1,
         error_response 503 "Storage service temporarily unavailable"
           (Some "S3_ERROR"))
    | _ =>
        ((logger ERROR "Unhandled error on %s: %s" [AStr path; AExn e] w).1,
         error_response 500 "Internal server error" (Some "INTERNAL_ERROR"))
    end.

(** A route: the handler, then the exception handlers on what it raises. *)
Definition route (path : string) (handler : M JSONResponse)
  : World -> World * JSONResponse :=
  fun w =>
    match handler w with
    | (w', Ok response) => (w', response)
    | (w', Raise e) => handle_exception path e w'
    end.

(** * Properties *)

(** ** The rate limiter *)

Import RateLimit.

Lemma Qltb_lt (a b : Q) : Qltb a b = true <-> (a < b)%Q.
Proof.
  unfold Qltb. rewrite negb_true_iff. split.
  - intros H. apply Qnot_le_lt. intros Hle.
    apply Qle_bool_iff in Hle. congruence.
  - intros H. destruct (Qle_bool b a) eqn:E; [|reflexivity].
    apply Qle_bool_iff in E. exfalso. apply (Qlt_not_le _ _ H E).
Qed.

(** Pruning keeps exactly the timestamps of the last hour, in order. *)
Lemma clean_old_In (now t : Q) (reqs : list Q) :
  In t (clean_old now reqs) <-> In t reqs /\ (now - 3600 < t)%Q.
Proof.
  unfold clean_old. rewrite List.filter_In, Qltb_lt.
  split; intros [Hin Hlt]; split; trivial; lra.
Qed.

(** Every timestamp older than [now - 3600] is gone after pruning. *)
Lemma clean_old_drops_older (now t : Q) (reqs : list Q) :
  (t < now - 3600)%Q -> ~ In t (clean_old now reqs).
Proof.
  intros Hold Hin. apply clean_old_In in Hin as [_ Hlt]. lra.
Qed.

(** The generator sum of the source counts the timestamps newer than
    [minute_ago]. *)
Lemma count_last_minute_filter (minute_ago : Q) (reqs : list Q) :
  count_last_minute minute_ago reqs
  = Z.of_nat (length (List.filter (fun t => Qltb minute_ago t) reqs)).
Proof.
  induction reqs as [|t reqs IH]; simpl; [reflexivity|].
  destruct (Qltb minute_ago t); simpl length; rewrite IH; lia.
Qed.

(** The number of timestamps of [reqs] within the minute before [now]. *)
Definition minuteCount (now : Q) (reqs : list Q) : Z :=
  Z.of_nat (length (List.filter (fun t => Qltb (now - 60) t) reqs)).

(** The number of timestamps of [reqs]. *)
Definition hourCount (reqs : list Q) : Z := Z.of_nat (length reqs).

(** C1: the rate-limit check prunes the bucket of the client to the
    timestamps of the last hour (every timestamp older than one hour is
    removed) and stores the pruned bucket, counts on the pruned bucket the
    timestamps of the last minute and all of them, denies with
    Retry-After 60 when the minute count has reached requests_per_minute,
    otherwise denies with Retry-After 3600 when the hour count has reached
    requests_per_hour, otherwise allows, and in each case returns as
    remaining quota max(0, limit - count) for both windows. The pruned
    bucket and the two counts are written out on the standard library's
    [List.filter] and [Qle_bool]: [pruned] keeps, in order and with their
    repetitions, the timestamps [t] with [now - t < 3600], and [mc] is the
    number of those with [now - 60 < t]. *)
Theorem is_rate_limited_algorithm
    (self : RateLimitMiddleware) (client_ip : string) (now : Q) :
  let old :=
    match buckets self !! client_ip with
    | Some bucket => requests bucket
    | None => []
    end in
  let pruned := List.filter (fun t => negb (Qle_bool 3600 (now - t))) old in
  let mc :=
    Z.of_nat
      (length (List.filter (fun t => negb (Qle_bool t (now - 60))) pruned)) in
  let hc := Z.of_nat (length pruned) in
  let self' := (_is_rate_limited self client_ip now).1 in
  let is_limited := (_is_rate_limited self client_ip now).2.1 in
  let hdrs := (_is_rate_limited self client_ip now).2.2 in
  let quota : gmap string string :=
    <["X-RateLimit-Remaining-Hour" :=
        py_str_int (Z.max 0 (requests_per_hour self - hc))]>
    (<["X-RateLimit-Limit-Hour" := py_str_int (requests_per_hour self)]>
    (<["X-RateLimit-Remaining-Minute" :=
         py_str_int (Z.max 0 (requests_per_minute self - mc))]>
    (<["X-RateLimit-Limit-Minute" := py_str_int (requests_per_minute self)]>
     ∅))) in
  (forall t, In t pruned <-> In t old /\ (now - 3600 < t)%Q)
  /\ (forall t, In t old -> (t < now - 3600)%Q -> ~ In t pruned)
  /\ (forall t, In t (List.filter (fun t => negb (Qle_bool t (now - 60)))
                       pruned)
               <-> In t pruned /\ (now - 60 < t)%Q)
  /\ self' = set_bucket self client_ip {| requests := pruned |}
  /\ buckets self' = <[client_ip := {| requests := pruned |}]> (buckets self)
  /\ requests (get_bucket self' client_ip) = pruned
  /\ (forall other, other <> client_ip ->
        buckets self' !! other = buckets self !! other)
  /\ requests_per_minute self' = requests_per_minute self
  /\ requests_per_hour self' = requests_per_hour self
  /\ enabled self' = enabled self
  /\ hdrs !! "X-RateLimit-Remaining-Minute"
       = Some (py_str_int (Z.max 0 (requests_per_minute self - mc)))
  /\ hdrs !! "X-RateLimit-Remaining-Hour"
       = Some (py_str_int (Z.max 0 (requests_per_hour self - hc)))
  /\ hdrs !! "X-RateLimit-Limit-Minute"
       = Some (py_str_int (requests_per_minute self))
  /\ hdrs !! "X-RateLimit-Limit-Hour"
       = Some (py_str_int (requests_per_hour self))
  /\ is_limited
     = (requests_per_minute self <=? mc) || (requests_per_hour self <=? hc)
  /\ hdrs
     = (if requests_per_minute self <=? mc
        then <["Retry-After" := "60"]> quota
        else if requests_per_hour self <=? hc
             then <["Retry-After" := "3600"]> quota
             else quota)
  /\ (requests_per_minute self <= mc ->
        is_limited = true /\ hdrs !! "Retry-After" = Some "60")
  /\ (mc < requests_per_minute self -> requests_per_hour self <= hc ->
        is_limited = true /\ hdrs !! "Retry-After" = Some "3600")
  /\ (mc < requests_per_minute self -> hc < requests_per_hour self ->
        is_limited = false /\ hdrs !! "Retry-After" = None).
Proof.
  intros old pruned mc hc self' is_limited hdrs quota.
  assert (Hold : requests (get_bucket self client_ip) = old).
  { unfold get_bucket, old. by destruct (buckets self !! client_ip). }
  assert (Hpruned : clean_old now (requests (get_bucket self client_ip))
                    = pruned).
  { rewrite Hold. reflexivity. }
  split; [intros t; rewrite <- Hpruned, Hold; apply clean_old_In|].
  split; [intros t _ Ht; rewrite <- Hpruned;
          now apply clean_old_drops_older|].
  split.
  { intros t. rewrite List.filter_In.
    change (negb (Qle_bool t (now - 60))) with (Qltb (now - 60) t).
    by rewrite Qltb_lt. }
  subst self' is_limited hdrs. unfold _is_rate_limited.
  rewrite Hpruned. cbn [requests set_bucket requests_per_minute
    requests_per_hour].
  rewrite count_last_minute_filter.
  change (Z.of_nat
            (length (List.filter (fun t => Qltb (now - 60) t) pruned)))
    with mc.
  change (Z.of_nat (length pruned)) with hc.
  destruct (Z.leb_spec (requests_per_minute self) mc) as [Hm|Hm];
    [|destruct (Z.leb_spec (requests_per_hour self) hc) as [Hh|Hh]];
    cbn [fst snd orb buckets enabled requests_per_minute requests_per_hour];
    (split; [reflexivity|]); (split; [reflexivity|]);
    (split; [unfold get_bucket; cbn; by simplify_map_eq|]);
    (split; [intros other Hother; cbn; by simplify_map_eq|]);
    (split; [reflexivity|]); (split; [reflexivity|]);
    (split; [reflexivity|]);
    repeat (split; [by simplify_map_eq|]);
    repeat split; intros; try lia; by simplify_map_eq.
Qed.

(** A request outside the bypass conditions leaves every other client's
    bucket as it was. *)
Lemma set_bucket_other (self : RateLimitMiddleware) (ip other : string)
    (b : RateLimitBucket) :
  other <> ip -> get_bucket (set_bucket self ip b) other = get_bucket self other.
Proof.
  intros Hne. unfold get_bucket, set_bucket. cbn [buckets].
  by rewrite lookup_insert_ne.
Qed.

Lemma set_bucket_same (self : RateLimitMiddleware) (ip : string)
    (b : RateLimitBucket) :
  get_bucket (set_bucket self ip b) ip = b.
Proof.
  unfold get_bucket, set_bucket. cbn [buckets].
  by rewrite lookup_insert_eq.
Qed.

Lemma is_rate_limited_state (self : RateLimitMiddleware) (ip : string)
    (now : Q) :
  (_is_rate_limited self ip now).1
  = set_bucket self ip
      {| requests := clean_old now (requests (get_bucket self ip)) |}.
Proof.
  unfold _is_rate_limited.
  repeat match goal with |- context [if ?c then _ else _] => destruct c end;
    reflexivity.
Qed.

(** A bypassed request (limiter disabled, or the health check) does not
    touch the limiter at all. *)
Lemma dispatch_bypass (self : RateLimitMiddleware) (request : Request)
    (now now' : Q) (call_next : Request -> Response) :
  enabled self = false \/ url_path request = "/health" ->
  dispatch self request now now' call_next = (self, call_next request).
Proof.
  intros H. unfold dispatch.
  destruct H as [-> | ->]; [reflexivity|].
  by rewrite orb_true_r.
Qed.

(** C4: for a request the limiter processes, a denied request leaves in
    the client's bucket exactly the pruned timestamps (nothing is
    appended) and is answered 429; an allowed request leaves the pruned
    timestamps followed by exactly one new timestamp, the clock reading
    at recording; the buckets of the other clients do not change. *)
Theorem dispatch_records_only_allowed
    (self : RateLimitMiddleware) (request : Request) (now now' : Q)
    (call_next : Request -> Response) :
  enabled self = true ->
  url_path request <> "/health" ->
  let client_ip := _get_client_ip request in
  let pruned := clean_old now (requests (get_bucket self client_ip)) in
  let is_limited := (_is_rate_limited self client_ip now).2.1 in
  let hdrs := (_is_rate_limited self client_ip now).2.2 in
  let self' := (dispatch self request now now' call_next).1 in
  let response := (dispatch self request now now' call_next).2 in
  (is_limited = true ->
     requests (get_bucket self' client_ip) = pruned
     /\ status_code response = 429)
  /\ (is_limited = false ->
       requests (get_bucket self' client_ip) = pruned ++ [now']
       /\ response = add_headers hdrs (call_next request))
  /\ (forall other, other <> client_ip ->
       get_bucket self' other = get_bucket self other).
Proof.
  intros Hen Hpath client_ip pruned is_limited hdrs self' response.
  assert (Hd : dispatch self request now now' call_next
    = if is_limited
      then ((_is_rate_limited self client_ip now).1,
            add_headers hdrs rate_limit_response)
      else (record_request (_is_rate_limited self client_ip now).1
              client_ip now',
            add_headers hdrs (call_next request))).
  { unfold dispatch. rewrite Hen. cbn [negb orb].
    destruct (String.eqb_spec (url_path request) "/health") as [E|_];
      [contradiction|].
    fold client_ip. subst is_limited hdrs.
    destruct (_is_rate_limited self client_ip now) as [s [b h]].
    reflexivity. }
  subst self' response. rewrite Hd. clear Hd.
  rewrite is_rate_limited_state. fold pruned.
  split; [|split].
  - intros ->. cbn [fst snd]. by rewrite set_bucket_same.
  - intros ->. cbn [fst snd]. unfold record_request.
    by rewrite !set_bucket_same.
  - intros other Hne. destruct is_limited; cbn [fst];
      unfold record_request; by rewrite !set_bucket_other.
Qed.

(** ** The caches *)

Section CacheFacts.
Context {V : Type}.
Implicit Types (c : Cache.TTLCache V) (es : list (string * Cache.CacheEntry V)).

Lemma find_overwrite_same es key e :
  Cache.find_entry key es <> None ->
  Cache.find_entry key (Cache.overwrite_entry key e es) = Some e.
Proof.
  induction es as [|[k e0] es IH]; simpl; [congruence|].
  destruct (String.eqb k key) eqn:E; simpl; rewrite E; auto.
Qed.

Lemma find_app_new es key e :
  Cache.find_entry key es = None ->
  Cache.find_entry key (es ++ [(key, e)]) = Some e.
Proof.
  induction es as [|[k e0] es IH]; simpl.
  - by rewrite String.eqb_refl.
  - destruct (String.eqb k key); [congruence|auto].
Qed.

Lemma find_tail_None es key :
  Cache.find_entry key es = None -> Cache.find_entry key (tail es) = None.
Proof.
  destruct es as [|[k e0] es]; simpl; [auto|].
  destruct (String.eqb k key); [congruence|auto].
Qed.

Lemma find_remove_same es key :
  Cache.find_entry key (Cache.remove_entry key es) = None.
Proof.
  induction es as [|[k e0] es IH]; simpl; [reflexivity|].
  destruct (String.eqb k key) eqn:E; simpl; [auto|by rewrite E].
Qed.

Lemma length_overwrite es key e :
  length (Cache.overwrite_entry key e es) = length es.
Proof.
  induction es as [|[k e0] es IH]; simpl; [reflexivity|].
  destruct (String.eqb k key); simpl; congruence.
Qed.

Lemma length_remove es key :
  (length (Cache.remove_entry key es) <= length es)%nat.
Proof.
  induction es as [|[k e0] es IH]; simpl; [lia|].
  destruct (String.eqb k key); simpl; lia.
Qed.

(** After [set], the entry of the key holds the value and expires
    [ttl] after the write. *)
Lemma find_after_set c key v now :
  Cache.find_entry key (Cache.entries (Cache.set c key v now))
  = Some {| Cache.value := v;
            Cache.expiresAt := (now + Cache.ttl c)%Q |}.
Proof.
  unfold Cache.set.
  destruct (Cache.find_entry key (Cache.entries c)) eqn:E; simpl.
  - apply find_overwrite_same. congruence.
  - apply find_app_new.
    destruct (_ <=? _)%nat; [by apply find_tail_None|done].
Qed.

Lemma get_after_set_live c key v t0 t1 :
  (t1 < t0 + Cache.ttl c)%Q ->
  (Cache.get (Cache.set c key v t0) key t1).2 = Some v.
Proof.
  intros Hlive. unfold Cache.get. rewrite find_after_set.
  unfold Cache.expired. cbn [Cache.expiresAt Cache.value].
  destruct (Qle_bool _ _) eqn:E; [|reflexivity].
  apply Qle_bool_iff in E. lra.
Qed.

Lemma get_after_set_expired c key v t0 t1 :
  (t0 + Cache.ttl c <= t1)%Q ->
  (Cache.get (Cache.set c key v t0) key t1).2 = None.
Proof.
  intros Hexp. unfold Cache.get. rewrite find_after_set.
  unfold Cache.expired. cbn [Cache.expiresAt].
  apply Qle_bool_iff in Hexp. by rewrite Hexp.
Qed.

(** What a read returns is the value of a stored entry that has not
    expired. *)
Lemma get_returns_live c key now v :
  (Cache.get c key now).2 = Some v ->
  exists e, Cache.find_entry key (Cache.entries c) = Some e
            /\ Cache.value e = v /\ (now < Cache.expiresAt e)%Q.
Proof.
  unfold Cache.get.
  destruct (Cache.find_entry key (Cache.entries c)) as [e|]; [|done].
  unfold Cache.expired.
  destruct (Qle_bool (Cache.expiresAt e) now) eqn:E; [done|].
  simpl. intros [= <-]. exists e. repeat split.
  apply Qnot_le_lt. intros Hle. apply Qle_bool_iff in Hle. congruence.
Qed.

Lemma size_set c key v now :
  (0 < Cache.maxsize c)%nat ->
  (Cache.size c <= Cache.maxsize c)%nat ->
  (Cache.size (Cache.set c key v now) <= Cache.maxsize c)%nat.
Proof.
  unfold Cache.size, Cache.set. intros Hpos Hinv.
  destruct (Cache.find_entry key (Cache.entries c)); simpl.
  - by rewrite length_overwrite.
  - rewrite length_app. simpl.
    destruct (Nat.leb_spec (Cache.maxsize c) (length (Cache.entries c))).
    + unfold Cache.evict_one.
      destruct (Cache.entries c); simpl in *; lia.
    + lia.
Qed.

Lemma size_get c key now :
  (Cache.size (Cache.get c key now).1 <= Cache.size c)%nat.
Proof.
  unfold Cache.size, Cache.get.
  destruct (Cache.find_entry key (Cache.entries c)) as [e|]; [|done].
  destruct (Cache.expired now e); simpl; [apply length_remove|done].
Qed.

Lemma maxsize_set c key v now :
  Cache.maxsize (Cache.set c key v now) = Cache.maxsize c.
Proof.
  unfold Cache.set.
  by destruct (Cache.find_entry key (Cache.entries c)).
Qed.

Lemma maxsize_get c key now :
  Cache.maxsize (Cache.get c key now).1 = Cache.maxsize c.
Proof.
  unfold Cache.get.
  destruct (Cache.find_entry key (Cache.entries c)) as [e|]; [|done].
  by destruct (Cache.expired now e).
Qed.

(** A new key written at capacity: the oldest entry leaves, the new one
    is appended, and the size stays at the capacity. *)
Lemma set_new_at_capacity c key v now :
  (0 < Cache.maxsize c)%nat ->
  Cache.size c = Cache.maxsize c ->
  Cache.find_entry key (Cache.entries c) = None ->
  Cache.entries (Cache.set c key v now)
  = tail (Cache.entries c)
    ++ [(key, {| Cache.value := v;
                 Cache.expiresAt := (now + Cache.ttl c)%Q |})]
  /\ length (tail (Cache.entries c)) = (Cache.size c - 1)%nat
  /\ Cache.size (Cache.set c key v now) = Cache.maxsize c.
Proof.
  unfold Cache.size, Cache.set. intros Hpos Hfull ->.
  rewrite <- Hfull, Nat.leb_refl. cbn [Cache.entries Cache.with_entries].
  unfold Cache.evict_one. rewrite length_app.
  destruct (Cache.entries c); simpl in *; [lia|].
  repeat split; lia.
Qed.

End CacheFacts.

Lemma set_post_cached_cache (slug : string) (v : PostDetail) (now : Q)
    (w : World) :
  _post_cache (set_post_cached slug v now w).1
  = Cache.set (_post_cache w) slug v now.
Proof. reflexivity. Qed.

Lemma get_post_cached_result (slug : string) (now : Q) (w : World) :
  (get_post_cached slug now w).2
  = Ok (Cache.get (_post_cache w) slug now).2.
Proof.
  unfold get_post_cached.
  destruct (Cache.get (_post_cache w) slug now) as [c [d|]]; reflexivity.
Qed.

Lemma get_post_cached_cache (slug : string) (now : Q) (w : World) :
  _post_cache (get_post_cached slug now w).1
  = (Cache.get (_post_cache w) slug now).1.
Proof.
  unfold get_post_cached.
  destruct (Cache.get (_post_cache w) slug now) as [c [d|]]; reflexivity.
Qed.

(** C2: a post stored at time t0 is returned by a read at time t1 before
    the TTL has elapsed (t1 < t0 + ttl) and is absent for a read once it
    has (t0 + ttl <= t1); whatever a read returns is the value of a
    stored entry whose expiry time is still ahead of the clock. *)
Theorem post_cache_ttl_correct
    (w : World) (slug : string) (v : PostDetail) (t0 t1 : Q) :
  let w1 := (set_post_cached slug v t0 w).1 in
  ((t1 < t0 + Cache.ttl (_post_cache w))%Q ->
     (get_post_cached slug t1 w1).2 = Ok (Some v))
  /\ ((t0 + Cache.ttl (_post_cache w) <= t1)%Q ->
       (get_post_cached slug t1 w1).2 = Ok None)
  /\ (forall v', (get_post_cached slug t1 w).2 = Ok (Some v') ->
       exists e,
         Cache.find_entry slug (Cache.entries (_post_cache w)) = Some e
         /\ Cache.value e = v' /\ (t1 < Cache.expiresAt e)%Q).
Proof.
  intros w1. subst w1.
  rewrite !get_post_cached_result, set_post_cached_cache.
  split; [|split].
  - intros H. by rewrite get_after_set_live.
  - intros H. by rewrite get_after_set_expired.
  - intros v' [= H]. by apply get_returns_live.
Qed.

(** The calls cache.py offers, with the timer reading of each. *)
Inductive cache_call : Type :=
  | GetPostsList (now : Q)
  | SetPostsList (value : list PostSummary) (now : Q)
  | GetPost (slug : string) (now : Q)
  | SetPost (slug : string) (value : PostDetail) (now : Q)
  | GetSlugMap (now : Q)
  | SetSlugMap (value : gmap string string) (now : Q)
  | ClearAll.

Definition run_call (w : World) (c : cache_call) : World :=
  match c with
  | GetPostsList now => (get_posts_list_cached now w).1
  | SetPostsList value now => (set_posts_list_cached value now w).1
  | GetPost slug now => (get_post_cached slug now w).1
  | SetPost slug value now => (set_post_cached slug value now w).1
  | GetSlugMap now => (get_slug_map_cached now w).1
  | SetSlugMap value now => (set_slug_map_cached value now w).1
  | ClearAll => (clear_all_caches w).1
  end.

Definition run_calls (w : World) (cs : list cache_call) : World :=
  fold_left run_call cs w.

(** Every cache holds at most as many entries as its capacity, which is
    positive and does not change. *)
Definition within_capacity {V : Type} (c : Cache.TTLCache V) (n : nat)
  : Prop :=
  Cache.maxsize c = n /\ (Cache.size c <= n)%nat.

Definition caches_within_capacity (w : World) : Prop :=
  within_capacity (_posts_list_cache w) POSTS_LIST_CACHE_SIZE
  /\ within_capacity (_post_cache w) MAX_INDIVIDUAL_POST_CACHE
  /\ within_capacity (_slug_map_cache w) SLUG_MAP_CACHE_SIZE.

Lemma within_capacity_set {V : Type} (c : Cache.TTLCache V) n key v now :
  (0 < n)%nat -> within_capacity c n ->
  within_capacity (Cache.set c key v now) n.
Proof.
  intros Hpos [Hm Hs]. split; [by rewrite maxsize_set|].
  rewrite <- Hm. apply size_set; lia.
Qed.

Lemma within_capacity_get {V : Type} (c : Cache.TTLCache V) n key now :
  within_capacity c n -> within_capacity (Cache.get c key now).1 n.
Proof.
  intros [Hm Hs]. split; [by rewrite maxsize_get|].
  pose proof (size_get c key now). lia.
Qed.

Lemma within_capacity_clear {V : Type} (c : Cache.TTLCache V) n :
  within_capacity c n -> within_capacity (Cache.clear c) n.
Proof. intros [Hm Hs]. split; [done|]. unfold Cache.size. simpl. lia. Qed.

Lemma run_call_within_capacity (w : World) (c : cache_call) :
  caches_within_capacity w -> caches_within_capacity (run_call w c).
Proof.
  intros (Hl & Hp & Hs). destruct c; simpl.
  - unfold get_posts_list_cached.
    pose proof (within_capacity_get _ _ "posts_list" now Hl) as H.
    destruct (Cache.get (_posts_list_cache w) "posts_list" now)
      as [c [r|]]; simpl in H |- *; unfold caches_within_capacity;
      simpl; split_and!; assumption.
  - unfold caches_within_capacity; simpl; split_and!; try assumption.
    apply within_capacity_set; [compute; lia|assumption].
  - unfold get_post_cached.
    pose proof (within_capacity_get _ _ slug0 now Hp) as H.
    destruct (Cache.get (_post_cache w) slug0 now)
      as [c [r|]]; simpl in H |- *; unfold caches_within_capacity;
      simpl; split_and!; assumption.
  - unfold caches_within_capacity; simpl; split_and!; try assumption.
    apply within_capacity_set; [compute; lia|assumption].
  - unfold get_slug_map_cached.
    pose proof (within_capacity_get _ _ "slug_map" now Hs) as H.
    destruct (Cache.get (_slug_map_cache w) "slug_map" now)
      as [c [r|]]; simpl in H |- *; unfold caches_within_capacity;
      simpl; split_and!; assumption.
  - unfold caches_within_capacity; simpl; split_and!; try assumption.
    apply within_capacity_set; [compute; lia|assumption].
  - unfold caches_within_capacity; simpl; split_and!;
      by apply within_capacity_clear.
Qed.

Lemma initial_world_within_capacity (t : Z) :
  caches_within_capacity (initial_world t).
Proof. repeat split; simpl; unfold Cache.size; simpl; lia. Qed.

(** C3: after any sequence of calls to the cache functions (writes, and
    reads and clears as well) from the initial state, the posts-list
    cache holds at most 1 entry, the per-post cache at most 512 and the
    slug-map cache at most 1; and a write of a new key to a cache that is
    at its (positive) capacity removes exactly one entry, the oldest,
    before appending the new one. *)
Theorem cache_capacity_invariant :
  (forall (t : Z) (cs : list cache_call),
     let w := run_calls (initial_world t) cs in
     (Cache.size (_posts_list_cache w) <= 1)%nat
     /\ (Cache.size (_post_cache w) <= 512)%nat
     /\ (Cache.size (_slug_map_cache w) <= 1)%nat)
  /\ (forall (V : Type) (c : Cache.TTLCache V) (key : string) (v : V)
         (now : Q),
       (0 < Cache.maxsize c)%nat ->
       Cache.size c = Cache.maxsize c ->
       Cache.find_entry key (Cache.entries c) = None ->
       Cache.entries (Cache.set c key v now)
       = tail (Cache.entries c)
         ++ [(key, {| Cache.value := v;
                      Cache.expiresAt := (now + Cache.ttl c)%Q |})]
       /\ length (tail (Cache.entries c)) = (Cache.size c - 1)%nat
       /\ Cache.size (Cache.set c key v now) = Cache.maxsize c).
Proof.
  split.
  - intros t cs w.
    assert (H : caches_within_capacity w).
    { subst w. unfold run_calls.
      generalize (initial_world_within_capacity t).
      generalize (initial_world t) as w0.
      induction cs as [|c cs IH]; intros w0 H0; simpl; [done|].
      apply IH. by apply run_call_within_capacity. }
    destruct H as ((_ & Hl) & (_ & Hp) & (_ & Hs)). auto.
  - intros V c key v now. apply set_new_at_capacity.
Qed.

(** ** The listing *)

(** What the body of the [try] yields for a slug, the state left aside:
    the summary, or the exception that leaves the block. *)
Definition summary_outcome (slug : string) : result PostSummary :=
  match validate_slug slug with
  | Raise e => Raise e
  | Ok _ =>
      match backend_load slug with
      | Raise e => Raise e
      | Ok raw =>
          match frontmatter_loads raw with
          | Ok parsed => make_post_meta slug (fst parsed)
          | Raise YAMLError =>
              Raise (ValueError
                       ("Invalid frontmatter format in post: " +:+ slug))
          | Raise e => Raise e
          end
      end
  end.

(** The summaries of the slugs that load, in the order of the slugs. *)
Fixpoint loaded_summaries (slugs : list string) : list PostSummary :=
  match slugs with
  | [] => []
  | slug :: slugs' =>
      match summary_outcome slug with
      | Ok s => s :: loaded_summaries slugs'
      | Raise _ => loaded_summaries slugs'
      end
  end.

(** The slugs that are skipped, each with the exception caught. *)
Fixpoint skipped_slugs (slugs : list string) : list (string * exn) :=
  match slugs with
  | [] => []
  | slug :: slugs' =>
      match summary_outcome slug with
      | Ok _ => skipped_slugs slugs'
      | Raise e => (slug, e) :: skipped_slugs slugs'
      end
  end.

(** The first exception of the loop that no [except] clause catches. *)
Fixpoint first_fatal (slugs : list string) : option exn :=
  match slugs with
  | [] => None
  | slug :: slugs' =>
      match summary_outcome slug with
      | Ok _ => first_fatal slugs'
      | Raise e => if skippable e then first_fatal slugs' else Some e
      end
  end.

Definition skip_warning (se : string * exn) : log_record :=
  {| level := WARNING; fmt := "Skipping post %s due to error: %s";
     args := [AStr se.1; AExn se.2] |}.

Definition is_warning (r : log_record) : bool :=
  match level r with
  | WARNING => true
  | _ => false
  end.

Definition warnings (w : World) : list log_record :=
  List.filter is_warning (log w).

Lemma load_summary_result (slug : string) (w : World) :
  (load_summary slug w).2 = summary_outcome slug.
Proof.
  unfold load_summary, load_post_by_slug, read_from_storage,
    summary_outcome, parse_frontmatter, bindM, lift.
  destruct (validate_slug slug); simpl; [|reflexivity].
  destruct (backend_load slug); simpl; [|reflexivity].
  destruct (frontmatter_loads a0) as [parsed|[]]; reflexivity.
Qed.

(** The body of the [try] logs no warning and leaves the caches alone. *)
Lemma load_summary_state (slug : string) (w : World) :
  warnings (load_summary slug w).1 = warnings w
  /\ _posts_list_cache (load_summary slug w).1 = _posts_list_cache w
  /\ _post_cache (load_summary slug w).1 = _post_cache w
  /\ _slug_map_cache (load_summary slug w).1 = _slug_map_cache w.
Proof.
  unfold load_summary, load_post_by_slug, read_from_storage,
    parse_frontmatter, bindM, lift, warnings.
  destruct (validate_slug slug); simpl; [|done].
  destruct (backend_load slug); simpl; [|done].
  destruct (frontmatter_loads a0) as [parsed|[]]; simpl; try done.
  rewrite List.filter_app. simpl. by rewrite app_nil_r.
Qed.

(** One turn of the loop, by the outcome of the [try] body. *)
Lemma load_all_summaries_cons (slug : string) (slugs : list string)
    (acc : list PostSummary) (w : World) :
  load_all_summaries (slug :: slugs) acc w
  = match load_summary slug w with
    | (w1, Ok s) => load_all_summaries slugs (acc ++ [s]) w1
    | (w1, Raise e) =>
        if skippable e
        then load_all_summaries slugs acc
               (logger WARNING "Skipping post %s due to error: %s"
                  [AStr slug; AExn e] w1).1
        else (w1, Raise e)
    end.
Proof.
  cbn [load_all_summaries]. unfold bindM at 1. unfold try_except.
  unfold bindM at 1.
  destruct (load_summary slug w) as [w1 [s|e]]; [reflexivity|].
  destruct (skippable e); reflexivity.
Qed.

Lemma load_all_summaries_spec (slugs : list string) :
  forall (acc : list PostSummary) (w : World),
    (load_all_summaries slugs acc w).2
    = match first_fatal slugs with
      | Some e => Raise e
      | None => Ok (acc ++ loaded_summaries slugs)
      end
    /\ (first_fatal slugs = None ->
         warnings (load_all_summaries slugs acc w).1
         = warnings w ++ map skip_warning (skipped_slugs slugs))
    /\ _posts_list_cache (load_all_summaries slugs acc w).1
       = _posts_list_cache w.
Proof.
  induction slugs as [|slug slugs IH]; intros acc w.
  - simpl. rewrite !app_nil_r. done.
  - rewrite load_all_summaries_cons.
    pose proof (load_summary_result slug w) as Hr.
    pose proof (load_summary_state slug w) as (Hw & Hc & _).
    destruct (load_summary slug w) as [w1 [s|e]]; simpl in Hr, Hw, Hc;
      cbn [first_fatal loaded_summaries skipped_slugs]; rewrite <- Hr.
    + destruct (IH (acc ++ [s]) w1) as (IH1 & IH2 & IH3).
      rewrite IH1, IH3, Hc, <- Hw, <- app_assoc. simpl.
      split_and!; auto.
    + destruct (skippable e) eqn:Hs.
      * set (w2 := (logger WARNING _ _ w1).1).
        destruct (IH acc w2) as (IH1 & IH2 & IH3).
        rewrite IH1, IH3. split_and!; [done| |by rewrite <- Hc].
        intros Hnone. rewrite (IH2 Hnone). subst w2.
        unfold warnings in *. simpl. rewrite List.filter_app, Hw.
        simpl. by rewrite <- app_assoc.
      * simpl. split_and!; [done|discriminate|done].
Qed.

(** *** Sorting by date *)

(** [a] may stand before [b] in the listing: the date of [b] is not
    greater than the date of [a], as strings. *)
Definition date_ge (a b : PostSummary) : Prop :=
  String.leb (date b) (date a) = true.

Lemma str_lt_leb (x y : string) : str_lt x y = true -> String.leb x y = true.
Proof.
  unfold str_lt, String.leb. by destruct (String.compare x y).
Qed.

Lemma not_str_lt_leb (x y : string) :
  str_lt x y = false -> String.leb y x = true.
Proof.
  unfold str_lt, String.leb. rewrite (String.compare_antisym y x).
  by destruct (String.compare x y).
Qed.


Lemma insert_by_date_HdRel (s y : PostSummary) (l : list PostSummary) :
  date_ge y s -> HdRel date_ge y l -> HdRel date_ge y (insert_by_date s l).
Proof.
  intros Hys Hhd. destruct l as [|z l]; simpl; [by constructor|].
  inversion_clear Hhd. destruct (str_lt (date s) (date z)); by constructor.
Qed.

Lemma insert_by_date_Sorted (s : PostSummary) (l : list PostSummary) :
  Sorted date_ge l -> Sorted date_ge (insert_by_date s l).
Proof.
  induction l as [|y l IH]; intros Hs; simpl.
  - repeat constructor.
  - inversion_clear Hs as [|? ? Hl Hhd].
    destruct (str_lt (date s) (date y)) eqn:E.
    + constructor; [auto|].
      apply insert_by_date_HdRel; [|done]. by apply str_lt_leb.
    + repeat constructor; try done. by apply not_str_lt_leb.
Qed.

Lemma sort_by_date_desc_Sorted (l : list PostSummary) :
  Sorted date_ge (sort_by_date_desc l).
Proof.
  induction l as [|s l IH]; simpl; [constructor|].
  by apply insert_by_date_Sorted.
Qed.

Lemma insert_by_date_Permutation (s : PostSummary) (l : list PostSummary) :
  Permutation (s :: l) (insert_by_date s l).
Proof.
  induction l as [|y l IH]; simpl; [done|].
  destruct (str_lt (date s) (date y)); [|done].
  rewrite <- IH. apply perm_swap.
Qed.

Lemma sort_by_date_desc_Permutation (l : list PostSummary) :
  Permutation l (sort_by_date_desc l).
Proof.
  induction l as [|s l IH]; simpl; [done|].
  rewrite <- insert_by_date_Permutation. by constructor.
Qed.

(** Sortedness read on the positions of the list. *)
Lemma Sorted_adjacent (l : list PostSummary) :
  Sorted date_ge l ->
  forall (i : nat) (a b : PostSummary),
    l !! i = Some a -> l !! S i = Some b -> date_ge a b.
Proof.
  induction 1 as [|x l Hs IH Hhd]; intros i a b Ha Hb; [done|].
  destruct i as [|i]; simpl in Ha, Hb.
  - injection Ha as <-. destruct l as [|y l]; [done|].
    injection Hb as <-. by inversion_clear Hhd.
  - eauto.
Qed.


(** *** Slicing *)

Lemma py_slice_page {A : Type} (l : list A) (offset limit : Z) :
  0 <= offset -> 0 <= limit ->
  py_slice l offset (offset + limit)
  = firstn (Z.to_nat limit) (skipn (Z.to_nat offset) l).
Proof.
  intros Ho Hl. unfold py_slice, slice_index.
  destruct (Z.ltb_spec offset 0); [lia|].
  destruct (Z.ltb_spec (offset + limit) 0); [lia|].
  destruct (Z.le_gt_cases offset (Z.of_nat (length l))) as [Hin|Hout].
  - rewrite (Z.min_l offset) by lia.
    destruct (Z.le_gt_cases (offset + limit) (Z.of_nat (length l))).
    + rewrite Z.min_l by lia. f_equal. lia.
    + rewrite Z.min_r by lia.
      rewrite !take_ge; [done| |]; rewrite length_drop; lia.
  - rewrite !Z.min_r by lia. rewrite Z.sub_diag. simpl.
    rewrite !drop_ge by lia. by destruct (Z.to_nat limit).
Qed.

(** *** The listing handler *)

(** The response for the full listing [all_summaries]: what [list_posts]
    does from "Apply pagination" on. *)
Definition page_response (all_summaries : list PostSummary)
    (limit offset : Z) : JSONResponse :=
  let total := Z.of_nat (length all_summaries) in
  add_cache_headers
    {| json_status := 200; json_headers := ∅;
       json_body :=
         ListContent
           {| posts := py_slice all_summaries offset (offset + limit);
              total := total; limit := limit; offset := offset |} |}
    (Some (generate_etag
             (py_str_int total +:+ "-" +:+ py_str_int offset +:+ "-"
              +:+ py_str_int limit))).

(** The full listing a call of [list_posts] pages: the cached one, or on
    a miss the sorted summaries of the posts that load; or the exception
    that ends the call. *)
Definition full_listing (now : Q) (w : World)
  : result (list PostSummary) :=
  match (Cache.get (_posts_list_cache w) "posts_list" now).2 with
  | Some all_summaries => Ok all_summaries
  | None =>
      match backend_list_slugs with
      | Raise e => Raise e
      | Ok slugs =>
          match first_fatal slugs with
          | Some e => Raise e
          | None => Ok (sort_by_date_desc (loaded_summaries slugs))
          end
      end
  end.

Lemma list_posts_result (limit offset : Z) (now now' : Q) (w : World) :
  (list_posts limit offset now now' w).2
  = match full_listing now w with
    | Ok all_summaries => Ok (page_response all_summaries limit offset)
    | Raise e => Raise e
    end.
Proof.
  unfold list_posts, full_listing. unfold bindM at 1.
  unfold get_posts_list_cached.
  destruct (Cache.get (_posts_list_cache w) "posts_list" now)
    as [c [all_summaries|]]; [reflexivity|].
  cbn [snd]. unfold list_post_slugs, lift.
  destruct backend_list_slugs as [slugs|e]; [|reflexivity].
  do 3 unfold bindM at 1. cbn [logger]. unfold bindM at 1.
  match goal with |- context [load_all_summaries slugs [] ?W] =>
    destruct (load_all_summaries_spec slugs [] W) as (Hr & _ & _);
    destruct (load_all_summaries slugs [] W) as [w2 r]
  end.
  cbn [snd] in Hr. subst r.
  destruct (first_fatal slugs); reflexivity.
Qed.

Lemma ttl_get {V : Type} (c : Cache.TTLCache V) (key : string) (now : Q) :
  Cache.ttl (Cache.get c key now).1 = Cache.ttl c.
Proof.
  unfold Cache.get.
  destruct (Cache.find_entry key (Cache.entries c)) as [e|]; [|done].
  by destruct (Cache.expired now e).
Qed.

(** On a miss that ends well, the warnings logged are those of the
    skipped slugs, and the sorted listing is stored in the cache. *)
Lemma list_posts_miss_state (limit offset : Z) (now now' : Q) (w : World)
    (slugs : list string) :
  (Cache.get (_posts_list_cache w) "posts_list" now).2 = None ->
  backend_list_slugs = Ok slugs ->
  first_fatal slugs = None ->
  let w' := (list_posts limit offset now now' w).1 in
  warnings w' = warnings w ++ map skip_warning (skipped_slugs slugs)
  /\ Cache.find_entry "posts_list" (Cache.entries (_posts_list_cache w'))
     = Some {| Cache.value := sort_by_date_desc (loaded_summaries slugs);
               Cache.expiresAt :=
                 (now' + Cache.ttl (_posts_list_cache w))%Q |}.
Proof.
  intros Hmiss Hslugs Hfatal w'.
  assert (E : exists w2,
    w' = (set_posts_list_cached
            (sort_by_date_desc (loaded_summaries slugs)) now' w2).1
    /\ warnings w2 = warnings w ++ map skip_warning (skipped_slugs slugs)
    /\ Cache.ttl (_posts_list_cache w2)
       = Cache.ttl (_posts_list_cache w)).
  { subst w'.
    unfold list_posts. unfold bindM at 1. unfold get_posts_list_cached.
    pose proof (ttl_get (_posts_list_cache w) "posts_list" now) as Httl.
    destruct (Cache.get (_posts_list_cache w) "posts_list" now)
      as [c [all_summaries|]]; [discriminate|].
    cbn [fst] in Httl. unfold list_post_slugs, lift. rewrite Hslugs.
    do 3 unfold bindM at 1. cbn [logger]. unfold bindM at 1.
    match goal with |- context [load_all_summaries slugs [] ?W] =>
      destruct (load_all_summaries_spec slugs [] W) as (Hr & Hw & Hc);
      destruct (load_all_summaries slugs [] W) as [w2 r]
    end.
    cbn [fst snd] in Hr, Hw, Hc. rewrite Hfatal in Hr. subst r.
    specialize (Hw Hfatal). exists w2. split; [reflexivity|]. split.
    - unfold warnings in *. cbn in Hw.
      rewrite List.filter_app in Hw. cbn in Hw.
      by rewrite app_nil_r in Hw.
    - rewrite Hc. cbn. exact Httl. }
  destruct E as (w2 & -> & Hw & Httl). split.
  - unfold warnings in *. cbn. rewrite List.filter_app. cbn.
    by rewrite app_nil_r.
  - cbn. rewrite <- Httl. apply find_after_set.
Qed.

Lemma first_fatal_None (slugs : list string) :
  (forall slug e w0, In slug slugs ->
     (load_summary slug w0).2 = Raise e -> skippable e = true) ->
  first_fatal slugs = None.
Proof.
  induction slugs as [|slug slugs IH]; intros H; simpl; [done|].
  pose proof (H slug) as Hs.
  setoid_rewrite load_summary_result in Hs.
  destruct (summary_outcome slug) as [s|e] eqn:E.
  - apply IH. intros ? ? ? Hin. apply H. by right.
  - rewrite (Hs e (initial_world 0)); [|by left|done].
    apply IH. intros ? ? ? Hin. apply H. by right.
Qed.

Lemma loaded_summaries_In (slugs : list string) (s : PostSummary) :
  In s (loaded_summaries slugs)
  <-> exists slug, In slug slugs
                   /\ forall w0, (load_summary slug w0).2 = Ok s.
Proof.
  setoid_rewrite load_summary_result.
  induction slugs as [|slug slugs IH]; simpl.
  - split; [done|]. by intros (? & [] & _).
  - destruct (summary_outcome slug) as [s0|e] eqn:E; simpl; rewrite IH.
    + split.
      * intros [<-|(x & Hin & Hx)]; [exists slug|exists x]; auto.
      * intros (x & [<-|Hin] & Hx).
        -- left. specialize (Hx (initial_world 0)). congruence.
        -- right. eauto.
    + split.
      * intros (x & Hin & Hx). exists x. auto.
      * intros (x & [<-|Hin] & Hx); [|eauto].
        specialize (Hx (initial_world 0)). congruence.
Qed.

Lemma skipped_slugs_In (slugs : list string) (slug : string) (e : exn) :
  In (slug, e) (skipped_slugs slugs)
  <-> In slug slugs /\ forall w0, (load_summary slug w0).2 = Raise e.
Proof.
  setoid_rewrite load_summary_result.
  induction slugs as [|x slugs IH]; simpl; [tauto|].
  destruct (summary_outcome x) as [s0|e0] eqn:E; simpl; rewrite IH.
  - split.
    + intros [Hin Hx]. auto.
    + intros [[->|Hin] Hx]; [|auto].
      specialize (Hx (initial_world 0)). congruence.
  - split.
    + intros [[= -> ->]|[Hin Hx]]; auto.
    + intros [[->|Hin] Hx]; [|auto].
      left. specialize (Hx (initial_world 0)). congruence.
Qed.

Lemma full_listing_cases (now : Q) (w : World)
    (all_summaries : list PostSummary) :
  full_listing now w = Ok all_summaries ->
  (Cache.get (_posts_list_cache w) "posts_list" now).2 = Some all_summaries
  \/ ((Cache.get (_posts_list_cache w) "posts_list" now).2 = None
      /\ exists slugs, backend_list_slugs = Ok slugs
           /\ first_fatal slugs = None
           /\ all_summaries = sort_by_date_desc (loaded_summaries slugs)).
Proof.
  unfold full_listing.
  destruct (Cache.get (_posts_list_cache w) "posts_list" now).2;
    [intros [= ->]; by left|].
  destruct backend_list_slugs as [slugs|]; [|done].
  destruct (first_fatal slugs) eqn:E; [done|].
  intros [= <-]. right. eauto.
Qed.

Lemma list_posts_Ok (limit offset : Z) (now now' : Q) (w : World)
    (response : JSONResponse) :
  (list_posts limit offset now now' w).2 = Ok response ->
  exists all_summaries,
    full_listing now w = Ok all_summaries
    /\ response = page_response all_summaries limit offset.
Proof.
  rewrite list_posts_result.
  destruct (full_listing now w) as [all_summaries|]; [|done].
  intros [= <-]. eauto.
Qed.

(** C5: when a call of the listing misses the cache and answers, the
    full listing it has built (the value it stores in the cache and pages
    for the response) holds the summaries of the posts that loaded,
    arranged so that of any two adjacent summaries the date string of the
    later one is at most the date string of the earlier one in the
    lexical order of strings. *)
Theorem listing_sorted_by_date_desc
    (limit offset : Z) (now now' : Q) (w : World)
    (response : JSONResponse) :
  (Cache.get (_posts_list_cache w) "posts_list" now).2 = None ->
  (list_posts limit offset now now' w).2 = Ok response ->
  exists (slugs : list string) (all_summaries : list PostSummary),
    backend_list_slugs = Ok slugs
    /\ Permutation (loaded_summaries slugs) all_summaries
    /\ (forall (i : nat) (a b : PostSummary),
          all_summaries !! i = Some a -> all_summaries !! S i = Some b ->
          String.leb (date b) (date a) = true)
    /\ response = page_response all_summaries limit offset
    /\ Cache.find_entry "posts_list"
         (Cache.entries
            (_posts_list_cache (list_posts limit offset now now' w).1))
       = Some {| Cache.value := all_summaries;
                 Cache.expiresAt :=
                   (now' + Cache.ttl (_posts_list_cache w))%Q |}.
Proof.
  intros Hmiss Hok.
  destruct (list_posts_Ok _ _ _ _ _ _ Hok) as (all_summaries & Hall & ->).
  destruct (full_listing_cases _ _ _ Hall)
    as [Hhit|(_ & slugs & Hslugs & Hfatal & ->)]; [congruence|].
  exists slugs, (sort_by_date_desc (loaded_summaries slugs)).
  split_and!; [done|apply sort_by_date_desc_Permutation| |done|].
  - apply Sorted_adjacent, sort_by_date_desc_Sorted.
  - by apply list_posts_miss_state.
Qed.

(** The slice of the specification: the elements at the positions
    [offset] to [offset + limit - 1]. *)
Definition slice {A : Type} (l : list A) (a b : nat) : list A :=
  firstn (b - a) (skipn a l).

(** C6: for a valid pagination pair (limit in [1,100], offset >= 0), a
    listing call that answers returns as its page
    slice(allSummaries, offset, offset + limit), where allSummaries is
    the cached listing or, on a miss, the sorted summaries of the posts
    that loaded; the page has at most limit summaries, the total is the
    number of summaries before slicing, and an offset of at least the
    total gives the empty page. *)
Theorem list_posts_pagination
    (limit offset : Z) (now now' : Q) (w : World)
    (response : JSONResponse) :
  1 <= limit <= 100 ->
  0 <= offset ->
  (list_posts limit offset now now' w).2 = Ok response ->
  exists (all_summaries : list PostSummary) (r : PostListResponse),
    ((Cache.get (_posts_list_cache w) "posts_list" now).2
       = Some all_summaries
     \/ ((Cache.get (_posts_list_cache w) "posts_list" now).2 = None
         /\ exists slugs, backend_list_slugs = Ok slugs
              /\ all_summaries
                 = sort_by_date_desc (loaded_summaries slugs)))
    /\ json_body response = ListContent r
    /\ posts r
       = slice all_summaries (Z.to_nat offset) (Z.to_nat (offset + limit))
    /\ (length (posts r) <= Z.to_nat limit)%nat
    /\ total r = Z.of_nat (length all_summaries)
    /\ (total r <= offset -> posts r = []).
Proof.
  intros Hlimit Hoffset Hok.
  destruct (list_posts_Ok _ _ _ _ _ _ Hok) as (all_summaries & Hall & ->).
  exists all_summaries. eexists. split.
  { destruct (full_listing_cases _ _ _ Hall)
      as [Hhit|(Hmiss & slugs & Hslugs & _ & ->)]; [by left|right; eauto]. }
  split; [reflexivity|]. cbn [posts total].
  rewrite py_slice_page by lia. unfold slice.
  replace (Z.to_nat (offset + limit) - Z.to_nat offset)%nat
    with (Z.to_nat limit) by lia.
  split_and!; [done| |done|].
  - rewrite length_take. lia.
  - intros Htotal. rewrite drop_ge by lia. by destruct (Z.to_nat limit).
Qed.

Lemma first_fatal_Some (slugs : list string) (e : exn) :
  first_fatal slugs = Some e ->
  skippable e = false
  /\ exists slug, In slug slugs
                  /\ forall w0, (load_summary slug w0).2 = Raise e.
Proof.
  setoid_rewrite load_summary_result.
  induction slugs as [|x slugs IH]; simpl; [done|].
  destruct (summary_outcome x) as [s|e0] eqn:E.
  - intros H. destruct (IH H) as (Hs & y & Hin & Hy). eauto.
  - destruct (skippable e0) eqn:Hs0.
    + intros H. destruct (IH H) as (Hs & y & Hin & Hy). eauto.
    + intros [= <-]. eauto.
Qed.

(** The warnings of the listing loop among the records of the log. *)
Definition is_skip_warning (r : log_record) : bool :=
  is_warning r && String.eqb (fmt r) "Skipping post %s due to error: %s".

Definition skip_warnings (w : World) : list log_record :=
  List.filter is_skip_warning (log w).

Lemma filter_andb {A : Type} (f g : A -> bool) (l : list A) :
  List.filter (fun x => f x && g x) l = List.filter g (List.filter f l).
Proof.
  induction l as [|x l IH]; simpl; [done|].
  destruct (f x); simpl; [destruct (g x)|]; by rewrite IH.
Qed.

Lemma skip_warnings_of_warnings (w w' : World) (l : list (string * exn)) :
  warnings w' = warnings w ++ map skip_warning l ->
  skip_warnings w' = skip_warnings w ++ map skip_warning l.
Proof.
  unfold skip_warnings, is_skip_warning, warnings. intros H.
  rewrite !filter_andb, H, List.filter_app. f_equal. clear H.
  induction l as [|x l IH]; simpl; [done|]. by rewrite IH.
Qed.

(** A slug whose exception the loop does not catch ends the loop. *)
Lemma first_fatal_In (slugs : list string) (slug : string) (e : exn) :
  In slug slugs ->
  summary_outcome slug = Raise e ->
  skippable e = false ->
  exists e', first_fatal slugs = Some e' /\ skippable e' = false.
Proof.
  intros Hin Hout Hskip.
  induction slugs as [|x slugs IH]; simpl; [done|].
  destruct (summary_outcome x) as [s|e0] eqn:E.
  - destruct Hin as [->|Hin]; [congruence|]. by apply IH.
  - destruct (skippable e0) eqn:Hs0; [|by exists e0].
    destruct Hin as [->|Hin]; [congruence|]. by apply IH.
Qed.

(** [list(meta_dict.get("tags", []) or [])] raises [TypeError] on a value
    that cannot be iterated: the summary of the post is not built, and no
    clause of the loop catches the exception. *)
Lemma tags_type_error_outcome (slug raw body : string)
    (meta_dict : gmap string MetaValue) (v : MetaValue) :
  validate_slug slug = Ok slug ->
  backend_load slug = Ok raw ->
  frontmatter_loads raw = Ok (meta_dict, body) ->
  meta_dict !! "tags" = Some v ->
  py_list_or_empty v = None ->
  summary_outcome slug = Raise OtherError
  /\ skippable OtherError = false.
Proof.
  intros Hvalid Hload Hparse Htags Hlist. split; [|done].
  unfold summary_outcome. rewrite Hvalid, Hload, Hparse. cbn [fst].
  unfold make_post_meta. by rewrite Htags, Hlist.
Qed.

(** One post whose exception is of another class than [ValueError] and
    [FileNotFoundError] fails the whole listing, and nothing is cached. *)
Lemma unskippable_post_fails_listing
    (limit offset : Z) (now now' : Q) (w : World) (slugs : list string)
    (slug : string) (e : exn) :
  (Cache.get (_posts_list_cache w) "posts_list" now).2 = None ->
  backend_list_slugs = Ok slugs ->
  In slug slugs ->
  summary_outcome slug = Raise e ->
  skippable e = false ->
  exists e', (list_posts limit offset now now' w).2 = Raise e'
             /\ skippable e' = false.
Proof.
  intros Hmiss Hslugs Hin Hout Hskip.
  destruct (first_fatal_In slugs slug e Hin Hout Hskip) as (e' & Hf & He').
  exists e'. split; [|done].
  rewrite list_posts_result. unfold full_listing.
  by rewrite Hmiss, Hslugs, Hf.
Qed.

(** X30: on a cache miss, when every slug of the enumeration either loads
    or fails with a [ValueError] or a [FileNotFoundError], the listing
    answers: its response pages the sorted summaries of exactly the slugs
    that load, and the loop logs one warning "Skipping post" for each slug
    that fails, in the order of the enumeration. The listing itself only
    fails with an exception of another class raised for one of the
    slugs. *)
Theorem listing_skips_failing_posts
    (limit offset : Z) (now now' : Q) (w : World) (slugs : list string) :
  (Cache.get (_posts_list_cache w) "posts_list" now).2 = None ->
  backend_list_slugs = Ok slugs ->
  ((forall slug e w0, In slug slugs ->
      (load_summary slug w0).2 = Raise e -> skippable e = true) ->
   (list_posts limit offset now now' w).2
   = Ok (page_response (sort_by_date_desc (loaded_summaries slugs))
           limit offset)
   /\ skip_warnings (list_posts limit offset now now' w).1
      = skip_warnings w ++ map skip_warning (skipped_slugs slugs))
  /\ Permutation (loaded_summaries slugs)
       (sort_by_date_desc (loaded_summaries slugs))
  /\ (forall s, In s (loaded_summaries slugs)
       <-> exists slug, In slug slugs
                        /\ forall w0, (load_summary slug w0).2 = Ok s)
  /\ (forall slug e, In (slug, e) (skipped_slugs slugs)
       <-> In slug slugs
           /\ forall w0, (load_summary slug w0).2 = Raise e)
  /\ (forall e, (list_posts limit offset now now' w).2 = Raise e ->
       skippable e = false
       /\ exists slug, In slug slugs
                       /\ forall w0, (load_summary slug w0).2 = Raise e).
Proof.
  intros Hmiss Hslugs. split_and!.
  - intros Hskip.
    pose proof (first_fatal_None slugs Hskip) as Hfatal. split.
    + rewrite list_posts_result. unfold full_listing.
      by rewrite Hmiss, Hslugs, Hfatal.
    + apply skip_warnings_of_warnings. by apply list_posts_miss_state.
  - apply sort_by_date_desc_Permutation.
  - apply loaded_summaries_In.
  - apply skipped_slugs_In.
  - intros e. rewrite list_posts_result. unfold full_listing.
    rewrite Hmiss, Hslugs.
    destruct (first_fatal slugs) as [e'|] eqn:Hfatal; [|done].
    intros [= <-]. by apply first_fatal_Some.
Qed.

Lemma generate_etag_truthy (content : string) :
  str_truthy (generate_etag content) = true.
Proof. reflexivity. Qed.

(** The ETag of a listing response is the quoted digest of
    "{total}-{offset}-{limit}". *)
Lemma list_posts_etag (limit offset : Z) (now now' : Q) (w : World)
    (response : JSONResponse) :
  (list_posts limit offset now now' w).2 = Ok response ->
  exists r,
    json_body response = ListContent r
    /\ json_headers response !! "ETag"
       = Some (dquote +:+ md5_hexdigest
                 (py_str_int (total r) +:+ "-" +:+ py_str_int offset
                  +:+ "-" +:+ py_str_int limit) +:+ dquote).
Proof.
  intros Hok.
  destruct (list_posts_Ok _ _ _ _ _ _ Hok) as (all_summaries & _ & ->).
  eexists. split; [reflexivity|].
  unfold page_response, add_cache_headers.
  cbn [json_headers total]. rewrite generate_etag_truthy.
  by rewrite lookup_insert_eq.
Qed.

(** ** Defaults for a missing title and a missing date *)


(** A slug that passes validation is returned as it is. *)
Lemma validate_slug_Ok (s s' : string) : validate_slug s = Ok s' -> s' = s.
Proof.
  unfold validate_slug.
  repeat match goal with
         | |- context [if ?c then _ else _] => destruct c; try done
         end.
  congruence.
Qed.







(** ** Slug validation *)

(** Every character of the string is of the class [[a-zA-Z0-9_-]]. *)
Fixpoint all_slug_chars (s : string) : bool :=
  match s with
  | EmptyString => true
  | String c s' => is_slug_char c && all_slug_chars s'
  end.

Definition newline_string : string := String newline EmptyString.

Lemma slug_run_then_end_spec (s : string) :
  slug_run_then_end s = true
  <-> all_slug_chars s = true
      \/ exists p, s = p +:+ newline_string /\ all_slug_chars p = true.
Proof.
  induction s as [|c s IH]; simpl.
  - split; [by left|done].
  - destruct (is_slug_char c) eqn:Hc; simpl.
    + rewrite IH. split.
      * intros [H|(p & -> & Hp)]; [by left|right].
        exists (String c p). simpl. by rewrite Hc.
      * intros [H|(p & Hs & Hp)]; [by left|right].
        destruct p as [|c' p]; simpl in Hs, Hp.
        -- injection Hs as -> ->. done.
        -- injection Hs as -> ->.
           apply andb_true_iff in Hp as [_ Hp]. eauto.
    + split.
      * intros H. apply andb_true_iff in H as [H1 H2].
        apply Ascii.eqb_eq in H1 as ->. apply String.eqb_eq in H2 as ->.
        right. by exists EmptyString.
      * intros [H|(p & Hs & Hp)]; [done|].
        destruct p as [|c' p]; simpl in Hs, Hp.
        -- injection Hs as -> ->. done.
        -- injection Hs as -> ->. by rewrite Hc in Hp.
Qed.

(** What the pattern accepts: a non-empty run of characters of the class,
    possibly followed by one newline. *)
Lemma SLUG_PATTERN_match_spec (s : string) :
  SLUG_PATTERN_match s = true
  <-> s <> EmptyString
      /\ (all_slug_chars s = true
          \/ exists p, s = p +:+ newline_string /\ p <> EmptyString
                       /\ all_slug_chars p = true).
Proof.
  destruct s as [|c s]; simpl; [by split; [|intros []]|].
  rewrite andb_true_iff, slug_run_then_end_spec. split.
  - intros [Hc [H|(p & -> & Hp)]]; (split; [done|]).
    + left. by rewrite Hc.
    + right. exists (String c p). simpl. by rewrite Hc.
  - intros [_ [H|(p & Hs & Hne & Hp)]].
    + apply andb_true_iff in H as [H1 H2]. auto.
    + destruct p as [|c' p]; [done|]. simpl in Hs, Hp.
      injection Hs as -> ->. apply andb_true_iff in Hp as [H1 H2]. eauto.
Qed.

(** What [validate_slug] accepts, exactly. *)
Lemma validate_slug_accepts (s : string) :
  validate_slug s = Ok s
  <-> s <> EmptyString
      /\ (String.length s <= 200)%nat
      /\ (all_slug_chars s = true
          \/ exists p, s = p +:+ newline_string /\ p <> EmptyString
                       /\ all_slug_chars p = true).
Proof.
  unfold validate_slug, MAX_SLUG_LENGTH.
  destruct s as [|c s]; [by split; [|intros []]|]. cbn [str_truthy negb].
  destruct (Nat.ltb_spec 200 (String.length (String c s))) as [Hlen|Hlen].
  - split; [done|]. intros (_ & ? & _). lia.
  - destruct (SLUG_PATTERN_match (String c s)) eqn:E; cbn [negb].
    + apply SLUG_PATTERN_match_spec in E as [_ E]. by split.
    + split; [done|]. intros (Hne & _ & Hcl).
      assert (SLUG_PATTERN_match (String c s) = true); [|congruence].
      by apply SLUG_PATTERN_match_spec.
Qed.

(** Whatever [validate_slug] raises is a [ValueError]. *)
Lemma validate_slug_raises (s : string) (e : exn) :
  validate_slug s = Raise e -> exists msg, e = ValueError msg.
Proof.
  unfold validate_slug.
  repeat match goal with
         | |- context [if ?c then _ else _] => destruct c
         end; intros [= <-]; eauto.
Qed.

(** A character outside the class that is not a final newline has the
    slug rejected; so are [/], a space and a dot. *)
Lemma all_slug_chars_In (s : string) :
  all_slug_chars s = true ->
  forall c, In c (list_ascii_of_string s) -> is_slug_char c = true.
Proof.
  induction s as [|c0 s IH]; simpl; [done|].
  intros H c [<-|Hin]; apply andb_true_iff in H as [H1 H2]; auto.
Qed.

Lemma validate_slug_rejects_char (s : string) (c : ascii) :
  In c (list_ascii_of_string s) ->
  is_slug_char c = false ->
  c <> newline ->
  exists msg, validate_slug s = Raise (ValueError msg).
Proof.
  intros Hin Hc Hnl.
  destruct (validate_slug s) as [s'|e] eqn:E.
  - pose proof (validate_slug_Ok _ _ E) as ->.
    apply validate_slug_accepts in E as (_ & _ & [H|(p & -> & _ & Hp)]).
    + rewrite (all_slug_chars_In _ H c Hin) in Hc. done.
    + exfalso. clear -Hin Hc Hnl Hp.
      induction p as [|c' p IH]; simpl in Hin, Hp.
      * destruct Hin as [<-|[]]. done.
      * apply andb_true_iff in Hp as [H1 H2].
        destruct Hin as [<-|Hin]; [congruence|auto].
  - destruct (validate_slug_raises _ _ E) as [msg ->]. eauto.
Qed.

(** A rejected slug ends [load_post_by_slug] before the storage is
    asked: the state is left as it was. *)
Lemma load_post_by_slug_rejects_first (slug : string) (e : exn)
    (w : World) :
  validate_slug slug = Raise e ->
  load_post_by_slug slug w = (w, Raise e).
Proof.
  intros H. unfold load_post_by_slug, bindM, lift. by rewrite H.
Qed.

(** C7: the slug "abc" followed by a newline is not empty, has four
    characters and holds a character outside [A-Za-z0-9_-], and yet
    [validate_slug] returns it instead of raising, so that
    [load_post_by_slug] goes on to ask the storage for it. *)
Theorem validate_slug_accepts_trailing_newline :
  let s := "abc" +:+ newline_string in
  validate_slug s = Ok s
  /\ String.length s = 4%nat
  /\ all_slug_chars s = false
  /\ In newline (list_ascii_of_string s)
  /\ is_slug_char newline = false
  /\ forall w, storage_reads (load_post_by_slug s w).1
               = storage_reads w ++ [s].
Proof.
  cbv zeta. split_and!; try reflexivity.
  - simpl. auto.
Qed.

End Backend.

(** ** The ETag of a listing *)

(** C10: the ETag of a listing response is the quoted MD5 hex digest of
    "{total}-{offset}-{limit}"; two listing responses with the same total,
    offset and limit therefore carry the same ETag, whatever the storage,
    the front matter and the caches behind each of them hold. *)
Theorem listing_etag_function_of_counts
    (env1 env2 : Collaborators) (limit offset : Z)
    (now1 now1' now2 now2' : Q) (w1 w2 : World)
    (response1 response2 : JSONResponse) (r1 r2 : PostListResponse) :
  External.md5_hexdigest env1 = External.md5_hexdigest env2 ->
  (list_posts env1 limit offset now1 now1' w1).2 = Ok response1 ->
  (list_posts env2 limit offset now2 now2' w2).2 = Ok response2 ->
  json_body response1 = ListContent r1 ->
  json_body response2 = ListContent r2 ->
  total r1 = total r2 ->
  json_headers response1 !! "ETag"
  = Some (dquote +:+ External.md5_hexdigest env1
            (py_str_int (total r1) +:+ "-" +:+ py_str_int offset
             +:+ "-" +:+ py_str_int limit) +:+ dquote)
  /\ json_headers response1 !! "ETag" = json_headers response2 !! "ETag".
Proof.
  intros Hmd5 H1 H2 Hb1 Hb2 Htotal.
  destruct (list_posts_etag _ _ _ _ _ _ _ H1) as (r1' & Hb1' & He1).
  destruct (list_posts_etag _ _ _ _ _ _ _ H2) as (r2' & Hb2' & He2).
  assert (r1' = r1) as -> by congruence.
  assert (r2' = r2) as -> by congruence.
  split; [exact He1|].
  rewrite He1, He2, Hmd5, Htotal. reflexivity.
Qed.

(** * Examples *)

(** A storage with three good posts, one with broken front matter and one
    that is listed but cannot be found; the front matter holds strings
    only. *)
Module Sample.

Definition load (slug : string) : result string :=
  if String.eqb slug "post-one" then Ok "raw one"
  else if String.eqb slug "post-two" then Ok "raw two"
  else if String.eqb slug "no-date" then Ok "raw three"
  else if String.eqb slug "broken" then Ok "raw broken"
  else Raise FileNotFoundError.

Definition parse (raw : string) : result (gmap string string * string) :=
  if String.eqb raw "raw one" then
    Ok (<["title" := "First"]> (<["date" := "2024-01-15"]> ∅), "Body one")
  else if String.eqb raw "raw two" then
    Ok (<["date" := "2024-01-10"]> ∅, "Body two")
  else if String.eqb raw "raw three" then
    Ok (<["title" := "Undated"]> ∅, "Body three")
  else Raise YAMLError.

(** [list(s or [])] on a string: its characters. *)
Fixpoint chars (s : string) : list string :=
  match s with
  | EmptyString => []
  | String c s' => String c EmptyString :: chars s'
  end.

Definition env : Collaborators :=
  {| External.backend_list_slugs :=
       Ok ["post-two"; "broken"; "no-date"; "post-one"; "ghost"];
     External.backend_load := load;
     External.MetaValue := string;
     External.py_str := fun s => s;
     External.py_list_or_empty := fun s => Some (chars s);
     External.as_optional_str := fun s => Some (Some s);
     External.as_str_list := fun l => Some l;
     External.frontmatter_loads := parse;
     External.md5_hexdigest := fun s => "digest of " +:+ s;
     External.cache_ttl_seconds := 300 |}.

(** The same slugs over other contents. *)
Definition parse' (raw : string) : result (gmap string string * string) :=
  if String.eqb raw "raw one" then
    Ok (<["title" := "Rewritten"]> (<["date" := "2025-06-01"]> ∅), "Other")
  else parse raw.

Definition env' : Collaborators :=
  {| External.backend_list_slugs := Ok ["post-one"; "post-two"; "no-date"];
     External.backend_load := load;
     External.MetaValue := string;
     External.py_str := fun s => s;
     External.py_list_or_empty := fun s => Some (chars s);
     External.as_optional_str := fun s => Some (Some s);
     External.as_str_list := fun l => Some l;
     External.frontmatter_loads := parse';
     External.md5_hexdigest := fun s => "digest of " +:+ s;
     External.cache_ttl_seconds := 60 |}.

Definition post_one : PostSummary :=
  {| slug := "post-one"; title := "First"; date := "2024-01-15";
     description := None; tags := [] |}.

Definition post_one' : PostSummary :=
  {| slug := "post-one"; title := "Rewritten"; date := "2025-06-01";
     description := None; tags := [] |}.

Definition post_two : PostSummary :=
  {| slug := "post-two"; title := "post-two"; date := "2024-01-10";
     description := None; tags := [] |}.

Definition no_date : PostSummary :=
  {| slug := "no-date"; title := "Undated"; date := EmptyString;
     description := None; tags := [] |}.

Definition w0 : World := initial_world 300.

Definition detail_one : PostDetail :=
  {| meta := post_one; post_content := "Body one" |}.

(** A limiter of 3 requests per minute whose client has made three requests
    in the last seconds, and one whose client made them minutes ago. *)
Definition busy_limiter : RateLimit.RateLimitMiddleware :=
  {| RateLimit.requests_per_minute := 3;
     RateLimit.requests_per_hour := 1000;
     RateLimit.enabled := true;
     RateLimit.buckets :=
       {[ "10.0.0.1" := {| RateLimit.requests := [100; 101; 102]%Q |} ]} |}.

Definition calm_limiter : RateLimit.RateLimitMiddleware :=
  {| RateLimit.requests_per_minute := 3;
     RateLimit.requests_per_hour := 1000;
     RateLimit.enabled := true;
     RateLimit.buckets :=
       {[ "10.0.0.1" := {| RateLimit.requests := [10; 4000; 4001]%Q |} ]} |}.

Definition request : RateLimit.Request :=
  {| RateLimit.req_headers :=
       {[ "X-Forwarded-For" := " 10.0.0.1 , 192.168.0.7" ]};
     RateLimit.client := Some "172.16.0.1";
     RateLimit.url_path := "/posts" |}.

Definition call_next (_ : RateLimit.Request) : RateLimit.Response :=
  {| RateLimit.status_code := 200;
     RateLimit.headers := ∅;
     RateLimit.content := "{}" |}.

End Sample.

(** Two posts, one of them with the front matter [tags: 5]. *)
Module BadTags.

(** A scalar of a front matter block. *)
Inductive yaml : Type :=
  | YStr (s : string)
  | YInt (n : Z).

Definition py_str (v : yaml) : string :=
  match v with
  | YStr s => s
  | YInt n => py_str_int n
  end.

(** [list(v or [])]: an empty string and 0 are falsy, a string is
    iterated by character, and an integer raises [TypeError]. *)
Definition py_list_or_empty (v : yaml) : option (list yaml) :=
  match v with
  | YStr s => Some (map YStr (Sample.chars s))
  | YInt 0 => Some []
  | YInt _ => None
  end.

Definition as_optional_str (v : yaml) : option (option string) :=
  match v with
  | YStr s => Some (Some s)
  | YInt _ => None
  end.

Fixpoint as_str_list (l : list yaml) : option (list string) :=
  match l with
  | [] => Some []
  | YStr s :: l' =>
      match as_str_list l' with
      | Some r => Some (s :: r)
      | None => None
      end
  | YInt _ :: _ => None
  end.

Definition load (slug : string) : result string :=
  if String.eqb slug "good-post" then Ok "raw good"
  else if String.eqb slug "bad-tags" then Ok "raw bad tags"
  else Raise FileNotFoundError.

Definition parse (raw : string) : result (gmap string yaml * string) :=
  if String.eqb raw "raw good" then
    Ok (<["title" := YStr "Good"]> (<["date" := YStr "2024-02-01"]> ∅),
        "Body")
  else if String.eqb raw "raw bad tags" then
    Ok (<["title" := YStr "Bad"]> (<["tags" := YInt 5]> ∅), "Body")
  else Raise YAMLError.

Definition env_of (slugs : list string) : Collaborators :=
  {| External.backend_list_slugs := Ok slugs;
     External.backend_load := load;
     External.MetaValue := yaml;
     External.py_str := py_str;
     External.py_list_or_empty := py_list_or_empty;
     External.as_optional_str := as_optional_str;
     External.as_str_list := as_str_list;
     External.frontmatter_loads := parse;
     External.md5_hexdigest := fun s => "digest of " +:+ s;
     External.cache_ttl_seconds := 300 |}.

(** The store with both posts, and with the good one alone. *)
Definition env : Collaborators := env_of ["good-post"; "bad-tags"].
Definition env_good : Collaborators := env_of ["good-post"].

Definition good : PostSummary :=
  {| slug := "good-post"; title := "Good"; date := "2024-02-01";
     description := None; tags := [] |}.

End BadTags.

Import RateLimit.

(** C8: one bad post fails the whole listing. With a post whose front
    matter is [tags: 5] in the store, [list(5)] raises [TypeError] inside
    the [try] of the listing loop, which catches [ValueError] and
    [FileNotFoundError] only: the listing raises and /posts is answered
    500, although the other post loads, and although the listing of the
    store without that post answers. *)
Theorem one_bad_post_fails_the_listing :
  (exists raw meta_dict body,
     External.backend_load BadTags.env "bad-tags" = Ok raw
     /\ External.frontmatter_loads BadTags.env raw = Ok (meta_dict, body)
     /\ meta_dict !! "tags" = Some (BadTags.YInt 5)
     /\ make_post_meta BadTags.env "bad-tags" meta_dict = Raise OtherError)
  /\ summary_outcome BadTags.env "good-post" = Ok BadTags.good
  /\ (list_posts BadTags.env 20 0 0 0 Sample.w0).2 = Raise OtherError
  /\ (route "/posts" (list_posts BadTags.env 20 0 0 0) Sample.w0).2
     = error_response 500 "Internal server error" (Some "INTERNAL_ERROR")
  /\ (list_posts BadTags.env_good 20 0 0 0 Sample.w0).2
     = Ok (page_response BadTags.env_good [BadTags.good] 20 0).
Proof.
  assert (Hbad : summary_outcome BadTags.env "bad-tags" = Raise OtherError).
  { apply (tags_type_error_outcome BadTags.env "bad-tags" "raw bad tags"
             "Body" (<["title" := BadTags.YStr "Bad"]>
                       (<["tags" := BadTags.YInt 5]> ∅))
             (BadTags.YInt 5)); reflexivity. }
  assert (Hraise : (list_posts BadTags.env 20 0 0 0 Sample.w0).2
                   = Raise OtherError).
  { rewrite list_posts_result. unfold full_listing.
    change (Cache.get (_posts_list_cache Sample.w0) "posts_list" 0).2
      with (@None (list PostSummary)).
    cbn [External.backend_list_slugs BadTags.env BadTags.env_of first_fatal].
    change (first_fatal BadTags.env ["good-post"; "bad-tags"])
      with (match summary_outcome BadTags.env "good-post" with
            | Ok _ =>
                match summary_outcome BadTags.env "bad-tags" with
                | Ok _ => None
                | Raise e => if skippable e then None else Some e
                end
            | Raise e =>
                if skippable e
                then match summary_outcome BadTags.env "bad-tags" with
                     | Ok _ => None
                     | Raise e => if skippable e then None else Some e
                     end
                else Some e
            end).
    rewrite Hbad. reflexivity. }
  split_and!.
  - exists "raw bad tags",
      (<["title" := BadTags.YStr "Bad"]> (<["tags" := BadTags.YInt 5]> ∅)),
      "Body".
    split_and!; reflexivity.
  - reflexivity.
  - exact Hraise.
  - unfold route.
    destruct (list_posts BadTags.env 20 0 0 0 Sample.w0) as [w' r].
    cbn [snd] in Hraise. subst r. reflexivity.
  - by vm_compute.
Qed.

Lemma is_rate_limited_algorithm_witness :
  (_is_rate_limited Sample.busy_limiter "10.0.0.1" 103).2.1 = true
  /\ (_is_rate_limited Sample.busy_limiter "10.0.0.1" 103).2.2
       !! "Retry-After" = Some "60"
  /\ (_is_rate_limited Sample.busy_limiter "10.0.0.1" 103).2.2
       !! "X-RateLimit-Remaining-Hour" = Some "997"
  /\ requests
       (get_bucket (_is_rate_limited Sample.calm_limiter "10.0.0.1" 4002).1
          "10.0.0.1")
     = [4000; 4001]%Q
  /\ (_is_rate_limited Sample.calm_limiter "10.0.0.1" 4002).2.1 = false.
Proof.
  destruct (is_rate_limited_algorithm Sample.busy_limiter "10.0.0.1" 103)
    as (_ & _ & _ & _ & _ & _ & _ & _ & _ & _ & _ & Hrh & _ & _ & _ & _
        & Hdeny & _ & _).
  destruct (is_rate_limited_algorithm Sample.calm_limiter "10.0.0.1" 4002)
    as (_ & _ & _ & _ & _ & Hstored & _ & _ & _ & _ & _ & _ & _ & _ & _ & _
        & _ & _ & Hallow).
  destruct Hdeny as [Hl Hra]; [by vm_compute|].
  destruct Hallow as [Hal _]; [by vm_compute|by vm_compute|].
  split; [exact Hl|]. split; [exact Hra|].
  split; [rewrite Hrh; vm_compute; reflexivity|].
  split; [rewrite Hstored; vm_compute; reflexivity|exact Hal].
Defined.

Lemma dispatch_records_only_allowed_witness :
  enabled Sample.busy_limiter = true
  /\ url_path Sample.request <> "/health"
  /\ requests
       (get_bucket
          (dispatch Sample.busy_limiter Sample.request 103 104
             Sample.call_next).1 "10.0.0.1")
     = [100; 101; 102]%Q
  /\ status_code
       (dispatch Sample.busy_limiter Sample.request 103 104
          Sample.call_next).2 = 429
  /\ requests
       (get_bucket
          (dispatch Sample.calm_limiter Sample.request 4050 4051
             Sample.call_next).1 "10.0.0.1")
     = [4000; 4001; 4051]%Q.
Proof.
  split; [reflexivity|]. split; [discriminate|].
  destruct (dispatch_records_only_allowed Sample.busy_limiter Sample.request
              103 104 Sample.call_next eq_refl)
    as (Hdeny & _ & _); [discriminate|].
  destruct (dispatch_records_only_allowed Sample.calm_limiter Sample.request
              4050 4051 Sample.call_next eq_refl)
    as (_ & Hallow & _); [discriminate|].
  destruct Hdeny as [Hb Hs]; [by vm_compute|].
  destruct Hallow as [Hb' _]; [by vm_compute|].
  split; [exact Hb|]. split; [exact Hs|]. exact Hb'.
Defined.

Lemma post_cache_ttl_correct_witness :
  (get_post_cached "post-one" 299
     (set_post_cached "post-one" Sample.detail_one 0 Sample.w0).1).2
  = Ok (Some Sample.detail_one)
  /\ (get_post_cached "post-one" 300
        (set_post_cached "post-one" Sample.detail_one 0 Sample.w0).1).2
     = Ok None.
Proof.
  destruct (post_cache_ttl_correct Sample.w0 "post-one" Sample.detail_one
              0 299) as (Hlive & _ & _).
  destruct (post_cache_ttl_correct Sample.w0 "post-one" Sample.detail_one
              0 300) as (_ & Hdead & _).
  split; [apply Hlive|apply Hdead]; by vm_compute.
Defined.

(** A per-post cache of capacity 2, full, to which a third key is
    written. *)
Definition small_cache : Cache.TTLCache nat :=
  Cache.set (Cache.set (Cache.new 2 300) "a" 1%nat 0) "b" 2%nat 1.

Lemma cache_capacity_invariant_witness :
  (Cache.size
     (_post_cache
        (run_calls (initial_world 300)
           [SetPost "post-one" Sample.detail_one 0;
            GetPost "post-one" 400;
            SetPost "post-two" Sample.detail_one 401])) <= 512)%nat
  /\ Cache.entries (Cache.set small_cache "c" 3%nat 2)
     = [("b", {| Cache.value := 2%nat; Cache.expiresAt := (1 + 300)%Q |});
        ("c", {| Cache.value := 3%nat; Cache.expiresAt := (2 + 300)%Q |})]
  /\ Cache.size (Cache.set small_cache "c" 3%nat 2) = 2%nat.
Proof.
  destruct cache_capacity_invariant as [Hall Hfull].
  split; [apply (Hall 300)|].
  destruct (Hfull nat small_cache "c" 3%nat 2%Q) as (He & _ & Hs);
    [vm_compute; lia|reflexivity|reflexivity|].
  split; [exact He|exact Hs].
Defined.

Lemma listing_sorted_by_date_desc_witness :
  (Cache.get (_posts_list_cache Sample.w0) "posts_list" 0).2 = None
  /\ (list_posts Sample.env 20 0 0 0 Sample.w0).2
     = Ok (page_response Sample.env
             [Sample.post_one; Sample.post_two; Sample.no_date] 20 0)
  /\ exists (slugs : list string) (all_summaries : list PostSummary),
       External.backend_list_slugs Sample.env = Ok slugs
       /\ Permutation (loaded_summaries Sample.env slugs) all_summaries
       /\ (forall (i : nat) (a b : PostSummary),
             all_summaries !! i = Some a -> all_summaries !! S i = Some b ->
             String.leb (date b) (date a) = true)
       /\ page_response Sample.env
            [Sample.post_one; Sample.post_two; Sample.no_date] 20 0
          = page_response Sample.env all_summaries 20 0
       /\ Cache.find_entry "posts_list"
            (Cache.entries
               (_posts_list_cache (list_posts Sample.env 20 0 0 0 Sample.w0).1))
          = Some {| Cache.value := all_summaries;
                    Cache.expiresAt :=
                      (0 + Cache.ttl (_posts_list_cache Sample.w0))%Q |}.
Proof.
  split; [reflexivity|]. split; [by vm_compute|].
  apply (listing_sorted_by_date_desc Sample.env 20 0 0 0 Sample.w0);
    by vm_compute.
Defined.

Lemma list_posts_pagination_witness :
  1 <= 2 <= 100
  /\ 0 <= 1
  /\ (list_posts Sample.env 2 1 0 0 Sample.w0).2
     = Ok (page_response Sample.env
             [Sample.post_one; Sample.post_two; Sample.no_date] 2 1)
  /\ exists (all_summaries : list PostSummary) (r : PostListResponse),
      ((Cache.get (_posts_list_cache Sample.w0) "posts_list" 0).2
         = Some all_summaries
       \/ ((Cache.get (_posts_list_cache Sample.w0) "posts_list" 0).2 = None
           /\ exists slugs, External.backend_list_slugs Sample.env = Ok slugs
                /\ all_summaries
                   = sort_by_date_desc (loaded_summaries Sample.env slugs)))
      /\ json_body
           (page_response Sample.env
              [Sample.post_one; Sample.post_two; Sample.no_date] 2 1)
         = ListContent r
      /\ posts r = slice all_summaries (Z.to_nat 1) (Z.to_nat (1 + 2))
      /\ (length (posts r) <= Z.to_nat 2)%nat
      /\ total r = Z.of_nat (length all_summaries)
      /\ (total r <= 1 -> posts r = []).
Proof.
  split; [lia|]. split; [lia|]. split; [by vm_compute|].
  apply (list_posts_pagination Sample.env 2 1 0 0 Sample.w0);
    [lia|lia|by vm_compute].
Defined.

Lemma listing_skips_failing_posts_witness :
  (list_posts Sample.env 20 0 0 0 Sample.w0).2
  = Ok (page_response Sample.env
          [Sample.post_one; Sample.post_two; Sample.no_date] 20 0)
  /\ skip_warnings (list_posts Sample.env 20 0 0 0 Sample.w0).1
     = [skip_warning
          ("broken",
           ValueError "Invalid frontmatter format in post: broken");
        skip_warning ("ghost", FileNotFoundError)].
Proof.
  destruct (listing_skips_failing_posts Sample.env 20 0 0 0 Sample.w0
              ["post-two"; "broken"; "no-date"; "post-one"; "ghost"]
              eq_refl eq_refl)
    as (Hok & _).
  destruct Hok as [Hr Hw].
  - intros x e w Hin. rewrite load_summary_result.
    repeat (destruct Hin as [<-|Hin]; [vm_compute; by intros [= <-]|]).
    destruct Hin.
  - split; [rewrite Hr|rewrite Hw]; by vm_compute.
Defined.


Lemma listing_etag_function_of_counts_witness :
  (list_posts Sample.env 20 0 0 0 Sample.w0).2
  = Ok (page_response Sample.env
          [Sample.post_one; Sample.post_two; Sample.no_date] 20 0)
  /\ (list_posts Sample.env' 20 0 7 7 (initial_world 60)).2
     = Ok (page_response Sample.env'
             [Sample.post_one'; Sample.post_two; Sample.no_date] 20 0)
  /\ json_headers
       (page_response Sample.env
          [Sample.post_one; Sample.post_two; Sample.no_date] 20 0)
       !! "ETag"
     = Some (dquote +:+ "digest of 3-0-20" +:+ dquote)
  /\ json_headers
       (page_response Sample.env
          [Sample.post_one; Sample.post_two; Sample.no_date] 20 0)
       !! "ETag"
     = json_headers
         (page_response Sample.env'
            [Sample.post_one'; Sample.post_two; Sample.no_date] 20 0)
         !! "ETag".
Proof.
  assert (H1 : (list_posts Sample.env 20 0 0 0 Sample.w0).2
               = Ok (page_response Sample.env
                       [Sample.post_one; Sample.post_two; Sample.no_date]
                       20 0)) by (by vm_compute).
  assert (H2 : (list_posts Sample.env' 20 0 7 7 (initial_world 60)).2
               = Ok (page_response Sample.env'
                       [Sample.post_one'; Sample.post_two; Sample.no_date]
                       20 0)) by (by vm_compute).
  destruct (listing_etag_function_of_counts Sample.env Sample.env' 20 0
              0 0 7 7 Sample.w0 (initial_world 60) _ _ _ _
              eq_refl H1 H2 eq_refl eq_refl eq_refl) as [He Heq].
  split; [exact H1|]. split; [exact H2|]. split; [|exact Heq].
  rewrite He. by vm_compute.
Defined.

(** ** Scenarios of the specification *)

(** The responses to requests of one client arriving at the given times. *)
Fixpoint serve (self : RateLimitMiddleware) (request : Request)
    (times : list Q) : list Response :=
  match times with
  | [] => []
  | t :: times' =>
      let '(self', response) := dispatch self request t t Sample.call_next in
      response :: serve self' request times'
  end.

Definition fresh_limiter : RateLimitMiddleware :=
  {| requests_per_minute := 3; requests_per_hour := 1000;
     enabled := true; buckets := ∅ |}.

(** With 3 requests per minute, three requests of a client within one
    minute pass and the fourth is answered 429 with Retry-After 60, the
    hourly budget being far from used up. *)
Example fourth_request_in_a_minute_denied :
  map status_code (serve fresh_limiter Sample.request [100; 101; 102; 103]%Q)
  = [200; 200; 200; 429]
  /\ (_is_rate_limited
        {| requests_per_minute := 3; requests_per_hour := 1000;
           enabled := true;
           buckets :=
             {[ "10.0.0.1" := {| requests := [100; 101; 102]%Q |} ]} |}
        "10.0.0.1" 103).2
     = (true,
        <["Retry-After" := "60"]>
        (<["X-RateLimit-Remaining-Hour" := "997"]>
        (<["X-RateLimit-Limit-Hour" := "1000"]>
        (<["X-RateLimit-Remaining-Minute" := "0"]>
        (<["X-RateLimit-Limit-Minute" := "3"]> ∅))))).
Proof. split; by vm_compute. Qed.

(** The date strings are compared as they are: "2024-1-5" is greater than
    "2024-01-05" and the post that carries it is listed first. *)
Example raw_date_strings_are_compared :
  sort_by_date_desc
    [ {| slug := "a"; title := "a"; date := "2024-01-05";
         description := None; tags := [] |};
      {| slug := "b"; title := "b"; date := "2024-1-5";
         description := None; tags := [] |} ]
  = [ {| slug := "b"; title := "b"; date := "2024-1-5";
         description := None; tags := [] |};
      {| slug := "a"; title := "a"; date := "2024-01-05";
         description := None; tags := [] |} ].
Proof. reflexivity. Qed.

(** Slugs with a slash, two dots or a space are rejected, and so is a slug
    of 201 characters. *)
Example rejected_slugs :
  validate_slug "test/post"
  = Raise (ValueError
      "Invalid slug format. Use only alphanumeric characters, hyphens, and underscores.")
  /\ validate_slug "../etc/passwd"
     = Raise (ValueError
         "Invalid slug format. Use only alphanumeric characters, hyphens, and underscores.")
  /\ validate_slug "test post"
     = Raise (ValueError
         "Invalid slug format. Use only alphanumeric characters, hyphens, and underscores.")
  /\ validate_slug EmptyString = Raise (ValueError "Slug cannot be empty")
  /\ validate_slug (String.concat EmptyString (repeat "a" 201))
     = Raise (ValueError "Slug too long (max 200 characters)")
  /\ validate_slug "my-post_123" = Ok "my-post_123".
Proof. repeat split; by vm_compute. Qed.

(** Two posts dated "2024-01-15" and "2024-01-10" (and an undated one) are
    listed in that order; a post is served with its content, and then from
    the cache; a slug without a post is answered 404. *)
Example end_to_end :
  let '(w1, listing) :=
    route "/posts" (list_posts Sample.env 20 0 0 0) Sample.w0 in
  let '(w2, first) :=
    route "/post/post-one"
      (get_post Sample.env "post-one" 1 1) w1 in
  let '(w3, again) :=
    route "/post/post-one"
      (get_post Sample.env "post-one" 2 2) w2 in
  let '(w4, missing) :=
    route "/post/does-not-exist"
      (get_post Sample.env "does-not-exist" 3 3) w3 in
  json_body listing
  = ListContent
      {| posts := [Sample.post_one; Sample.post_two; Sample.no_date];
         total := 3; limit := 20; offset := 0 |}
  /\ json_status first = 200
  /\ json_body first = DetailContent Sample.detail_one
  /\ again = first
  /\ storage_reads w3 = storage_reads w2
  /\ json_status missing = 404
  /\ json_body missing = ErrorContent "Post not found" None.
Proof. by vm_compute. Qed.

(** * Further properties *)

(** ** The rate limiter over a run of requests *)

(** A request with the two clock readings of its [dispatch]. *)
Record Arrival : Type := {
  arr_request : Request;
  arr_now : Q;
  arr_now' : Q
}.

(** The limiter after the requests have been dispatched in turn. *)
Definition run_dispatches (self : RateLimitMiddleware)
    (arrivals : list Arrival) (call_next : Request -> Response)
  : RateLimitMiddleware :=
  fold_left
    (fun self a =>
       (dispatch self (arr_request a) (arr_now a) (arr_now' a) call_next).1)
    arrivals self.

(** For every timestamp [t] of the bucket, the timestamps recorded up to
    and including [t] that lie in the minute before [t] number at most
    [limit]. *)
Definition minute_window_ok (limit : Z) (l : list Q) : Prop :=
  forall p t s, l = p ++ t :: s -> minuteCount t (p ++ [t]) <= limit.

Lemma dispatch_state (self : RateLimitMiddleware) (request : Request)
    (now now' : Q) (call_next : Request -> Response) :
  (dispatch self request now now' call_next).1
  = if negb (enabled self) || String.eqb (url_path request) "/health"
    then self
    else
      let client_ip := _get_client_ip request in
      let pruned :=
        set_bucket self client_ip
          {| requests :=
               clean_old now (requests (get_bucket self client_ip)) |} in
      if (_is_rate_limited self client_ip now).2.1 then pruned
      else record_request pruned client_ip now'.
Proof.
  unfold dispatch.
  destruct (negb (enabled self) || String.eqb (url_path request) "/health");
    [reflexivity|].
  cbv zeta. rewrite <- is_rate_limited_state.
  destruct (_is_rate_limited self (_get_client_ip request) now)
    as [s [[] h]]; reflexivity.
Qed.

Lemma allowed_counts (self : RateLimitMiddleware) (ip : string) (now : Q) :
  (_is_rate_limited self ip now).2.1 = false ->
  let pruned := clean_old now (requests (get_bucket self ip)) in
  minuteCount now pruned < requests_per_minute self
  /\ hourCount pruned < requests_per_hour self.
Proof.
  unfold _is_rate_limited. cbn [requests set_bucket requests_per_minute
    requests_per_hour]. rewrite count_last_minute_filter.
  fold (minuteCount now (clean_old now (requests (get_bucket self ip)))).
  fold (hourCount (clean_old now (requests (get_bucket self ip)))).
  destruct (Z.leb_spec (requests_per_minute self)
              (minuteCount now (clean_old now (requests (get_bucket self ip)))));
    [discriminate|].
  destruct (Z.leb_spec (requests_per_hour self)
              (hourCount (clean_old now (requests (get_bucket self ip)))));
    [discriminate|].
  intros _. split; assumption.
Qed.

Lemma dispatch_limits (self : RateLimitMiddleware) (request : Request)
    (now now' : Q) (call_next : Request -> Response) :
  requests_per_minute (dispatch self request now now' call_next).1
  = requests_per_minute self
  /\ requests_per_hour (dispatch self request now now' call_next).1
     = requests_per_hour self
  /\ enabled (dispatch self request now now' call_next).1 = enabled self.
Proof.
  rewrite dispatch_state.
  destruct (negb (enabled self) || String.eqb (url_path request) "/health");
    [done|].
  cbv zeta. destruct (_is_rate_limited self _ now).2.1; done.
Qed.

(** The bucket of a client after one [dispatch]. *)
Lemma dispatch_bucket (self : RateLimitMiddleware) (request : Request)
    (now now' : Q) (call_next : Request -> Response) (ip : string) :
  let old := requests (get_bucket self ip) in
  requests (get_bucket (dispatch self request now now' call_next).1 ip) = old
  \/ (ip = _get_client_ip request
      /\ (_is_rate_limited self ip now).2.1 = true
      /\ requests (get_bucket (dispatch self request now now' call_next).1 ip)
         = clean_old now old)
  \/ (ip = _get_client_ip request
      /\ (_is_rate_limited self ip now).2.1 = false
      /\ requests (get_bucket (dispatch self request now now' call_next).1 ip)
         = clean_old now old ++ [now']).
Proof.
  intros old. rewrite dispatch_state.
  destruct (negb (enabled self) || String.eqb (url_path request) "/health");
    [by left|].
  cbv zeta. destruct (decide (ip = _get_client_ip request)) as [->|Hne].
  - right.
    destruct (_is_rate_limited self (_get_client_ip request) now).2.1 eqn:E;
      [left|right]; (split; [done|]); (split; [done|]).
    + by rewrite set_bucket_same.
    + unfold record_request. by rewrite !set_bucket_same.
  - left.
    destruct (_is_rate_limited self (_get_client_ip request) now).2.1;
      unfold record_request; by rewrite !set_bucket_other.
Qed.

Lemma filter_length_le {A : Type} (f g : A -> bool) (l : list A) :
  (forall x, f x = true -> g x = true) ->
  (length (List.filter f l) <= length (List.filter g l))%nat.
Proof.
  intros Hfg. induction l as [|x l IH]; simpl; [lia|].
  destruct (f x) eqn:Hf.
  - rewrite (Hfg x Hf). simpl. lia.
  - destruct (g x); simpl; lia.
Qed.

Lemma filter_filter_length_le {A : Type} (f g : A -> bool) (l : list A) :
  (length (List.filter g (List.filter f l)) <= length (List.filter g l))%nat.
Proof.
  induction l as [|x l IH]; simpl; [lia|].
  destruct (f x); simpl; destruct (g x); simpl; lia.
Qed.

Lemma filter_split {A : Type} (f : A -> bool) (l p' s' : list A) (t : A) :
  List.filter f l = p' ++ t :: s' ->
  exists p s, l = p ++ t :: s /\ List.filter f p = p'.
Proof.
  revert p'. induction l as [|x l IH]; intros p' H; simpl in H.
  - by destruct p'.
  - destruct (f x) eqn:Hf.
    + destruct p' as [|y p']; simpl in H.
      * injection H as -> _. by exists [], l.
      * injection H as -> H. destruct (IH _ H) as (p & s & -> & Hp).
        exists (y :: p), s. split; [done|]. simpl. by rewrite Hf, Hp.
    + destruct (IH _ H) as (p & s & -> & Hp).
      exists (x :: p), s. split; [done|]. simpl. by rewrite Hf.
Qed.

Lemma snoc_split {A : Type} (l p s : list A) (x t : A) :
  l ++ [x] = p ++ t :: s ->
  (s = [] /\ p = l /\ t = x) \/ exists s', l = p ++ t :: s'.
Proof.
  induction s as [|y s' _] using rev_ind; intros H.
  - left. apply app_inj_tail in H as [-> ->]. done.
  - right. exists s'.
    change (p ++ t :: s' ++ [y]) with (p ++ (t :: s') ++ [y]) in H.
    rewrite app_assoc in H. by apply app_inj_tail in H as [-> _].
Qed.

Lemma minute_window_ok_filter (limit : Z) (f : Q -> bool) (l : list Q) :
  minute_window_ok limit l -> minute_window_ok limit (List.filter f l).
Proof.
  intros Hok p' t s' Hsplit.
  destruct (filter_split _ _ _ _ _ Hsplit) as (p & s & -> & <-).
  specialize (Hok p t s eq_refl). unfold minuteCount in *.
  rewrite !List.filter_app, !length_app in *.
  pose proof (filter_filter_length_le f (fun u => Qltb (t - 60) u) p). lia.
Qed.

Lemma minute_window_ok_snoc (limit : Z) (l : list Q) (now now' : Q) :
  (now <= now')%Q ->
  minuteCount now l < limit ->
  minute_window_ok limit l -> minute_window_ok limit (l ++ [now']).
Proof.
  intros Hclock Hcount Hok p t s Hsplit.
  destruct (snoc_split _ _ _ _ _ Hsplit) as [(-> & -> & ->)|(s' & ->)].
  - unfold minuteCount in *. rewrite List.filter_app, length_app.
    assert (Hle : (length (List.filter (fun u => Qltb (now' - 60) u) l)
                   <= length (List.filter (fun u => Qltb (now - 60) u) l))%nat).
    { apply filter_length_le. intros u Hu. apply Qltb_lt in Hu.
      apply Qltb_lt. lra. }
    assert (length (List.filter (fun u => Qltb (now' - 60) u) [now']) <= 1)%nat.
    { simpl. destruct (Qltb (now' - 60) now'); simpl; lia. }
    lia.
  - by apply (Hok p t s').
Qed.

Lemma run_dispatches_limits (arrivals : list Arrival)
    (call_next : Request -> Response) :
  forall self,
    requests_per_minute (run_dispatches self arrivals call_next)
    = requests_per_minute self
    /\ requests_per_hour (run_dispatches self arrivals call_next)
       = requests_per_hour self.
Proof.
  induction arrivals as [|a arrivals IH]; intros self; [done|].
  cbn [run_dispatches fold_left]. fold (run_dispatches
    (dispatch self (arr_request a) (arr_now a) (arr_now' a) call_next).1
    arrivals call_next).
  destruct (IH (dispatch self (arr_request a) (arr_now a) (arr_now' a)
                  call_next).1) as [-> ->].
  destruct (dispatch_limits self (arr_request a) (arr_now a) (arr_now' a)
              call_next) as (-> & -> & _). done.
Qed.

(** An invariant of the buckets that one [dispatch] keeps is kept by a
    run. *)
Lemma run_dispatches_invariant (P : RateLimitMiddleware -> Prop)
    (Q : Arrival -> Prop) (call_next : Request -> Response) :
  (forall self a, Q a -> P self ->
     P (dispatch self (arr_request a) (arr_now a) (arr_now' a) call_next).1) ->
  forall arrivals self,
    (forall a, In a arrivals -> Q a) ->
    P self -> P (run_dispatches self arrivals call_next).
Proof.
  intros Hstep arrivals.
  induction arrivals as [|a arrivals IH]; intros self HQ HP; [done|].
  cbn [run_dispatches fold_left]. apply IH.
  - intros b Hb. apply HQ. by right.
  - apply Hstep; [|done]. apply HQ. by left.
Qed.

(** X1: the decision for a client depends on that client's bucket alone:
    after any run of requests from other clients, whatever their number,
    the decision and the rate-limit headers for the client are what they
    were before. *)
Theorem rate_limit_isolation
    (self : RateLimitMiddleware) (arrivals : list Arrival)
    (call_next : Request -> Response) (ip : string) (t : Q) :
  (forall a, In a arrivals -> _get_client_ip (arr_request a) <> ip) ->
  (_is_rate_limited (run_dispatches self arrivals call_next) ip t).2
  = (_is_rate_limited self ip t).2.
Proof.
  intros Hothers.
  assert (Hb : get_bucket (run_dispatches self arrivals call_next) ip
               = get_bucket self ip).
  { apply (run_dispatches_invariant
             (fun s => get_bucket s ip = get_bucket self ip)
             (fun a => _get_client_ip (arr_request a) <> ip) call_next);
      [|done|done].
    intros s a Ha Hs. rewrite <- Hs. rewrite dispatch_state.
    destruct (negb (enabled s) || String.eqb (url_path (arr_request a)) "/health");
      [done|].
    cbv zeta.
    destruct (_is_rate_limited s (_get_client_ip (arr_request a)) (arr_now a)).2.1;
      unfold record_request; rewrite !set_bucket_other; done. }
  destruct (run_dispatches_limits arrivals call_next self) as [Hm Hh].
  unfold _is_rate_limited.
  cbn [set_bucket requests_per_minute requests_per_hour requests].
  rewrite Hb, Hm, Hh.
  repeat match goal with
         | |- context [if ?c then _ else _] => destruct c
         end; reflexivity.
Qed.

(** X2: the guarantee of the minute window. When the clock does not go
    back between the check and the recording of a request, every run of
    requests keeps, in every bucket and for every recorded timestamp t, the
    number of timestamps recorded up to and including t that are newer than
    t - 60 at most requests_per_minute. *)
Theorem minute_window_guarantee
    (self : RateLimitMiddleware) (arrivals : list Arrival)
    (call_next : Request -> Response) :
  (forall ip,
     minute_window_ok (requests_per_minute self)
       (requests (get_bucket self ip))) ->
  (forall a, In a arrivals -> (arr_now a <= arr_now' a)%Q) ->
  forall ip,
    minute_window_ok (requests_per_minute self)
      (requests (get_bucket (run_dispatches self arrivals call_next) ip)).
Proof.
  intros Hstart Hclock.
  apply (run_dispatches_invariant
           (fun s => requests_per_minute s = requests_per_minute self
                     /\ forall ip, minute_window_ok (requests_per_minute self)
                                     (requests (get_bucket s ip)))
           (fun a => (arr_now a <= arr_now' a)%Q) call_next);
    [|done|done].
  intros s a Ha [Hm Hs].
  destruct (dispatch_limits s (arr_request a) (arr_now a) (arr_now' a)
              call_next) as (Hm' & _ & _).
  split; [congruence|]. intros ip.
  destruct (dispatch_bucket s (arr_request a) (arr_now a) (arr_now' a)
              call_next ip) as [->|[(_ & _ & ->)|(_ & Hallow & ->)]].
  - apply Hs.
  - apply minute_window_ok_filter, Hs.
  - apply (minute_window_ok_snoc _ _ (arr_now a)); [done| |].
    + rewrite <- Hm. by apply allowed_counts.
    + apply minute_window_ok_filter, Hs.
Qed.

(** X3: a bucket never holds more timestamps than requests_per_hour: when
    that holds of every bucket before a run of requests, it holds of every
    bucket after it (buckets start empty). *)
Theorem bucket_size_bounded
    (self : RateLimitMiddleware) (arrivals : list Arrival)
    (call_next : Request -> Response) :
  (forall ip,
     Z.of_nat (length (requests (get_bucket self ip)))
     <= Z.max 0 (requests_per_hour self)) ->
  forall ip,
    Z.of_nat
      (length (requests (get_bucket (run_dispatches self arrivals call_next)
                           ip)))
    <= Z.max 0 (requests_per_hour self).
Proof.
  intros Hstart.
  apply (run_dispatches_invariant
           (fun s => requests_per_hour s = requests_per_hour self
                     /\ forall ip,
                          Z.of_nat (length (requests (get_bucket s ip)))
                          <= Z.max 0 (requests_per_hour self))
           (fun _ => True) call_next); [|done|done].
  intros s a _ [Hh Hs].
  destruct (dispatch_limits s (arr_request a) (arr_now a) (arr_now' a)
              call_next) as (_ & Hh' & _).
  split; [congruence|]. intros ip. specialize (Hs ip).
  destruct (dispatch_bucket s (arr_request a) (arr_now a) (arr_now' a)
              call_next ip) as [->|[(_ & _ & ->)|(_ & Hallow & ->)]].
  - done.
  - unfold clean_old.
    pose proof (List.filter_length_le
                  (fun t => Qltb (arr_now a - t) 3600)
                  (requests (get_bucket s ip))). lia.
  - apply allowed_counts in Hallow as [_ Hhc]. unfold hourCount in Hhc.
    rewrite length_app. simpl. lia.
Qed.

(** ** The client identity *)

Definition starts_with_space (s : string) : bool :=
  match s with
  | String c _ => is_space c
  | EmptyString => false
  end.

Fixpoint ends_with_space (s : string) : bool :=
  match s with
  | EmptyString => false
  | String c EmptyString => is_space c
  | String _ s' => ends_with_space s'
  end.

Lemma split_comma_first_no_comma (s : string) :
  py_contains_char "," (split_comma_first s) = false.
Proof.
  induction s as [|c s IH]; simpl; [done|].
  destruct (Ascii.eqb c ",") eqn:E; simpl; [done|]. by rewrite E.
Qed.

Lemma lstrip_contains (sep : ascii) (s : string) :
  py_contains_char sep s = false -> py_contains_char sep (lstrip s) = false.
Proof.
  induction s as [|c s IH]; simpl; [done|].
  intros H. apply orb_false_iff in H as [H1 H2].
  destruct (is_space c); [auto|]. simpl. by rewrite H1, H2.
Qed.

Lemma rstrip_contains (sep : ascii) (s : string) :
  py_contains_char sep s = false -> py_contains_char sep (rstrip s) = false.
Proof.
  induction s as [|c s IH]; simpl; [done|].
  intros H. apply orb_false_iff in H as [H1 H2]. specialize (IH H2).
  destruct (rstrip s) as [|c' r].
  - destruct (is_space c); simpl; [done|]. by rewrite H1.
  - simpl in *. by rewrite H1, IH.
Qed.

Lemma lstrip_starts (s : string) : starts_with_space (lstrip s) = false.
Proof.
  induction s as [|c s IH]; simpl; [done|].
  destruct (is_space c) eqn:E; [done|]. simpl. exact E.
Qed.

Lemma rstrip_starts (s : string) :
  starts_with_space s = false -> starts_with_space (rstrip s) = false.
Proof.
  destruct s as [|c s]; simpl; [done|]. intros H.
  destruct (rstrip s); [by rewrite H|done].
Qed.

Lemma rstrip_ends (s : string) : ends_with_space (rstrip s) = false.
Proof.
  induction s as [|c s IH]; simpl; [done|].
  destruct (rstrip s) as [|c' r] eqn:E.
  - destruct (is_space c) eqn:Hc; simpl; [done|exact Hc].
  - exact IH.
Qed.

(** X4: when the request carries a non-empty X-Forwarded-For header, the
    client identity is the text before its first comma with the
    surrounding whitespace removed: it holds no comma and neither starts
    nor ends with a whitespace character. *)
Theorem forwarded_client_identity (request : Request) (forwarded_for : string) :
  req_headers request !! "X-Forwarded-For" = Some forwarded_for ->
  forwarded_for <> EmptyString ->
  _get_client_ip request = py_strip (split_comma_first forwarded_for)
  /\ py_contains_char "," (_get_client_ip request) = false
  /\ starts_with_space (_get_client_ip request) = false
  /\ ends_with_space (_get_client_ip request) = false.
Proof.
  intros Hh Hne.
  assert (E : _get_client_ip request
              = py_strip (split_comma_first forwarded_for)).
  { unfold _get_client_ip. rewrite Hh.
    destruct forwarded_for; [done|reflexivity]. }
  rewrite E. unfold py_strip. split_and!; [done| | |].
  - apply rstrip_contains, lstrip_contains, split_comma_first_no_comma.
  - apply rstrip_starts, lstrip_starts.
  - apply rstrip_ends.
Qed.

(** X5: the request log and the rate limiter name the same client when the
    X-Forwarded-For header, if present, is non-empty and either holds a
    comma or has no surrounding whitespace, and otherwise the X-Real-IP
    header, if present, is non-empty and holds no comma, and otherwise the
    peer address holds no comma. *)
Theorem logged_identity_agrees (request : Request) :
  (forall v, req_headers request !! "X-Forwarded-For" = Some v ->
     v <> EmptyString
     /\ (py_contains_char "," v = true \/ py_strip v = v)) ->
  (req_headers request !! "X-Forwarded-For" = None ->
   forall r, req_headers request !! "X-Real-IP" = Some r ->
     r <> EmptyString /\ py_contains_char "," r = false) ->
  (req_headers request !! "X-Forwarded-For" = None ->
   req_headers request !! "X-Real-IP" = None ->
   py_contains_char "," (default "unknown" (client request)) = false) ->
  logged_client_ip request = _get_client_ip request.
Proof.
  intros Hf Hr Hc. unfold logged_client_ip, _get_client_ip.
  destruct (req_headers request !! "X-Forwarded-For") as [v|] eqn:Ef.
  - destruct (Hf v eq_refl) as [Hne Hv]. unfold default, id. simpl.
    destruct v as [|c v]; [done|]. cbn [str_truthy].
    destruct (py_contains_char "," (String c v)) eqn:Ec; [done|].
    destruct Hv as [Hv|Hv]; [done|].
    assert (Hs : split_comma_first (String c v) = String c v).
    { clear -Ec. induction (String c v) as [|a s IH]; simpl in *; [done|].
      apply orb_false_iff in Ec as [-> Ec]. by rewrite IH. }
    by rewrite Hs, Hv.
  - unfold default, id. simpl.
    destruct (req_headers request !! "X-Real-IP") as [r|] eqn:Er.
    + destruct (Hr eq_refl r eq_refl) as [Hne Hcomma]. simpl.
      rewrite Hcomma. destruct r; [done|reflexivity].
    + simpl. specialize (Hc eq_refl eq_refl). unfold default, id in Hc.
      by rewrite Hc.
Qed.

(** ** Strings *)

Lemma py_lower_app (a b : string) :
  py_lower (a +:+ b) = py_lower a +:+ py_lower b.
Proof. induction a as [|c a IH]; simpl; [done|]. by rewrite IH. Qed.

Lemma py_endswith_refl (s : string) : py_endswith s s = true.
Proof. destruct s; simpl; [done|]. by rewrite Ascii.eqb_refl, String.eqb_refl. Qed.

Lemma py_endswith_app (a b : string) : py_endswith (a +:+ b) b = true.
Proof.
  induction a as [|c a IH]; simpl.
  - apply py_endswith_refl.
  - rewrite IH. apply orb_true_r.
Qed.

Lemma py_contains_char_app (sep : ascii) (a b : string) :
  py_contains_char sep (a +:+ b)
  = py_contains_char sep a || py_contains_char sep b.
Proof.
  induction a as [|c a IH]; simpl; [done|]. by rewrite IH, orb_assoc.
Qed.

(** Cutting at the last separator gives back what stood before it. *)
Lemma py_rsplit1_first_app (sep : ascii) (s ext : string) :
  py_contains_char sep ext = false ->
  py_rsplit1_first sep (s +:+ String sep ext) = s.
Proof.
  intros Hext. induction s as [|c s IH]; simpl.
  - by rewrite Ascii.eqb_refl, Hext.
  - rewrite py_contains_char_app. simpl. rewrite Ascii.eqb_refl.
    rewrite orb_true_r. simpl. rewrite andb_false_r. by rewrite IH.
Qed.

Lemma py_split_last_app (sep : ascii) (d f : string) :
  py_contains_char sep f = false ->
  py_split_last sep (d +:+ String sep f) = f.
Proof.
  intros Hf. induction d as [|c d IH]; simpl.
  - by rewrite Hf, Ascii.eqb_refl.
  - rewrite py_contains_char_app. simpl. rewrite Ascii.eqb_refl.
    rewrite orb_true_r. exact IH.
Qed.

Lemma py_split_last_none (sep : ascii) (f : string) :
  py_contains_char sep f = false -> py_split_last sep f = f.
Proof.
  destruct f as [|c f]; simpl; [done|]. intros H.
  apply orb_false_iff in H as [-> ->]. done.
Qed.

(** ** Slug validation and the storage *)

(** X6: [validate_slug] returns its argument, and does so exactly for the
    strings of 1 to 200 characters that consist of characters of
    [A-Za-z0-9_-], possibly followed by one newline; for every other string
    it raises a [ValueError]. *)
Theorem validate_slug_characterised (s : string) :
  (validate_slug s = Ok s
   <-> (1 <= String.length s <= 200)%nat
       /\ (all_slug_chars s = true
           \/ exists p, s = p +:+ newline_string /\ p <> EmptyString
                        /\ all_slug_chars p = true))
  /\ (forall r, validate_slug s = Ok r -> r = s)
  /\ (forall e, validate_slug s = Raise e -> exists msg, e = ValueError msg).
Proof.
  split_and!.
  - rewrite validate_slug_accepts. split.
    + intros (Hne & Hlen & H). split; [|done].
      destruct s; [done|]. simpl in *. lia.
    + intros ([Hpos Hlen] & H). split; [|done].
      intros ->. simpl in Hpos. lia.
  - intros r. apply validate_slug_Ok.
  - intros e. apply validate_slug_raises.
Qed.

(** X7: a slug that holds a character outside [A-Za-z0-9_-] other than a
    newline (a slash, a dot, a space, a backslash) is rejected with a
    [ValueError] before anything else happens: [load_post_by_slug] leaves
    the state as it is, with no file opened, no S3 client created and no
    object fetched. *)
Theorem bad_slug_never_reaches_storage
    (settings : Config.Settings) (fs : FileSystem) (boto3 : Boto3)
    (env : Collaborators) (slug : string) (c : ascii) :
  In c (list_ascii_of_string slug) ->
  is_slug_char c = false ->
  c <> newline ->
  exists msg,
    validate_slug slug = Raise (ValueError msg)
    /\ (forall now now' p,
          ContentStore.load_post_by_slug settings fs boto3 slug now now' p
          = (p, Raise (ValueError msg)))
    /\ (forall w, load_post_by_slug env slug w = (w, Raise (ValueError msg))).
Proof.
  intros Hin Hc Hnl.
  destruct (validate_slug_rejects_char slug c Hin Hc Hnl) as [msg Hv].
  exists msg. split_and!; [done| |].
  - intros now now' [w cl].
    unfold ContentStore.load_post_by_slug, bindS, liftW, lift. cbn.
    by rewrite Hv.
  - intros w. by apply load_post_by_slug_rejects_first.
Qed.

Lemma bad_slug_never_reaches_storage_witness :
  exists msg,
    validate_slug "../etc/passwd" = Raise (ValueError msg)
    /\ (forall now now' p,
          ContentStore.load_post_by_slug
            {| Config.app_name := "dev-blog-backend";
               Config.environment := Config.prod;
               Config.log_level := "INFO";
               Config.aws_region := "eu-west-1";
               Config.s3_bucket := EmptyString;
               Config.s3_prefix := "posts/";
               Config.content_dir := "/srv/content";
               Config.cache_ttl_seconds := 300;
               Config.cors_origins := ["*"] |}
            {| os_isdir := fun _ => true;
               os_listdir := fun _ => Listed [];
               os_realpath := fun path => path;
               read_text := fun _ => ReadOk "secret" |}
            {| boto3_client := None;
               list_objects_v2 := fun _ _ => S3Ok [];
               get_object := fun _ _ => S3Ok "body";
               decode_utf8 := fun body => Some body |}
            "../etc/passwd" now now' p
          = (p, Raise (ValueError msg)))
    /\ (forall w,
          load_post_by_slug Sample.env "../etc/passwd" w
          = (w, Raise (ValueError msg))).
Proof.
  apply (bad_slug_never_reaches_storage _ _ _ _ "../etc/passwd" "/");
    [simpl; auto|reflexivity|discriminate].
Defined.

(** ** The local directory *)

(** The slug a file name is listed under, if it is listed. *)
Definition slug_of_name (name : string) : option string :=
  if py_endswith (py_lower name) ".md" then
    let slug := py_rsplit1_first "." name in
    if SLUG_PATTERN_match slug then Some slug else None
  else None.

Lemma scan_names_result (names : list string) :
  forall (slugs : list string) (w : World),
    (LocalStore.scan_names names slugs w).2
    = Ok (slugs ++ omap slug_of_name names)
    /\ _posts_list_cache (LocalStore.scan_names names slugs w).1
       = _posts_list_cache w
    /\ _post_cache (LocalStore.scan_names names slugs w).1 = _post_cache w
    /\ _slug_map_cache (LocalStore.scan_names names slugs w).1
       = _slug_map_cache w
    /\ storage_reads (LocalStore.scan_names names slugs w).1
       = storage_reads w.
Proof.
  induction names as [|name names IH]; intros slugs w.
  - simpl. by rewrite app_nil_r.
  - cbn [LocalStore.scan_names omap list_omap]. unfold slug_of_name.
    destruct (py_endswith (py_lower name) ".md"); cbn [negb]; [|apply IH].
    destruct (SLUG_PATTERN_match (py_rsplit1_first "." name)).
    + destruct (IH (slugs ++ [py_rsplit1_first "." name]) w) as (-> & H).
      rewrite <- app_assoc. done.
    + unfold bindM. cbn [logger].
      match goal with |- context [LocalStore.scan_names names slugs ?W] =>
        destruct (IH slugs W) as (-> & -> & -> & -> & ->)
      end.
      done.
Qed.

(** The run of [_list_local_slugs], case by case. *)
Lemma list_local_slugs_run
    (settings : Config.Settings) (fs : FileSystem) (w : World) :
  let directory := Config.content_dir settings in
  LocalStore._list_local_slugs settings fs w
  = if os_isdir fs directory then
      match os_listdir fs directory with
      | Listed names =>
          ((logger DEBUG "Found %d posts in local directory"
              [AInt (Z.of_nat (length (omap slug_of_name names)))]
              (LocalStore.scan_names names [] w).1).1,
           Ok (omap slug_of_name names))
      | ListOSError msg =>
          ((logger ERROR "Failed to list local content directory: %s"
              [AStr msg] w).1, Raise ContentError)
      end
    else
      ((logger WARNING "Content directory does not exist: %s"
          [AStr directory] w).1, Ok []).
Proof.
  intros directory. unfold LocalStore._list_local_slugs. fold directory.
  destruct (os_isdir fs directory); cbn [negb]; [|reflexivity].
  destruct (os_listdir fs directory) as [names|msg]; [|reflexivity].
  unfold bindM at 1.
  destruct (scan_names_result names [] w) as (Hr & _).
  destruct (LocalStore.scan_names names [] w) as [w1 r1].
  cbn [fst snd] in *. subst r1. reflexivity.
Qed.

(** The names that [slug_of_name] files under a slug. *)
Lemma slug_of_name_In (names : list string) (slug : string) :
  In slug (omap slug_of_name names)
  <-> exists name,
        In name names
        /\ py_endswith (py_lower name) ".md" = true
        /\ slug = py_rsplit1_first "." name
        /\ SLUG_PATTERN_match slug = true.
Proof.
  rewrite <- list_elem_of_In, list_elem_of_omap.
  unfold slug_of_name. split.
  - intros (name & Hin & Hs). exists name.
    rewrite <- list_elem_of_In.
    destruct (py_endswith (py_lower name) ".md"); [|done].
    destruct (SLUG_PATTERN_match (py_rsplit1_first "." name)) eqn:E;
      [|done].
    injection Hs as <-. done.
  - intros (name & Hin & He & -> & Hm). exists name.
    rewrite list_elem_of_In. by rewrite He, Hm.
Qed.

(** X8: [_list_local_slugs] answers the empty list when the content
    directory does not exist and raises [ContentError], and nothing else,
    when it cannot be listed; otherwise it returns, in the order of the
    directory, exactly the slugs of the names that end in ".md" in any
    letter case and whose text before the last dot matches the slug
    pattern. It touches neither the caches nor the storage. *)
Theorem list_local_slugs_characterised
    (settings : Config.Settings) (fs : FileSystem) (w : World) :
  let directory := Config.content_dir settings in
  let r := LocalStore._list_local_slugs settings fs w in
  (os_isdir fs directory = false -> r.2 = Ok [])
  /\ (os_isdir fs directory = true ->
      forall msg, os_listdir fs directory = ListOSError msg ->
      r.2 = Raise ContentError)
  /\ (os_isdir fs directory = true ->
      forall names, os_listdir fs directory = Listed names ->
      r.2 = Ok (omap slug_of_name names)
      /\ forall slug,
           In slug (omap slug_of_name names)
           <-> exists name,
                 In name names
                 /\ py_endswith (py_lower name) ".md" = true
                 /\ slug = py_rsplit1_first "." name
                 /\ SLUG_PATTERN_match slug = true)
  /\ (forall e, r.2 = Raise e -> e = ContentError)
  /\ _posts_list_cache r.1 = _posts_list_cache w
  /\ _post_cache r.1 = _post_cache w
  /\ _slug_map_cache r.1 = _slug_map_cache w
  /\ storage_reads r.1 = storage_reads w.
Proof.
  intros directory r.
  pose proof (list_local_slugs_run settings fs w) as Er.
  cbv zeta in Er. fold directory r in Er.
  clearbody r. subst r.
  destruct (os_isdir fs directory) eqn:Hdir.
  - destruct (os_listdir fs directory) as [names|msg] eqn:Hls.
    + destruct (scan_names_result names [] w) as (_ & H1 & H2 & H3 & H4).
      cbn. split_and!; try done.
      intros _ names' [= <-]. split; [done|].
      intros slug. apply slug_of_name_In.
    + cbn. split_and!; try done.
      by intros e [= <-].
  - cbn. split_and!; done.
Qed.

Lemma list_local_slugs_characterised_witness :
  (LocalStore._list_local_slugs
     {| Config.app_name := "dev-blog-backend";
        Config.environment := Config.local;
        Config.log_level := "INFO";
        Config.aws_region := "eu-west-1";
        Config.s3_bucket := EmptyString;
        Config.s3_prefix := "posts/";
        Config.content_dir := "/srv/content";
        Config.cache_ttl_seconds := 300;
        Config.cors_origins := ["*"] |}
     {| os_isdir := fun _ => true;
        os_listdir :=
          fun _ => Listed ["valid-slug.md"; "invalid slug.md"; "notes.txt";
                           "Upper.MD"; "archive.tar.md"];
        os_realpath := fun path => path;
        read_text := fun _ => ReadOk "text" |}
     Sample.w0).2
  = Ok ["valid-slug"; "Upper"].
Proof.
  match goal with
  | |- (LocalStore._list_local_slugs ?st ?fs ?w).2 = _ =>
      destruct (list_local_slugs_characterised st fs w)
        as (_ & _ & Hok & _)
  end.
  destruct (Hok eq_refl _ eq_refl) as [-> _]. reflexivity.
Defined.

(** X9: a file "<slug>.md" of the content directory whose slug matches
    the slug pattern is listed under exactly that slug. *)
Theorem local_file_listed_under_its_slug
    (settings : Config.Settings) (fs : FileSystem) (w : World)
    (names : list string) (slug : string) :
  os_isdir fs (Config.content_dir settings) = true ->
  os_listdir fs (Config.content_dir settings) = Listed names ->
  In (slug +:+ ".md") names ->
  SLUG_PATTERN_match slug = true ->
  exists slugs,
    (LocalStore._list_local_slugs settings fs w).2 = Ok slugs
    /\ In slug slugs.
Proof.
  intros Hdir Hls Hin Hm.
  pose proof (list_local_slugs_run settings fs w) as Hr.
  cbv zeta in Hr. rewrite Hdir, Hls in Hr.
  exists (omap slug_of_name names). split; [by rewrite Hr|].
  apply slug_of_name_In. exists (slug +:+ ".md").
  split; [done|]. split.
  - rewrite py_lower_app. apply py_endswith_app.
  - rewrite (py_rsplit1_first_app "." slug "md" eq_refl). done.
Qed.

Lemma local_file_listed_under_its_slug_witness :
  exists slugs,
    (LocalStore._list_local_slugs
       {| Config.app_name := "dev-blog-backend";
          Config.environment := Config.local;
          Config.log_level := "INFO";
          Config.aws_region := "eu-west-1";
          Config.s3_bucket := EmptyString;
          Config.s3_prefix := "posts/";
          Config.content_dir := "/srv/content";
          Config.cache_ttl_seconds := 300;
          Config.cors_origins := ["*"] |}
       {| os_isdir := fun _ => true;
          os_listdir := fun _ => Listed ["notes.txt"; "test-post-one.md"];
          os_realpath := fun path => path;
          read_text := fun _ => ReadOk "text" |}
       Sample.w0).2 = Ok slugs
    /\ In "test-post-one" slugs.
Proof.
  apply (local_file_listed_under_its_slug _ _ _
           ["notes.txt"; "test-post-one.md"] "test-post-one");
    [reflexivity|reflexivity|simpl; auto|reflexivity].
Defined.

(** X10: [_load_local_post] raises only [ValueError], [FileNotFoundError]
    or [ContentError]; when the real path of the file does not start with
    the real path of the content directory it raises [ValueError] without
    opening anything; otherwise it opens the one file
    content_dir/<slug>.md and returns its text, raises
    [FileNotFoundError] when the file is missing, turns every other
    [OSError] into [ContentError], and lets a [UnicodeDecodeError] (a
    [ValueError]) through; it touches no cache. *)
Theorem load_local_post_behaviour
    (settings : Config.Settings) (fs : FileSystem) (slug : string)
    (w : World) :
  let path := os_path_join (Config.content_dir settings) (slug +:+ ".md") in
  let r := LocalStore._load_local_post settings fs slug w in
  (forall e, r.2 = Raise e ->
     (exists msg, e = ValueError msg) \/ e = FileNotFoundError
     \/ e = ContentError)
  /\ (String.prefix (os_realpath fs (Config.content_dir settings))
        (os_realpath fs path) = false ->
      r.2 = Raise (ValueError "Invalid slug")
      /\ storage_reads r.1 = storage_reads w)
  /\ (forall content, r.2 = Ok content ->
      read_text fs path = ReadOk content
      /\ storage_reads r.1 = storage_reads w ++ [path])
  /\ (forall msg, read_text fs path = ReadOSError msg ->
      r.2 <> Raise FileNotFoundError /\ forall text, r.2 <> Ok text)
  /\ (String.prefix (os_realpath fs (Config.content_dir settings))
        (os_realpath fs path) = true ->
      storage_reads r.1 = storage_reads w ++ [path]
      /\ (forall content,
            read_text fs path = ReadOk content -> r.2 = Ok content)
      /\ (forall msg,
            read_text fs path = ReadFileNotFoundError msg ->
            r.2 = Raise FileNotFoundError)
      /\ (forall msg,
            read_text fs path = ReadOSError msg -> r.2 = Raise ContentError)
      /\ (forall msg,
            read_text fs path = ReadUnicodeDecodeError msg ->
            r.2 = Raise (ValueError msg)))
  /\ _posts_list_cache r.1 = _posts_list_cache w
  /\ _post_cache r.1 = _post_cache w
  /\ _slug_map_cache r.1 = _slug_map_cache w.
Proof.
  intros path r. subst r. unfold LocalStore._load_local_post. fold path.
  destruct (String.prefix _ (os_realpath fs path)); cbn [negb].
  - unfold bindM at 1. cbn [record_storage_read].
    destruct (read_text fs path) as [text|msg|msg|msg]; cbn;
      split_and!; try done; try (intros e [= <-]; eauto);
      try (intros ? [= <-]; done); try (intros ? [= <-]; done);
      intros _; split_and!; try done; by intros ? [= <-].
  - cbn. split_and!; try done.
    intros e [= <-]. eauto.
Qed.

(** ** The bucket *)

Section S3Facts.
Variable settings : Config.Settings.
Variable boto3 : Boto3.

(** What [list_markdown_keys] yields, the state left aside. *)
Definition listed_keys (prefix : option string) (p : Process)
  : result (list string) :=
  match _s3_client p, boto3_client boto3 with
  | None, Some e => Raise e
  | _, _ =>
      if str_truthy (Config.s3_bucket settings) then
        match list_objects_v2 boto3 (Config.s3_bucket settings)
                (default (Config.s3_prefix settings) prefix) with
        | S3Ok pages => Ok (S3Client.markdown_keys pages)
        | _ => Raise S3Error
        end
      else Ok []
  end.

Lemma get_s3_client_run (p : Process) :
  (S3Client.get_s3_client settings boto3 p).2
  = match _s3_client p, boto3_client boto3 with
    | Some c, _ => Ok c
    | None, Some e => Raise e
    | None, None => Ok S3ClientHandle
    end
  /\ _posts_list_cache (world (S3Client.get_s3_client settings boto3 p).1)
     = _posts_list_cache (world p)
  /\ _post_cache (world (S3Client.get_s3_client settings boto3 p).1)
     = _post_cache (world p)
  /\ _slug_map_cache (world (S3Client.get_s3_client settings boto3 p).1)
     = _slug_map_cache (world p)
  /\ storage_reads (world (S3Client.get_s3_client settings boto3 p).1)
     = storage_reads (world p).
Proof.
  unfold S3Client.get_s3_client.
  destruct (_s3_client p) as [c|]; [done|].
  unfold bindS, loggerS, liftW. cbn.
  destruct (boto3_client boto3); done.
Qed.

Lemma list_markdown_keys_run (prefix : option string) (p : Process) :
  (S3Client.list_markdown_keys settings boto3 prefix p).2
  = listed_keys prefix p
  /\ _posts_list_cache
       (world (S3Client.list_markdown_keys settings boto3 prefix p).1)
     = _posts_list_cache (world p)
  /\ _post_cache
       (world (S3Client.list_markdown_keys settings boto3 prefix p).1)
     = _post_cache (world p)
  /\ _slug_map_cache
       (world (S3Client.list_markdown_keys settings boto3 prefix p).1)
     = _slug_map_cache (world p)
  /\ storage_reads
       (world (S3Client.list_markdown_keys settings boto3 prefix p).1)
     = storage_reads (world p).
Proof.
  unfold S3Client.list_markdown_keys, listed_keys, S3Client.get_s3_client,
    bindS, loggerS, liftW, retS, raiseS.
  destruct (_s3_client p) as [c|], (boto3_client boto3) as [e|];
    cbn; try done;
    (destruct (str_truthy (Config.s3_bucket settings)); cbn; [|done]);
    (destruct (list_objects_v2 boto3 _ _) as [pages|code message text|text];
     cbn; [done| |done]);
    repeat match goal with
           | |- context [if ?c then _ else _] => destruct c
           end; cbn; done.
Qed.

Lemma markdown_keys_In (pages : list (option (list string))) (key : string) :
  In key (S3Client.markdown_keys pages)
  <-> py_endswith (py_lower key) ".md" = true
      /\ exists ks, In (Some ks) pages /\ In key ks.
Proof.
  unfold S3Client.markdown_keys. rewrite List.filter_In, List.in_concat.
  split.
  - intros [(l & Hl & Hk) He]. split; [done|].
    apply List.in_map_iff in Hl as ([ks|] & <- & Hp); [eauto|done].
  - intros [He (ks & Hp & Hk)]. split; [|done].
    exists ks. split; [|done]. apply List.in_map_iff. by exists (Some ks).
Qed.

(** X11: once the client is there, [list_markdown_keys] returns the empty
    list when no bucket is configured, whatever a listing would give, and
    otherwise the keys of the listed pages that end in ".md" in any letter
    case, in the order of the pages (a page without Contents contributes
    nothing); a failed listing raises [S3Error], and apart from an
    exception of [boto3.client] itself that is the only exception; it
    touches neither the caches nor the storage. *)
Theorem list_markdown_keys_behaviour (prefix : option string) (p : Process) :
  let bucket := Config.s3_bucket settings in
  let r := S3Client.list_markdown_keys settings boto3 prefix p in
  (forall keys, r.2 = Ok keys ->
     (bucket = EmptyString /\ keys = [])
     \/ exists pages,
          list_objects_v2 boto3 bucket
            (default (Config.s3_prefix settings) prefix) = S3Ok pages
          /\ forall key,
               In key keys
               <-> py_endswith (py_lower key) ".md" = true
                   /\ exists ks, In (Some ks) pages /\ In key ks)
  /\ (forall e, r.2 = Raise e ->
       e = S3Error \/ (_s3_client p = None /\ boto3_client boto3 = Some e))
  /\ _posts_list_cache (world r.1) = _posts_list_cache (world p)
  /\ _post_cache (world r.1) = _post_cache (world p)
  /\ _slug_map_cache (world r.1) = _slug_map_cache (world p)
  /\ storage_reads (world r.1) = storage_reads (world p)
  /\ (_s3_client p = None ->
      forall e, boto3_client boto3 = Some e -> r.2 = Raise e)
  /\ (is_Some (_s3_client p) \/ boto3_client boto3 = None ->
      (bucket = EmptyString -> r.2 = Ok [])
      /\ (bucket <> EmptyString ->
          match list_objects_v2 boto3 bucket
                  (default (Config.s3_prefix settings) prefix) with
          | S3Ok pages =>
              r.2 = Ok (List.filter
                          (fun key => py_endswith (py_lower key) ".md")
                          (concat (map (default []) pages)))
          | _ => r.2 = Raise S3Error
          end)).
Proof.
  intros bucket r.
  destruct (list_markdown_keys_run prefix p) as (Hr & H1 & H2 & H3 & H4).
  fold r in Hr, H1, H2, H3, H4. clearbody r.
  split_and!; try done.
  - intros keys. rewrite Hr. unfold listed_keys. fold bucket.
    destruct (_s3_client p), (boto3_client boto3); try done;
      (destruct bucket eqn:Eb; cbn [str_truthy];
       [intros [= <-]; by left|]);
      (destruct (list_objects_v2 boto3 _ _) as [pages| |] eqn:El; try done);
      intros [= <-]; right; exists pages; (split; [done|]);
      intros key; apply markdown_keys_In.
  - intros e. rewrite Hr. unfold listed_keys.
    destruct (_s3_client p), (boto3_client boto3); try done;
      try (intros [= <-]; by right);
      (destruct (str_truthy (Config.s3_bucket settings)); [|done]);
      (destruct (list_objects_v2 boto3 _ _); try done);
      intros [= <-]; by left.
  - intros Hnone e He. rewrite Hr. unfold listed_keys.
    by rewrite Hnone, He.
  - intros Hclient.
    assert (Hk : r.2
                 = if str_truthy bucket then
                     match list_objects_v2 boto3 bucket
                             (default (Config.s3_prefix settings) prefix) with
                     | S3Ok pages => Ok (S3Client.markdown_keys pages)
                     | _ => Raise S3Error
                     end
                   else Ok []).
    { rewrite Hr. unfold listed_keys. fold bucket.
      destruct Hclient as [[c Hc]|Hb]; [by rewrite Hc|].
      rewrite Hb. by destruct (_s3_client p). }
    split.
    + intros Hb. rewrite Hk, Hb. reflexivity.
    + intros Hb. rewrite Hk.
      destruct bucket as [|a b]; [done|]. cbn [str_truthy].
      by destruct (list_objects_v2 boto3 _ _).
Qed.

(** The slug a key is filed under, if it is. *)
Definition slug_of_key (key : string) : option string :=
  let filename := py_split_last "/" key in
  if py_endswith (py_lower filename) ".md"
  then Some (py_rsplit1_first "." filename) else None.

Lemma add_key_slug_of_key (m : gmap string string) (key : string) :
  S3Client.add_key m key
  = match slug_of_key key with
    | Some slug => <[slug := key]> m
    | None => m
    end.
Proof.
  unfold S3Client.add_key, slug_of_key.
  by destruct (py_endswith (py_lower (py_split_last "/" key)) ".md").
Qed.

Lemma fold_add_key_lookup (keys : list string) :
  forall (m : gmap string string) (slug key : string),
    fold_left S3Client.add_key keys m !! slug = Some key ->
    m !! slug = Some key \/ (In key keys /\ slug_of_key key = Some slug).
Proof.
  induction keys as [|k keys IH]; intros m slug key H; simpl in *; [by left|].
  apply IH in H as [H|[Hin Hs]]; [|right; auto].
  rewrite add_key_slug_of_key in H.
  destruct (slug_of_key k) as [s0|] eqn:E; [|by left].
  destruct (decide (s0 = slug)) as [->|Hne].
  - rewrite lookup_insert_eq in H. injection H as ->. right. auto.
  - rewrite lookup_insert_ne in H by done. by left.
Qed.

Lemma fold_add_key_frame (keys : list string) :
  forall (m : gmap string string) (slug : string),
    (forall k, In k keys -> slug_of_key k <> Some slug) ->
    fold_left S3Client.add_key keys m !! slug = m !! slug.
Proof.
  induction keys as [|k keys IH]; intros m slug H; simpl; [done|].
  rewrite IH by (intros k' Hk'; apply H; by right).
  rewrite add_key_slug_of_key.
  destruct (slug_of_key k) as [s0|] eqn:E; [|done].
  apply lookup_insert_ne. intros ->. by apply (H k); [left|].
Qed.

Lemma fold_add_key_last (l1 l2 : list string) (m : gmap string string)
    (slug key : string) :
  slug_of_key key = Some slug ->
  (forall k, In k l2 -> slug_of_key k <> Some slug) ->
  fold_left S3Client.add_key (l1 ++ key :: l2) m !! slug = Some key.
Proof.
  intros Hs Hl2. rewrite fold_left_app. simpl.
  rewrite fold_add_key_frame by done.
  rewrite add_key_slug_of_key, Hs. apply lookup_insert_eq.
Qed.

Lemma get_slug_to_key_map_result (now now' : Q) (p : Process) :
  (S3Client.get_slug_to_key_map settings boto3 now now' p).2
  = match (Cache.get (_slug_map_cache (world p)) "slug_map" now).2 with
    | Some cached => Ok cached
    | None =>
        match listed_keys None p with
        | Ok keys => Ok (S3Client.build_slug_map keys)
        | Raise e => Raise e
        end
    end.
Proof.
  unfold S3Client.get_slug_to_key_map. unfold bindS at 1. unfold liftW at 1.
  unfold get_slug_map_cached.
  destruct (Cache.get (_slug_map_cache (world p)) "slug_map" now)
    as [c [cached|]]; [reflexivity|].
  cbn [snd]. unfold bindS at 1.
  match goal with
  | |- context [S3Client.list_markdown_keys settings boto3 None ?P] =>
      destruct (list_markdown_keys_run None P) as (Hr & _);
      destruct (S3Client.list_markdown_keys settings boto3 None P)
        as [p2 r2]
  end.
  cbn [fst snd] in Hr. subst r2.
  change (listed_keys None _) with (listed_keys None p).
  destruct (listed_keys None p); reflexivity.
Qed.

Lemma get_slug_to_key_map_storage (now now' : Q) (p : Process) :
  storage_reads
    (world (S3Client.get_slug_to_key_map settings boto3 now now' p).1)
  = storage_reads (world p).
Proof.
  unfold S3Client.get_slug_to_key_map. unfold bindS at 1. unfold liftW at 1.
  unfold get_slug_map_cached.
  destruct (Cache.get (_slug_map_cache (world p)) "slug_map" now)
    as [c [cached|]]; [reflexivity|].
  unfold bindS at 1.
  match goal with
  | |- context [S3Client.list_markdown_keys settings boto3 None ?P] =>
      destruct (list_markdown_keys_run None P) as (_ & _ & _ & _ & Hs);
      destruct (S3Client.list_markdown_keys settings boto3 None P)
        as [p2 [keys|e]]
  end; cbn in Hs |- *; done.
Qed.

(** X12: the map [get_slug_to_key_map] builds on a cache miss files each
    listed key under the text that stands before the last dot of the part
    after its last slash: every entry of the map is such a key, and of the
    keys with the same such text the one listed last is the one found. *)
Theorem slug_map_built_from_keys (now now' : Q) (p : Process)
    (slug_map : gmap string string) :
  (Cache.get (_slug_map_cache (world p)) "slug_map" now).2 = None ->
  (S3Client.get_slug_to_key_map settings boto3 now now' p).2 = Ok slug_map ->
  exists keys,
    listed_keys None p = Ok keys
    /\ (forall slug key,
          slug_map !! slug = Some key ->
          In key keys
          /\ py_endswith (py_lower (py_split_last "/" key)) ".md" = true
          /\ slug = py_rsplit1_first "." (py_split_last "/" key))
    /\ (forall l1 key l2 slug,
          keys = l1 ++ key :: l2 ->
          slug_of_key key = Some slug ->
          (forall k, In k l2 -> slug_of_key k <> Some slug) ->
          slug_map !! slug = Some key).
Proof.
  intros Hmiss. rewrite get_slug_to_key_map_result, Hmiss.
  destruct (listed_keys None p) as [keys|e]; [|done].
  intros [= <-]. exists keys. split_and!; [done| |].
  - intros slug key H. unfold S3Client.build_slug_map in H.
    apply fold_add_key_lookup in H as [H|[Hin Hs]]; [done|].
    split; [done|]. unfold slug_of_key in Hs.
    destruct (py_endswith (py_lower (py_split_last "/" key)) ".md");
      [|done].
    by injection Hs as <-.
  - intros l1 key l2 slug -> Hs Hl2. by apply fold_add_key_last.
Qed.

(** X13: a listed key "<dir>/<slug>.md", with a slug that holds no slash,
    is found under its slug in the map built on a cache miss, unless a key
    listed after it is filed under the same slug. *)
Theorem slug_map_round_trip (now now' : Q) (p : Process)
    (l1 l2 : list string) (dir slug : string) :
  (Cache.get (_slug_map_cache (world p)) "slug_map" now).2 = None ->
  listed_keys None p = Ok (l1 ++ (dir +:+ "/" +:+ slug +:+ ".md") :: l2) ->
  py_contains_char "/" slug = false ->
  (forall k, In k l2 -> slug_of_key k <> Some slug) ->
  exists slug_map,
    (S3Client.get_slug_to_key_map settings boto3 now now' p).2 = Ok slug_map
    /\ slug_map !! slug = Some (dir +:+ "/" +:+ slug +:+ ".md").
Proof.
  intros Hmiss Hkeys Hslash Hl2.
  rewrite get_slug_to_key_map_result, Hmiss, Hkeys.
  eexists. split; [reflexivity|].
  apply fold_add_key_last; [|done].
  unfold slug_of_key.
  assert (Hf : py_split_last "/" (dir +:+ "/" +:+ slug +:+ ".md")
               = slug +:+ ".md").
  { apply py_split_last_app. rewrite py_contains_char_app, Hslash. done. }
  rewrite Hf, py_lower_app, py_endswith_app.
  by rewrite (py_rsplit1_first_app "." slug "md" eq_refl).
Qed.

Lemma get_slug_to_key_map_cache (now now' : Q) (p : Process)
    (slug_map : gmap string string) :
  (Cache.get (_slug_map_cache (world p)) "slug_map" now).2 = None ->
  (S3Client.get_slug_to_key_map settings boto3 now now' p).2 = Ok slug_map ->
  _slug_map_cache
    (world (S3Client.get_slug_to_key_map settings boto3 now now' p).1)
  = Cache.set (Cache.get (_slug_map_cache (world p)) "slug_map" now).1
      "slug_map" slug_map now'.
Proof.
  intros Hmiss.
  remember (S3Client.get_slug_to_key_map settings boto3 now now' p)
    as run eqn:E.
  unfold S3Client.get_slug_to_key_map in E. unfold bindS at 1 in E.
  unfold liftW at 1 in E. unfold get_slug_map_cached in E.
  destruct (Cache.get (_slug_map_cache (world p)) "slug_map" now)
    as [c [cached|]]; [discriminate|].
  cbn [fst snd] in *. unfold bindS at 1 in E.
  match type of E with
  | context [S3Client.list_markdown_keys settings boto3 None ?P] =>
      destruct (list_markdown_keys_run None P) as (_ & _ & _ & Hc & _);
      destruct (S3Client.list_markdown_keys settings boto3 None P)
        as [p2 [keys|e]]
  end; subst run; cbn in Hc |- *; [|discriminate].
  intros [= <-]. by rewrite Hc.
Qed.

(** X14: while the map stored by [get_slug_to_key_map] is live in the
    cache, a later call returns it without asking S3: its result is the
    same map for every behaviour of boto3. *)
Theorem slug_map_served_from_cache (now now' now2 now2' : Q) (p : Process)
    (slug_map : gmap string string) (settings2 : Config.Settings)
    (boto3_2 : Boto3) :
  (Cache.get (_slug_map_cache (world p)) "slug_map" now).2 = None ->
  (S3Client.get_slug_to_key_map settings boto3 now now' p).2 = Ok slug_map ->
  (now2 < now' + Cache.ttl (_slug_map_cache (world p)))%Q ->
  (S3Client.get_slug_to_key_map settings2 boto3_2 now2 now2'
     (S3Client.get_slug_to_key_map settings boto3 now now' p).1).2
  = Ok slug_map.
Proof.
  intros Hmiss Hok Hlive.
  pose proof (get_slug_to_key_map_cache now now' p slug_map Hmiss Hok) as Hc.
  unfold S3Client.get_slug_to_key_map at 1. unfold bindS at 1.
  unfold liftW at 1. unfold get_slug_map_cached. rewrite Hc.
  pose proof (get_after_set_live
                (Cache.get (_slug_map_cache (world p)) "slug_map" now).1
                "slug_map" slug_map now' now2) as Hget.
  rewrite ttl_get in Hget. specialize (Hget Hlive).
  destruct (Cache.get (Cache.set _ "slug_map" slug_map now') "slug_map" now2)
    as [c [m|]]; cbn in Hget; [|discriminate].
  injection Hget as ->. reflexivity.
Qed.

End S3Facts.

(** ** The storage behind content_store.py *)

Section StoreFacts.
Variable settings : Config.Settings.
Variable fs : FileSystem.
Variable boto3 : Boto3.

Lemma try_exceptS_not_caught {A : Type} (m : MS A) (caught : exn -> bool)
    (handler : exn -> MS A) (p : Process) (e : exn) :
  (forall e' q, (handler e' q).2 <> Raise e) ->
  caught e = true ->
  (try_exceptS m caught handler p).2 <> Raise e.
Proof.
  intros Hh Hc. unfold try_exceptS.
  destruct (m p) as [p' [a|e']]; [done|].
  destruct (caught e') eqn:E; [apply Hh|].
  cbn. intros [= ->]. congruence.
Qed.

Lemma liftW_result {A : Type} (m : M A) (p : Process) :
  (liftW m p).2 = (m (world p)).2.
Proof. unfold liftW. by destruct (m (world p)). Qed.

Lemma list_local_slugs_raises (w : World) (e : exn) :
  (LocalStore._list_local_slugs settings fs w).2 = Raise e ->
  e = ContentError.
Proof.
  unfold LocalStore._list_local_slugs.
  destruct (os_isdir fs _); cbn [negb]; [|done].
  destruct (os_listdir fs _) as [names|msg]; [|by intros [= <-]].
  unfold bindM at 1.
  destruct (scan_names_result names [] w) as (Hr & _).
  destruct (LocalStore.scan_names names [] w) as [w1 r1].
  cbn [snd] in Hr. subst r1. done.
Qed.

Lemma load_local_post_raises (slug : string) (w : World) (e : exn) :
  (LocalStore._load_local_post settings fs slug w).2 = Raise e ->
  e <> S3Error.
Proof.
  unfold LocalStore._load_local_post.
  destruct (String.prefix _ _); cbn [negb]; [|by intros [= <-]].
  unfold bindM at 1. cbn [record_storage_read].
  destruct (read_text fs _); cbn; try done; by intros [= <-].
Qed.

(** X16: for a slug that the slug map does not hold, [_load_s3_post]
    raises [FileNotFoundError] and fetches no object. *)
Theorem load_s3_post_unknown_slug
    (slug : string) (now now' : Q) (p : Process)
    (slug_map : gmap string string) :
  (S3Client.get_slug_to_key_map settings boto3 now now' p).2 = Ok slug_map ->
  slug_map !! slug = None ->
  (ContentStore._load_s3_post settings boto3 slug now now' p).2
  = Raise FileNotFoundError
  /\ storage_reads
       (world (ContentStore._load_s3_post settings boto3 slug now now' p).1)
     = storage_reads (world p).
Proof.
  intros Hmap Hnone.
  pose proof (get_slug_to_key_map_storage settings boto3 now now' p) as Hs.
  remember (ContentStore._load_s3_post settings boto3 slug now now' p)
    as run eqn:E.
  unfold ContentStore._load_s3_post, try_exceptS in E.
  unfold bindS at 1 in E.
  destruct (S3Client.get_slug_to_key_map settings boto3 now now' p)
    as [p1 r1]. cbn [fst snd] in *. subst r1. rewrite Hnone in E.
  unfold bindS, loggerS, liftW, raiseS in E. cbn in E. subst run.
  cbn. done.
Qed.

End StoreFacts.

(** ** The single-post handler *)

Section HandlerFacts.
Variable env : Collaborators.

(** The run of [get_post], case by case. *)
Lemma get_post_run (slug : string) (now now' : Q) (w : World) :
  let run := get_post env slug now now' w in
  let c := (Cache.get (_post_cache w) slug now).1 in
  if SLUG_PATTERN_match slug then
    match (Cache.get (_post_cache w) slug now).2 with
    | Some cached =>
        run.2 = Ok (add_cache_headers env
                      {| json_status := 200; json_headers := ∅;
                         json_body := DetailContent cached |}
                      (Some (generate_etag env (post_content cached))))
        /\ _post_cache run.1 = c
        /\ storage_reads run.1 = storage_reads w
    | None =>
        match validate_slug slug with
        | Raise e =>
            run.2 = Raise e /\ _post_cache run.1 = c
            /\ storage_reads run.1 = storage_reads w
        | Ok _ =>
            storage_reads run.1 = storage_reads w ++ [slug]
            /\ match External.backend_load env slug with
               | Raise FileNotFoundError =>
                   run.2 = Raise (HTTPException 404 "Post not found")
                   /\ _post_cache run.1 = c
               | Raise e => run.2 = Raise e /\ _post_cache run.1 = c
               | Ok raw =>
                   match External.frontmatter_loads env raw with
                   | Raise YAMLError =>
                       run.2 = Raise (ValueError
                                 ("Invalid frontmatter format in post: "
                                  +:+ slug))
                       /\ _post_cache run.1 = c
                   | Raise e => run.2 = Raise e /\ _post_cache run.1 = c
                   | Ok (meta_dict, content) =>
                       match make_post_meta env slug meta_dict with
                       | Raise e => run.2 = Raise e /\ _post_cache run.1 = c
                       | Ok m =>
                           let detail :=
                             {| meta := m; post_content := content |} in
                           run.2
                           = Ok (add_cache_headers env
                                   {| json_status := 200;
                                      json_headers := ∅;
                                      json_body := DetailContent detail |}
                                   (Some (generate_etag env content)))
                           /\ _post_cache run.1
                              = Cache.set c slug detail now'
                       end
                   end
               end
        end
    end
  else
    run.2 = Raise (HTTPException 400
              "Invalid slug format. Use only alphanumeric characters, hyphens, and underscores.")
    /\ _post_cache run.1 = _post_cache w
    /\ _posts_list_cache run.1 = _posts_list_cache w
    /\ storage_reads run.1 = storage_reads w.
Proof.
  intros run c. subst c.
  remember run as r eqn:E. subst run. unfold get_post in E.
  destruct (SLUG_PATTERN_match slug); cbn [negb] in E;
    [|subst r; by cbn].
  unfold bindM at 1 in E. unfold get_post_cached in E.
  destruct (Cache.get (_post_cache w) slug now) as [c [cached|]];
    cbn [fst snd]; [subst r; by cbn|].
  unfold bindM at 1 in E.
  unfold try_except, load_post_by_slug, read_from_storage, lift in E.
  unfold bindM at 1 in E.
  pose proof (validate_slug_raises slug) as Hv.
  destruct (validate_slug slug) as [s0|e0];
    [|destruct (Hv e0 eq_refl) as [msg ->]; subst r; by cbn].
  unfold bindM at 1 in E. cbn [record_storage_read] in E.
  destruct (External.backend_load env slug) as [raw|e1].
  - unfold bindM at 1 in E. unfold parse_frontmatter in E.
    destruct (External.frontmatter_loads env raw)
      as [[meta_dict content]|e2].
    + cbn [ret] in E. unfold bindM at 1 in E. unfold lift in E.
      destruct (make_post_meta env slug meta_dict) as [m|e3];
        subst r; by cbn.
    + destruct e2; subst r; by cbn.
  - destruct e1; subst r; by cbn.
Qed.

(** What [get_post] answers when it answers. *)
Lemma get_post_Ok
    (slug : string) (now now' : Q) (w : World) (response : JSONResponse) :
  (get_post env slug now now' w).2 = Ok response ->
  exists detail,
    response = add_cache_headers env
                 {| json_status := 200; json_headers := ∅;
                    json_body := DetailContent detail |}
                 (Some (generate_etag env (post_content detail))).
Proof.
  intros Hok.
  pose proof (get_post_run slug now now' w) as Hrun. cbv zeta in Hrun.
  destruct (SLUG_PATTERN_match slug);
    [|destruct Hrun as [Hr _]; congruence].
  destruct (Cache.get (_post_cache w) slug now).2 as [cached|].
  { destruct Hrun as [Hr _]. exists cached. congruence. }
  destruct (validate_slug slug);
    [|destruct Hrun as [Hr _]; congruence].
  destruct Hrun as [_ Hrun].
  destruct (External.backend_load env slug) as [raw|e1].
  - destruct (External.frontmatter_loads env raw)
      as [[meta_dict content]|e2].
    + destruct (make_post_meta env slug meta_dict) as [m|e3];
        destruct Hrun as [Hr _]; [|congruence].
      exists {| meta := m; post_content := content |}. cbn. congruence.
    + destruct e2; destruct Hrun as [Hr _]; congruence.
  - destruct e1; destruct Hrun as [Hr _]; congruence.
Qed.

(** X17: every answer of [get_post], from the cache or not, has status
    200, the header Cache-Control "public, max-age=<ttl>" and as ETag the
    quoted digest of the content of the post it carries: the ETag of a post
    does not depend on its metadata. *)
Theorem get_post_response_headers
    (slug : string) (now now' : Q) (w : World) (response : JSONResponse) :
  (get_post env slug now now' w).2 = Ok response ->
  exists detail,
    json_body response = DetailContent detail
    /\ json_status response = 200
    /\ json_headers response !! "ETag"
       = Some (dquote +:+ External.md5_hexdigest env (post_content detail)
               +:+ dquote)
    /\ json_headers response !! "Cache-Control"
       = Some ("public, max-age="
               +:+ py_str_int (External.cache_ttl_seconds env)).
Proof.
  intros Hok.
  destruct (get_post_Ok slug now now' w response Hok) as [detail ->].
  exists detail.
  unfold add_cache_headers. cbn [json_body json_status json_headers].
  rewrite generate_etag_truthy. split_and!; try done.
Qed.

(** The run of [list_posts], case by case. *)
Lemma list_posts_run (limit offset : Z) (now now' : Q) (w : World) :
  let run := list_posts env limit offset now now' w in
  let c := (Cache.get (_posts_list_cache w) "posts_list" now).1 in
  match (Cache.get (_posts_list_cache w) "posts_list" now).2 with
  | Some all_summaries =>
      run.2 = Ok (page_response env all_summaries limit offset)
      /\ _posts_list_cache run.1 = c
      /\ storage_reads run.1 = storage_reads w
      /\ warnings run.1 = warnings w
  | None =>
      match External.backend_list_slugs env with
      | Raise e => run.2 = Raise e /\ _posts_list_cache run.1 = c
      | Ok slugs =>
          match first_fatal env slugs with
          | Some e => run.2 = Raise e /\ _posts_list_cache run.1 = c
          | None =>
              run.2
              = Ok (page_response env
                      (sort_by_date_desc (loaded_summaries env slugs))
                      limit offset)
              /\ _posts_list_cache run.1
                 = Cache.set c "posts_list"
                     (sort_by_date_desc (loaded_summaries env slugs)) now'
          end
      end
  end.
Proof.
  intros run c. subst c.
  remember run as r eqn:E. subst run. unfold list_posts in E.
  unfold bindM at 1 in E. unfold get_posts_list_cached in E.
  destruct (Cache.get (_posts_list_cache w) "posts_list" now)
    as [c [all_summaries|]]; cbn [fst snd].
  { subst r. cbn. split_and!; try done.
    unfold warnings. cbn. rewrite List.filter_app. cbn.
    by rewrite app_nil_r. }
  unfold list_post_slugs, lift in E.
  destruct (External.backend_list_slugs env) as [slugs|e];
    [|subst r; by cbn].
  do 3 unfold bindM at 1 in E. cbn [logger] in E. unfold bindM at 1 in E.
  match type of E with
  | context [load_all_summaries env slugs [] ?W] =>
      destruct (load_all_summaries_spec env slugs [] W) as (Hr & _ & Hc);
      destruct (load_all_summaries env slugs [] W) as [w2 r2]
  end.
  cbn [fst snd] in Hr, Hc. subst r2.
  destruct (first_fatal env slugs); subst r; cbn; by rewrite Hc.
Qed.

(** X18: an error is never cached. When [get_post] raises, the per-post
    cache is left as the lookup left it, with no entry written; and when
    [list_posts] raises, so is the posts-list cache. *)
Theorem errors_are_not_cached
    (slug : string) (limit offset : Z) (now now' : Q) (w : World) (e : exn) :
  ((get_post env slug now now' w).2 = Raise e ->
   _post_cache (get_post env slug now now' w).1 = _post_cache w
   \/ _post_cache (get_post env slug now now' w).1
      = (Cache.get (_post_cache w) slug now).1)
  /\ ((list_posts env limit offset now now' w).2 = Raise e ->
      _posts_list_cache (list_posts env limit offset now now' w).1
      = (Cache.get (_posts_list_cache w) "posts_list" now).1).
Proof.
  split.
  - pose proof (get_post_run slug now now' w) as Hrun. cbv zeta in Hrun.
    intros He.
    destruct (SLUG_PATTERN_match slug); [|left; apply Hrun].
    right.
    destruct (Cache.get (_post_cache w) slug now).2; [apply Hrun|].
    destruct (validate_slug slug); [|apply Hrun].
    destruct Hrun as [_ Hrun].
    destruct (External.backend_load env slug) as [raw|e1].
    + destruct (External.frontmatter_loads env raw)
        as [[meta_dict content]|e2].
      * destruct (make_post_meta env slug meta_dict);
          [destruct Hrun as [Hr _]; congruence|apply Hrun].
      * destruct e2; apply Hrun.
    + destruct e1; apply Hrun.
  - pose proof (list_posts_run limit offset now now' w) as Hrun.
    cbv zeta in Hrun. intros He.
    destruct (Cache.get (_posts_list_cache w) "posts_list" now).2;
      [destruct Hrun as [Hr _]; congruence|].
    destruct (External.backend_list_slugs env) as [slugs|]; [|apply Hrun].
    destruct (first_fatal env slugs); [apply Hrun|].
    destruct Hrun as [Hr _]. congruence.
Qed.

(** X19: what a client of /post/{slug} is answered when the post is not
    in the cache and its slug is valid: 404 "Post not found" when the
    storage has no such post, 400 with the code VALIDATION_ERROR when its
    front matter is malformed, and 503 "Content temporarily unavailable"
    when the storage fails with [ContentError]. *)
Theorem get_post_error_answers (slug : string) (now now' : Q) (w : World) :
  SLUG_PATTERN_match slug = true ->
  validate_slug slug = Ok slug ->
  (Cache.get (_post_cache w) slug now).2 = None ->
  let r := (route ("/post/" +:+ slug) (get_post env slug now now') w).2 in
  (External.backend_load env slug = Raise FileNotFoundError ->
   r = error_response 404 "Post not found" None)
  /\ (forall raw,
        External.backend_load env slug = Ok raw ->
        External.frontmatter_loads env raw = Raise YAMLError ->
        r = error_response 400
              ("Invalid frontmatter format in post: " +:+ slug)
              (Some "VALIDATION_ERROR"))
  /\ (External.backend_load env slug = Raise ContentError ->
      r = error_response 503 "Content temporarily unavailable"
            (Some "CONTENT_ERROR")).
Proof.
  intros Hpat Hvalid Hmiss r. subst r.
  pose proof (get_post_run slug now now' w) as Hrun. cbv zeta in Hrun.
  rewrite Hpat, Hmiss, Hvalid in Hrun. destruct Hrun as [_ Hrun].
  unfold route.
  destruct (get_post env slug now now' w) as [w1 r1]. cbn [fst snd] in *.
  split_and!.
  - intros Hl. rewrite Hl in Hrun. destruct Hrun as [-> _]. reflexivity.
  - intros raw Hl Hp. rewrite Hl, Hp in Hrun. destruct Hrun as [-> _].
    reflexivity.
  - intros Hl. rewrite Hl in Hrun. destruct Hrun as [-> _]. reflexivity.
Qed.

(** X20: a listing served from the cache asks the storage for nothing and
    logs no warning: it pages the cached listing as it is. *)
Theorem list_posts_from_cache
    (limit offset : Z) (now now' : Q) (w : World)
    (all_summaries : list PostSummary) :
  (Cache.get (_posts_list_cache w) "posts_list" now).2 = Some all_summaries ->
  (list_posts env limit offset now now' w).2
  = Ok (page_response env all_summaries limit offset)
  /\ storage_reads (list_posts env limit offset now now' w).1
     = storage_reads w
  /\ warnings (list_posts env limit offset now now' w).1 = warnings w.
Proof.
  intros Hhit.
  pose proof (list_posts_run limit offset now now' w) as Hrun.
  cbv zeta in Hrun. rewrite Hhit in Hrun.
  destruct Hrun as (H1 & _ & H2 & H3). done.
Qed.

(** The summaries of a listing answer. *)
Definition page_posts (response : JSONResponse) : list PostSummary :=
  match json_body response with
  | ListContent r => posts r
  | _ => []
  end.

Lemma take_drop_tile {A : Type} (l : list A) (a n m : nat) :
  take n (drop a l) ++ take m (drop (a + n) l) = take (n + m) (drop a l).
Proof.
  rewrite <- drop_drop.
  generalize (drop a l). clear l. intros l.
  revert l. induction n as [|n IH]; intros l; [done|].
  destruct l as [|x l]; simpl.
  - by rewrite take_nil.
  - by rewrite IH.
Qed.

(** X21: consecutive pages tile the listing. Over the same full listing,
    the page of [n] summaries at [offset] followed by the page of [m]
    summaries at [offset + n] is the page of [n + m] summaries at
    [offset]: walking the pages neither repeats nor loses a post. *)
Theorem pages_tile
    (all_summaries : list PostSummary) (n m offset : Z)
    (t1 t1' t2 t2' t3 t3' : Q) (w1 w2 w3 : World) :
  0 <= offset -> 0 <= n -> 0 <= m ->
  full_listing env t1 w1 = Ok all_summaries ->
  full_listing env t2 w2 = Ok all_summaries ->
  full_listing env t3 w3 = Ok all_summaries ->
  exists r1 r2 r3,
    (list_posts env n offset t1 t1' w1).2 = Ok r1
    /\ (list_posts env m (offset + n) t2 t2' w2).2 = Ok r2
    /\ (list_posts env (n + m) offset t3 t3' w3).2 = Ok r3
    /\ page_posts r1 ++ page_posts r2 = page_posts r3.
Proof.
  intros Ho Hn Hm H1 H2 H3.
  rewrite !list_posts_result, H1, H2, H3.
  do 3 eexists. split_and!; try reflexivity.
  unfold page_posts, page_response, add_cache_headers.
  rewrite !generate_etag_truthy. cbn [json_body posts].
  rewrite !py_slice_page by lia.
  rewrite !Z2Nat.inj_add by lia. apply take_drop_tile.
Qed.

(** The answers of the exception handlers. *)
Definition is_error_answer (response : JSONResponse) : bool :=
  match json_body response with
  | ErrorContent _ _ => true
  | _ => false
  end.

Lemma handle_exception_bare (path : string) (e : exn) (w : World) :
  is_error_answer (handle_exception path e w).2 = true
  /\ json_headers (handle_exception path e w).2 = ∅.
Proof. destruct e; done. Qed.

(** X22: only a success is given caching headers. Whatever the handlers
    of /posts and /post/{slug} do, the answer of the route is either an
    error answer with no header set, or a 200 with the Cache-Control
    header of the configured TTL and an ETag. *)
Theorem only_successes_are_cacheable
    (path slug : string) (limit offset : Z) (now now' : Q) (w : World) :
  let cacheable_or_bare (r : JSONResponse) :=
    if is_error_answer r then json_headers r = ∅
    else json_status r = 200
         /\ json_headers r !! "Cache-Control"
            = Some ("public, max-age="
                    +:+ py_str_int (External.cache_ttl_seconds env))
         /\ is_Some (json_headers r !! "ETag") in
  cacheable_or_bare (route path (get_post env slug now now') w).2
  /\ cacheable_or_bare
       (route path (list_posts env limit offset now now') w).2.
Proof.
  intros cacheable_or_bare. subst cacheable_or_bare. cbv beta. split.
  - unfold route.
    pose proof (get_post_Ok slug now now' w) as Hok.
    destruct (get_post env slug now now' w) as [w1 [response|e]].
    + destruct (Hok response eq_refl) as [detail ->].
      unfold add_cache_headers. rewrite generate_etag_truthy.
      cbn. split_and!; [done|done|]. by eexists.
    + destruct (handle_exception_bare path e w1) as [-> ->]. done.
  - unfold route.
    pose proof (list_posts_Ok env limit offset now now' w) as Hok.
    destruct (list_posts env limit offset now now' w) as [w1 [response|e]].
    + destruct (Hok response eq_refl) as (all_summaries & _ & ->).
      unfold page_response, add_cache_headers.
      rewrite generate_etag_truthy.
      cbn. split_and!; [done|done|]. by eexists.
    + destruct (handle_exception_bare path e w1) as [-> ->]. done.
Qed.

End HandlerFacts.

(** ** Objects, the client and the choice of the storage *)






Lemma try_exceptS_result {A : Type} (m : MS A) (caught : exn -> bool)
    (handler : exn -> MS A) (p : Process) :
  (try_exceptS m caught handler p).2
  = match (m p).2 with
    | Ok a => Ok a
    | Raise e => if caught e then (handler e (m p).1).2 else Raise e
    end.
Proof.
  unfold try_exceptS. destruct (m p) as [p' [a|e]]; [done|].
  cbn [fst snd]. by destruct (caught e).
Qed.

Lemma process_eta (p : Process) :
  {| world := world p; _s3_client := _s3_client p |} = p.
Proof. by destruct p. Qed.

(** What [_list_s3_slugs] yields from what [get_slug_to_key_map] does. *)
Lemma list_s3_slugs_result
    (settings : Config.Settings) (boto3 : Boto3) (now now' : Q)
    (p : Process) :
  (ContentStore._list_s3_slugs settings boto3 now now' p).2
  = match (S3Client.get_slug_to_key_map settings boto3 now now' p).2 with
    | Ok slug_map => Ok (map fst (map_to_list slug_map))
    | Raise S3Error => Raise ContentError
    | Raise e => Raise e
    end.
Proof.
  unfold ContentStore._list_s3_slugs. rewrite try_exceptS_result.
  unfold bindS at 1 2.
  destruct (S3Client.get_slug_to_key_map settings boto3 now now' p)
    as [p1 [slug_map|e]]; [done|].
  cbn [fst snd]. by destruct e.
Qed.

(** What [_load_s3_post] yields from what [get_slug_to_key_map] and
    [get_object_text] do. *)
Lemma load_s3_post_result
    (settings : Config.Settings) (boto3 : Boto3) (slug : string)
    (now now' : Q) (p : Process) :
  let mapping := S3Client.get_slug_to_key_map settings boto3 now now' p in
  (ContentStore._load_s3_post settings boto3 slug now now' p).2
  = match mapping.2 with
    | Ok slug_map =>
        match slug_map !! slug with
        | Some key =>
            if str_truthy key then
              match (S3Client.get_object_text settings boto3 key
                       (liftW (record_storage_read key) mapping.1).1).2 with
              | Ok content => Ok content
              | Raise S3Error => Raise ContentError
              | Raise e => Raise e
              end
            else Raise FileNotFoundError
        | None => Raise FileNotFoundError
        end
    | Raise S3Error => Raise ContentError
    | Raise e => Raise e
    end.
Proof.
  intros mapping. subst mapping.
  unfold ContentStore._load_s3_post. rewrite try_exceptS_result.
  unfold bindS at 1 2.
  destruct (S3Client.get_slug_to_key_map settings boto3 now now' p)
    as [p1 [slug_map|e]]; cbn [fst snd]; [|by destruct e].
  destruct (slug_map !! slug) as [key|]; [|done].
  destruct (str_truthy key); [|done].
  unfold bindS at 1 2.
  destruct (liftW (record_storage_read key) p1) as [p2 [[]|e2]] eqn:E2;
    [|done].
  cbn [fst snd]. unfold bindS at 1 2.
  destruct (S3Client.get_object_text settings boto3 key p2)
    as [p3 [content|e3]]; cbn [fst snd]; [done|].
  by destruct e3.
Qed.

(** X15: no [S3Error] leaves content_store.py: whatever the file system
    and S3 do, neither [list_post_slugs] nor [load_post_by_slug] raises
    it. With no content directory, an [S3Error] of [get_slug_to_key_map]
    (a listing of the bucket that fails) or of [get_object_text] is
    turned into [ContentError]. *)
Theorem s3_error_never_leaves_content_store
    (settings : Config.Settings) (fs : FileSystem) (boto3 : Boto3)
    (slug : string) (now now' : Q) (p : Process) :
  let listing := ContentStore.list_post_slugs settings fs boto3 now now' p in
  let loading :=
    ContentStore.load_post_by_slug settings fs boto3 slug now now' p in
  let mapping := S3Client.get_slug_to_key_map settings boto3 now now' p in
  listing.2 <> Raise S3Error
  /\ loading.2 <> Raise S3Error
  /\ (Config.content_dir settings = EmptyString ->
      mapping.2 = Raise S3Error ->
      listing.2 = Raise ContentError
      /\ (forall s, validate_slug slug = Ok s ->
            loading.2 = Raise ContentError))
  /\ (Config.content_dir settings = EmptyString ->
      forall s slug_map key,
        validate_slug slug = Ok s ->
        mapping.2 = Ok slug_map ->
        slug_map !! slug = Some key ->
        key <> EmptyString ->
        (S3Client.get_object_text settings boto3 key
           (liftW (record_storage_read key) mapping.1).1).2
        = Raise S3Error ->
        loading.2 = Raise ContentError)
  /\ (Config.content_dir settings = EmptyString ->
      Config.s3_bucket settings <> EmptyString ->
      is_Some (_s3_client p) \/ boto3_client boto3 = None ->
      (Cache.get (_slug_map_cache (world p)) "slug_map" now).2 = None ->
      (forall pages,
         list_objects_v2 boto3 (Config.s3_bucket settings)
           (Config.s3_prefix settings) <> S3Ok pages) ->
      listing.2 = Raise ContentError
      /\ (forall s, validate_slug slug = Ok s ->
            loading.2 = Raise ContentError)).
Proof.
  intros listing loading mapping.
  assert (Hlist : Config.content_dir settings = EmptyString ->
                  listing.2
                  = (ContentStore._list_s3_slugs settings boto3 now now' p).2).
  { intros Hdir. subst listing. unfold ContentStore.list_post_slugs.
    by rewrite Hdir. }
  assert (Hload : Config.content_dir settings = EmptyString ->
                  forall s, validate_slug slug = Ok s ->
                  loading.2
                  = (ContentStore._load_s3_post settings boto3 slug
                       now now' p).2).
  { intros Hdir s Hs. subst loading. unfold ContentStore.load_post_by_slug.
    unfold bindS at 1. unfold liftW at 1. unfold lift.
    rewrite Hs, Hdir. cbn [str_truthy]. by rewrite process_eta. }
  assert (Hfails : Config.content_dir settings = EmptyString ->
                   mapping.2 = Raise S3Error ->
                   listing.2 = Raise ContentError
                   /\ (forall s, validate_slug slug = Ok s ->
                         loading.2 = Raise ContentError)).
  { intros Hdir Hmap. split.
    - rewrite (Hlist Hdir), list_s3_slugs_result. fold mapping.
      by rewrite Hmap.
    - intros s Hs. rewrite (Hload Hdir s Hs), load_s3_post_result.
      fold mapping. by rewrite Hmap. }
  split_and!.
  - subst listing. unfold ContentStore.list_post_slugs.
    destruct (str_truthy (Config.content_dir settings)).
    + rewrite liftW_result. intros H.
      by apply list_local_slugs_raises in H.
    + rewrite list_s3_slugs_result.
      destruct (S3Client.get_slug_to_key_map settings boto3 now now' p).2
        as [?|[]]; done.
  - subst loading. unfold ContentStore.load_post_by_slug. unfold bindS at 1.
    unfold liftW at 1. unfold lift.
    pose proof (validate_slug_raises slug) as Hv.
    destruct (validate_slug slug) as [s0|e0]; cbn [fst snd].
    + destruct (str_truthy (Config.content_dir settings)).
      * rewrite liftW_result. intros H.
        by apply load_local_post_raises in H.
      * rewrite load_s3_post_result. cbv zeta.
        destruct (S3Client.get_slug_to_key_map settings boto3 now now' _)
          as [p1 [slug_map|[]]]; cbn [fst snd]; try done.
        destruct (slug_map !! slug) as [key|]; [|done].
        destruct (str_truthy key); [|done].
        destruct (S3Client.get_object_text settings boto3 key _).2
          as [?|[]]; done.
    + destruct (Hv e0 eq_refl) as [msg ->]. done.
  - exact Hfails.
  - intros Hdir s slug_map key Hs Hmap Hkey Hne Hget.
    rewrite (Hload Hdir s Hs), load_s3_post_result. fold mapping.
    rewrite Hmap, Hkey.
    destruct key as [|a k]; [done|]. cbn [str_truthy].
    by rewrite Hget.
  - intros Hdir Hbucket Hclient Hmiss Hfail. apply Hfails; [done|].
    subst mapping. rewrite get_slug_to_key_map_result, Hmiss.
    unfold listed_keys.
    destruct (Config.s3_bucket settings) as [|a b] eqn:Eb; [done|].
    cbn [str_truthy default].
    specialize (Hfail) as Hf.
    destruct (list_objects_v2 boto3 (String a b) (Config.s3_prefix settings))
      as [pages| |] eqn:El; [by destruct (Hf pages)| |];
      destruct Hclient as [[c Hc]|Hb]; try (by rewrite Hc);
      rewrite Hb; by destruct (_s3_client p).
Qed.

(** X24: the S3 client is created once. After a call of [get_s3_client]
    that returns, a later call returns the same client and changes nothing,
    whatever [boto3.client] would do then; after [reset_s3_client] no
    client is held, and the next call creates one again. *)
Theorem s3_client_created_once
    (settings settings2 : Config.Settings) (boto3 boto3_2 : Boto3)
    (p : Process) (client : BaseClient) :
  (S3Client.get_s3_client settings boto3 p).2 = Ok client ->
  let p1 := (S3Client.get_s3_client settings boto3 p).1 in
  S3Client.get_s3_client settings2 boto3_2 p1 = (p1, Ok client)
  /\ _s3_client (S3Client.reset_s3_client p1).1 = None
  /\ (S3Client.get_s3_client settings2 boto3_2
        (S3Client.reset_s3_client p1).1).2
     = match boto3_client boto3_2 with
       | Some e => Raise e
       | None => Ok client
       end.
Proof.
  intros Hok p1. subst p1. destruct client.
  unfold S3Client.get_s3_client in *.
  destruct (_s3_client p) as [[]|] eqn:Ec.
  - cbn. rewrite Ec. split_and!; [done|done|].
    unfold S3Client.reset_s3_client, bindS, loggerS, liftW. cbn.
    by destruct (boto3_client boto3_2).
  - unfold bindS, loggerS, liftW in *. cbn in *.
    destruct (boto3_client boto3); [done|]. cbn.
    split_and!; [done|done|].
    unfold S3Client.reset_s3_client, loggerS, liftW. cbn.
    by destruct (boto3_client boto3_2).
Qed.

(** X25: with neither a content directory nor a bucket configured, the
    store is empty: on a cold slug map, and with a client that can be
    created, [list_post_slugs] returns no slug and [load_post_by_slug]
    raises [FileNotFoundError] for every valid slug, without listing the
    bucket or fetching an object. *)
Theorem unconfigured_store_is_empty
    (settings : Config.Settings) (fs : FileSystem) (boto3 : Boto3)
    (slug : string) (now now' : Q) (p : Process) :
  Config.content_dir settings = EmptyString ->
  Config.s3_bucket settings = EmptyString ->
  boto3_client boto3 = None ->
  (Cache.get (_slug_map_cache (world p)) "slug_map" now).2 = None ->
  validate_slug slug = Ok slug ->
  (ContentStore.list_post_slugs settings fs boto3 now now' p).2 = Ok []
  /\ (ContentStore.load_post_by_slug settings fs boto3 slug now now' p).2
     = Raise FileNotFoundError
  /\ storage_reads
       (world (ContentStore.load_post_by_slug settings fs boto3 slug
                 now now' p).1)
     = storage_reads (world p).
Proof.
  intros Hdir Hbucket Hclient Hmiss Hvalid.
  assert (Hmap : (S3Client.get_slug_to_key_map settings boto3 now now' p).2
                 = Ok ∅).
  { rewrite get_slug_to_key_map_result, Hmiss.
    unfold listed_keys. rewrite Hclient, Hbucket. cbn.
    by destruct (_s3_client p). }
  pose proof (get_slug_to_key_map_storage settings boto3 now now' p) as Hs.
  split_and!.
  - unfold ContentStore.list_post_slugs. rewrite Hdir. cbn [str_truthy].
    unfold ContentStore._list_s3_slugs, try_exceptS. unfold bindS at 1.
    destruct (S3Client.get_slug_to_key_map settings boto3 now now' p)
      as [p1 r1]. cbn [snd] in Hmap. subst r1. cbn.
    by rewrite map_to_list_empty.
  - unfold ContentStore.load_post_by_slug. unfold bindS at 1.
    unfold liftW at 1. unfold lift. rewrite Hvalid, Hdir.
    cbn [str_truthy fst snd].
    unfold ContentStore._load_s3_post, try_exceptS. unfold bindS at 1.
    cbn [world _s3_client].
    replace {| world := world p; _s3_client := _s3_client p |} with p
      by by destruct p.
    destruct (S3Client.get_slug_to_key_map settings boto3 now now' p)
      as [p1 r1]. cbn [snd] in Hmap. subst r1.
    rewrite lookup_empty. by cbn.
  - unfold ContentStore.load_post_by_slug. unfold bindS at 1.
    unfold liftW at 1. unfold lift. rewrite Hvalid, Hdir.
    cbn [str_truthy fst snd].
    unfold ContentStore._load_s3_post, try_exceptS. unfold bindS at 1.
    cbn [world _s3_client].
    replace {| world := world p; _s3_client := _s3_client p |} with p
      by by destruct p.
    destruct (S3Client.get_slug_to_key_map settings boto3 now now' p)
      as [p1 r1]. cbn [fst snd] in Hmap, Hs. subst r1.
    rewrite lookup_empty. by cbn.
Qed.

Lemma load_local_post_frame
    (settings : Config.Settings) (fs : FileSystem) (slug : string)
    (w : World) :
  let r := LocalStore._load_local_post settings fs slug w in
  _posts_list_cache r.1 = _posts_list_cache w
  /\ _post_cache r.1 = _post_cache w
  /\ _slug_map_cache r.1 = _slug_map_cache w.
Proof.
  intros r. subst r. unfold LocalStore._load_local_post.
  destruct (String.prefix _ _); cbn [negb]; [|done].
  unfold bindM at 1. cbn [record_storage_read].
  destruct (read_text fs _); done.
Qed.

Lemma list_local_slugs_frame
    (settings : Config.Settings) (fs : FileSystem) (w : World) :
  let r := LocalStore._list_local_slugs settings fs w in
  _posts_list_cache r.1 = _posts_list_cache w
  /\ _post_cache r.1 = _post_cache w
  /\ _slug_map_cache r.1 = _slug_map_cache w.
Proof.
  intros r. subst r. rewrite list_local_slugs_run. cbv zeta.
  destruct (os_isdir fs _); [|done].
  destruct (os_listdir fs _) as [names|msg]; [|done].
  destruct (scan_names_result names [] w) as (_ & H1 & H2 & H3 & _).
  done.
Qed.

(** X26: a configured content directory takes the place of S3 entirely,
    bucket or no bucket: [list_post_slugs] and [load_post_by_slug] then
    answer the same whatever boto3 does, create no S3 client and leave
    the slug map cache alone. *)
Theorem local_store_never_touches_s3
    (settings : Config.Settings) (fs : FileSystem) (boto3 boto3' : Boto3)
    (slug : string) (now now' : Q) (p : Process) :
  Config.content_dir settings <> EmptyString ->
  let listing := ContentStore.list_post_slugs settings fs boto3 now now' p in
  let loading :=
    ContentStore.load_post_by_slug settings fs boto3 slug now now' p in
  Config.is_using_s3 settings = false
  /\ listing = ContentStore.list_post_slugs settings fs boto3' now now' p
  /\ loading
     = ContentStore.load_post_by_slug settings fs boto3' slug now now' p
  /\ _s3_client listing.1 = _s3_client p
  /\ _s3_client loading.1 = _s3_client p
  /\ _slug_map_cache (world listing.1) = _slug_map_cache (world p)
  /\ _slug_map_cache (world loading.1) = _slug_map_cache (world p).
Proof.
  intros Hdir listing loading. subst listing loading.
  unfold Config.is_using_s3, ContentStore.list_post_slugs,
    ContentStore.load_post_by_slug.
  destruct (Config.content_dir settings) as [|a d]; [done|].
  cbn [str_truthy negb]. rewrite andb_false_r.
  split_and!; try done.
  - unfold liftW.
    by destruct (LocalStore._list_local_slugs settings fs (world p)).
  - unfold bindS, liftW, lift.
    destruct (validate_slug slug); cbn; [|done].
    by destruct (LocalStore._load_local_post settings fs slug (world p)).
  - unfold liftW.
    pose proof (list_local_slugs_frame settings fs (world p)) as H.
    cbv zeta in H.
    destruct (LocalStore._list_local_slugs settings fs (world p)).
    cbn in *. tauto.
  - unfold bindS, liftW, lift.
    destruct (validate_slug slug); cbn; [|done].
    pose proof (load_local_post_frame settings fs slug (world p)) as H.
    cbv zeta in H.
    destruct (LocalStore._load_local_post settings fs slug (world p)).
    cbn in *. tauto.
Qed.

(** X27: the CORS safety check only warns. [effective_cors_origins]
    returns the configured origins unchanged in every environment, the
    wildcard included; in production with a wildcard among them it logs
    one warning, and otherwise it does nothing. *)
Theorem effective_cors_origins_only_warns
    (settings : Config.Settings) (w : World) :
  let r := Config.effective_cors_origins settings w in
  r.2 = Ok (Config.cors_origins settings)
  /\ (Config.environment settings = Config.prod ->
      In "*" (Config.cors_origins settings) ->
      exists record,
        log r.1 = log w ++ [record] /\ level record = WARNING)
  /\ (Config.environment settings <> Config.prod
      \/ ~ In "*" (Config.cors_origins settings) ->
      r.1 = w)
  /\ _posts_list_cache r.1 = _posts_list_cache w
  /\ _post_cache r.1 = _post_cache w
  /\ _slug_map_cache r.1 = _slug_map_cache w
  /\ storage_reads r.1 = storage_reads w.
Proof.
  intros r. subst r. unfold Config.effective_cors_origins.
  assert (Hex : existsb (String.eqb "*") (Config.cors_origins settings) = true
                <-> In "*" (Config.cors_origins settings)).
  { rewrite existsb_exists. split.
    - intros (x & Hin & Heq). apply String.eqb_eq in Heq. by subst x.
    - intros Hin. exists "*". by rewrite String.eqb_refl. }
  unfold Config.is_production.
  destruct (Config.environment settings) eqn:Eenv; cbn [andb];
    try (split_and!; try done; intros [H|H]; done).
  destruct (existsb (String.eqb "*") (Config.cors_origins settings)) eqn:Eex.
  - cbn. split_and!; try done.
    + intros _ _. by eexists.
    + intros [H|H]; [done|]. exfalso. apply H. by apply Hex.
  - cbn. split_and!; try done.
    intros _ Hin. apply Hex in Hin. done.
Qed.

(** ** The caches and the limiter, once more *)

(** X28: [clear_all_caches] empties the three caches and nothing else
    (with the TTLCache of cachetools as the specification describes it):
    after it the cached getters miss and [get_cache_stats] reports the
    sizes 0, and the next [get_post] of a valid slug goes to the storage
    even when the post was cached before. *)
Theorem clear_all_caches_forces_reload
    (env : Collaborators) (settings : Config.Settings) (slug : string)
    (now now' : Q) (w : World) :
  SLUG_PATTERN_match slug = true ->
  validate_slug slug = Ok slug ->
  let w' := (clear_all_caches w).1 in
  (get_post_cached slug now w').2 = Ok None
  /\ (get_posts_list_cached now w').2 = Ok None
  /\ (get_slug_map_cached now w').2 = Ok None
  /\ get_cache_stats settings w' !! "posts_list_size" = Some 0
  /\ get_cache_stats settings w' !! "post_cache_size" = Some 0
  /\ get_cache_stats settings w' !! "slug_map_size" = Some 0
  /\ storage_reads w' = storage_reads w
  /\ storage_reads (get_post env slug now now' w').1
     = storage_reads w ++ [slug].
Proof.
  intros Hpat Hvalid w'.
  pose proof (get_post_run env slug now now' w') as Hrun.
  cbv zeta in Hrun. rewrite Hpat in Hrun.
  subst w'. split_and!; try done.
  cbn [clear_all_caches logger fst _post_cache put_slug_map_cache
       put_post_cache put_posts_list_cache Cache.clear Cache.with_entries
       Cache.get Cache.entries Cache.find_entry snd] in Hrun.
  rewrite Hvalid in Hrun. destruct Hrun as [Hrun _].
  exact Hrun.
Qed.

Lemma limited_has_retry_after (self : RateLimitMiddleware) (ip : string)
    (now : Q) :
  (_is_rate_limited self ip now).2.1 = true ->
  is_Some ((_is_rate_limited self ip now).2.2 !! "Retry-After").
Proof.
  unfold _is_rate_limited.
  repeat match goal with
         | |- context [if ?c then _ else _] => destruct c
         end; cbn [fst snd]; try done; intros _; by simplify_map_eq.
Qed.

(** X29: a denied request never reaches the application. When the
    limiter is enabled and the path is not /health, a request over the
    limit is answered 429 with a Retry-After header, and the answer and
    the new state are the same whatever the rest of the application would
    do; a request to /health, or any request when the limiter is
    disabled, is handed on with the state untouched. *)
Theorem denied_request_never_reaches_application
    (self : RateLimitMiddleware) (request : Request) (now now' : Q)
    (call_next call_next' : Request -> Response) :
  (enabled self = true ->
   url_path request <> "/health" ->
   (_is_rate_limited self (_get_client_ip request) now).2.1 = true ->
   dispatch self request now now' call_next
   = dispatch self request now now' call_next'
   /\ status_code (dispatch self request now now' call_next).2 = 429
   /\ is_Some (headers (dispatch self request now now' call_next).2
                 !! "Retry-After"))
  /\ (enabled self = false \/ url_path request = "/health" ->
      dispatch self request now now' call_next = (self, call_next request)).
Proof.
  split.
  - intros Hen Hpath Hlim. unfold dispatch. rewrite Hen. cbn [negb orb].
    destruct (String.eqb_spec (url_path request) "/health") as [E|_];
      [contradiction|].
    cbv zeta.
    pose proof (limited_has_retry_after self (_get_client_ip request) now
                  Hlim) as [v Hra].
    destruct (_is_rate_limited self (_get_client_ip request) now)
      as [s [lim h]]. cbn [fst snd] in *. subst lim.
    split_and!; [done|done|]. cbn.
    rewrite lookup_union, Hra. by destruct (_ !! _).
  - intros [Hen|Hpath]; unfold dispatch.
    + by rewrite Hen.
    + rewrite Hpath. cbn. by rewrite orb_true_r.
Qed.

(** * Instances

    The properties above at concrete inputs. *)

Module SampleS3.

Definition settings : Config.Settings :=
  {| Config.app_name := "dev-blog-backend";
     Config.environment := Config.prod;
     Config.log_level := "INFO";
     Config.aws_region := "eu-west-1";
     Config.s3_bucket := "blog-content";
     Config.s3_prefix := "posts/";
     Config.content_dir := EmptyString;
     Config.cache_ttl_seconds := 300;
     Config.cors_origins := ["*"] |}.

(** A bucket listed in three pages, the second without [Contents]. *)
Definition boto3 : Boto3 :=
  {| boto3_client := None;
     list_objects_v2 := fun _ _ =>
       S3Ok [Some ["posts/my-post.md"; "posts/image.png";
                   "posts/2024/another-post.MD"];
             None;
             Some ["posts/archive/my-post.md"]];
     get_object := fun _ key => S3Ok ("bytes of " +:+ key);
     decode_utf8 := fun bytes => Some bytes |}.

(** A boto3 that fails at every call. *)
Definition broken_boto3 : Boto3 :=
  {| boto3_client := Some OtherError;
     list_objects_v2 := fun _ _ => S3BotoCoreError "unreachable";
     get_object := fun _ _ => S3BotoCoreError "unreachable";
     decode_utf8 := fun _ => None |}.

(** A boto3 whose client can be created and whose calls all fail. *)
Definition failing_boto3 : Boto3 :=
  {| boto3_client := None;
     list_objects_v2 := fun _ _ => S3BotoCoreError "unreachable";
     get_object := fun _ _ => S3BotoCoreError "unreachable";
     decode_utf8 := fun _ => None |}.

Definition p0 : Process := {| world := Sample.w0; _s3_client := None |}.

Definition slug_map : gmap string string :=
  <["another-post" := "posts/2024/another-post.MD"]>
    (<["my-post" := "posts/archive/my-post.md"]> ∅).

Definition fs : FileSystem :=
  {| os_isdir := fun _ => true;
     os_listdir := fun _ => Listed ["notes.txt"; "test-post-one.md"];
     os_realpath := fun path => path;
     read_text := fun path =>
       if String.eqb path "/srv/content/test-post-one.md"
       then ReadOk "text" else ReadFileNotFoundError "No such file" |}.

(** Neither a content directory nor a bucket. *)
Definition unconfigured : Config.Settings :=
  {| Config.app_name := "dev-blog-backend";
     Config.environment := Config.local;
     Config.log_level := "INFO";
     Config.aws_region := "eu-west-1";
     Config.s3_bucket := EmptyString;
     Config.s3_prefix := "posts/";
     Config.content_dir := EmptyString;
     Config.cache_ttl_seconds := 300;
     Config.cors_origins := ["*"] |}.

(** A file system whose files cannot be read. *)
Definition locked_fs : FileSystem :=
  {| os_isdir := fun _ => true;
     os_listdir := fun _ => Listed ["test-post-one.md"];
     os_realpath := fun path => path;
     read_text := fun _ => ReadOSError "Permission denied" |}.

Definition local_settings : Config.Settings :=
  {| Config.app_name := "dev-blog-backend";
     Config.environment := Config.local;
     Config.log_level := "INFO";
     Config.aws_region := "eu-west-1";
     Config.s3_bucket := EmptyString;
     Config.s3_prefix := "posts/";
     Config.content_dir := "/srv/content";
     Config.cache_ttl_seconds := 300;
     Config.cors_origins := ["*"] |}.

End SampleS3.

Definition other_arrival (t : Q) : Arrival :=
  {| arr_request := Sample.request; arr_now := t; arr_now' := t |}.

Lemma rate_limit_isolation_witness :
  (_is_rate_limited
     (run_dispatches Sample.busy_limiter
        [other_arrival 200; other_arrival 201] Sample.call_next)
     "10.0.0.9" 202).2
  = (_is_rate_limited Sample.busy_limiter "10.0.0.9" 202).2.
Proof.
  apply rate_limit_isolation.
  intros a [<-|[<-|[]]]; by vm_compute.
Defined.

Lemma minute_window_guarantee_witness :
  minute_window_ok 3
    (requests
       (get_bucket
          (run_dispatches fresh_limiter
             [other_arrival 100; other_arrival 101; other_arrival 102;
              other_arrival 103] Sample.call_next)
          "10.0.0.1")).
Proof.
  apply (minute_window_guarantee fresh_limiter).
  - intros ip p t s H. unfold get_bucket, fresh_limiter in H.
    cbn [buckets] in H. rewrite lookup_empty in H.
    destruct p; discriminate H.
  - intros a [<-|[<-|[<-|[<-|[]]]]]; by vm_compute.
Defined.

Lemma bucket_size_bounded_witness :
  Z.of_nat
    (length
       (requests
          (get_bucket
             (run_dispatches fresh_limiter
                [other_arrival 100; other_arrival 101] Sample.call_next)
             "10.0.0.1")))
  <= Z.max 0 1000.
Proof.
  apply (bucket_size_bounded fresh_limiter).
  intros ip. unfold get_bucket, fresh_limiter. cbn [buckets].
  rewrite lookup_empty. by vm_compute.
Defined.

Lemma forwarded_client_identity_witness :
  _get_client_ip Sample.request = "10.0.0.1"
  /\ py_contains_char "," (_get_client_ip Sample.request) = false.
Proof.
  destruct (forwarded_client_identity Sample.request
              " 10.0.0.1 , 192.168.0.7") as (H & Hc & _);
    [reflexivity|discriminate|].
  split; [|exact Hc]. rewrite H. reflexivity.
Defined.

Lemma logged_identity_agrees_witness :
  logged_client_ip Sample.request = _get_client_ip Sample.request.
Proof.
  apply logged_identity_agrees.
  - intros v H. vm_compute in H. injection H as <-.
    split; [discriminate|left; reflexivity].
  - intros H. vm_compute in H. discriminate H.
  - intros H. vm_compute in H. discriminate H.
Defined.

Lemma validate_slug_characterised_witness :
  validate_slug "my-post" = Ok "my-post".
Proof.
  apply (validate_slug_characterised "my-post").
  split; [simpl; lia|]. left. reflexivity.
Defined.

Lemma load_local_post_behaviour_witness :
  (read_text SampleS3.fs "/srv/content/test-post-one.md" = ReadOk "text"
   /\ storage_reads
        (LocalStore._load_local_post SampleS3.local_settings SampleS3.fs
           "test-post-one" Sample.w0).1
      = storage_reads Sample.w0 ++ ["/srv/content/test-post-one.md"])
  /\ (LocalStore._load_local_post SampleS3.local_settings
        SampleS3.locked_fs "test-post-one" Sample.w0).2
     = Raise ContentError.
Proof.
  destruct (load_local_post_behaviour SampleS3.local_settings SampleS3.fs
              "test-post-one" Sample.w0) as (_ & _ & Hok & _).
  destruct (load_local_post_behaviour SampleS3.local_settings
              SampleS3.locked_fs "test-post-one" Sample.w0)
    as (_ & _ & _ & _ & Hopen & _).
  split; [apply (Hok "text"); reflexivity|].
  destruct (Hopen eq_refl) as (_ & _ & _ & Hos & _).
  apply (Hos "Permission denied"). reflexivity.
Defined.

Lemma list_markdown_keys_behaviour_witness :
  (exists pages,
     list_objects_v2 SampleS3.boto3 "blog-content" "posts/" = S3Ok pages
     /\ forall key,
          In key ["posts/my-post.md"; "posts/2024/another-post.MD";
                  "posts/archive/my-post.md"]
          <-> py_endswith (py_lower key) ".md" = true
              /\ exists ks, In (Some ks) pages /\ In key ks)
  /\ (S3Client.list_markdown_keys SampleS3.unconfigured
        SampleS3.failing_boto3 None SampleS3.p0).2 = Ok []
  /\ (S3Client.list_markdown_keys SampleS3.settings
        SampleS3.failing_boto3 None SampleS3.p0).2 = Raise S3Error.
Proof.
  destruct (list_markdown_keys_behaviour SampleS3.settings SampleS3.boto3
              None SampleS3.p0) as (Hok & _).
  destruct (list_markdown_keys_behaviour SampleS3.unconfigured
              SampleS3.failing_boto3 None SampleS3.p0)
    as (_ & _ & _ & _ & _ & _ & _ & Hempty).
  destruct (list_markdown_keys_behaviour SampleS3.settings
              SampleS3.failing_boto3 None SampleS3.p0)
    as (_ & _ & _ & _ & _ & _ & _ & Hfail).
  split_and!.
  - destruct (Hok ["posts/my-post.md"; "posts/2024/another-post.MD";
                   "posts/archive/my-post.md"] eq_refl)
      as [[Hb _]|H]; [discriminate Hb|exact H].
  - destruct Hempty as [Hempty _]; [by right|]. by apply Hempty.
  - destruct Hfail as [_ Hfail]; [by right|]. by apply Hfail.
Defined.

Lemma slug_map_built_from_keys_witness :
  exists keys,
    listed_keys SampleS3.settings SampleS3.boto3 None SampleS3.p0 = Ok keys
    /\ (forall slug key,
          SampleS3.slug_map !! slug = Some key ->
          In key keys
          /\ py_endswith (py_lower (py_split_last "/" key)) ".md" = true
          /\ slug = py_rsplit1_first "." (py_split_last "/" key))
    /\ (forall l1 key l2 slug,
          keys = l1 ++ key :: l2 ->
          slug_of_key key = Some slug ->
          (forall k, In k l2 -> slug_of_key k <> Some slug) ->
          SampleS3.slug_map !! slug = Some key).
Proof.
  apply (slug_map_built_from_keys SampleS3.settings SampleS3.boto3 0 0
           SampleS3.p0 SampleS3.slug_map); by vm_compute.
Defined.

Lemma slug_map_round_trip_witness :
  exists slug_map,
    (S3Client.get_slug_to_key_map SampleS3.settings SampleS3.boto3 0 0
       SampleS3.p0).2 = Ok slug_map
    /\ slug_map !! "my-post" = Some "posts/archive/my-post.md".
Proof.
  apply (slug_map_round_trip SampleS3.settings SampleS3.boto3 0 0
           SampleS3.p0
           ["posts/my-post.md"; "posts/2024/another-post.MD"] []
           "posts/archive" "my-post").
  - by vm_compute.
  - reflexivity.
  - reflexivity.
  - intros k [].
Defined.

Lemma slug_map_served_from_cache_witness :
  (S3Client.get_slug_to_key_map SampleS3.settings SampleS3.broken_boto3
     100 100
     (S3Client.get_slug_to_key_map SampleS3.settings SampleS3.boto3 0 0
        SampleS3.p0).1).2
  = Ok SampleS3.slug_map.
Proof.
  apply slug_map_served_from_cache; by vm_compute.
Defined.

Lemma s3_error_never_leaves_content_store_witness :
  (ContentStore.list_post_slugs SampleS3.settings SampleS3.fs
     SampleS3.failing_boto3 0 0 SampleS3.p0).2 = Raise ContentError
  /\ (forall s, validate_slug "my-post" = Ok s ->
        (ContentStore.load_post_by_slug SampleS3.settings SampleS3.fs
           SampleS3.failing_boto3 "my-post" 0 0 SampleS3.p0).2
        = Raise ContentError).
Proof.
  destruct (s3_error_never_leaves_content_store SampleS3.settings
              SampleS3.fs SampleS3.failing_boto3 "my-post" 0 0 SampleS3.p0)
    as (_ & _ & _ & _ & Hfail).
  apply Hfail; [reflexivity|discriminate|by right|reflexivity|].
  intros pages. discriminate.
Defined.

Lemma load_s3_post_unknown_slug_witness :
  (ContentStore._load_s3_post SampleS3.settings SampleS3.boto3 "ghost" 0 0
     SampleS3.p0).2
  = Raise FileNotFoundError
  /\ storage_reads
       (world (ContentStore._load_s3_post SampleS3.settings SampleS3.boto3
                 "ghost" 0 0 SampleS3.p0).1)
     = storage_reads (world SampleS3.p0).
Proof.
  apply (load_s3_post_unknown_slug SampleS3.settings SampleS3.boto3 "ghost"
           0 0 SampleS3.p0 SampleS3.slug_map); by vm_compute.
Defined.

Lemma get_post_response_headers_witness :
  exists detail,
    json_body
      (add_cache_headers Sample.env
         {| json_status := 200; json_headers := ∅;
            json_body := DetailContent Sample.detail_one |}
         (Some (generate_etag Sample.env "Body one")))
    = DetailContent detail
    /\ json_status
         (add_cache_headers Sample.env
            {| json_status := 200; json_headers := ∅;
               json_body := DetailContent Sample.detail_one |}
            (Some (generate_etag Sample.env "Body one"))) = 200
    /\ json_headers
         (add_cache_headers Sample.env
            {| json_status := 200; json_headers := ∅;
               json_body := DetailContent Sample.detail_one |}
            (Some (generate_etag Sample.env "Body one"))) !! "ETag"
       = Some (dquote +:+ External.md5_hexdigest Sample.env
                            (post_content detail) +:+ dquote)
    /\ json_headers
         (add_cache_headers Sample.env
            {| json_status := 200; json_headers := ∅;
               json_body := DetailContent Sample.detail_one |}
            (Some (generate_etag Sample.env "Body one"))) !! "Cache-Control"
       = Some ("public, max-age="
               +:+ py_str_int (External.cache_ttl_seconds Sample.env)).
Proof.
  apply (get_post_response_headers Sample.env "post-one" 0 0 Sample.w0).
  by vm_compute.
Defined.

Lemma errors_are_not_cached_witness :
  _post_cache (get_post Sample.env "ghost" 0 0 Sample.w0).1
  = _post_cache Sample.w0
  \/ _post_cache (get_post Sample.env "ghost" 0 0 Sample.w0).1
     = (Cache.get (_post_cache Sample.w0) "ghost" 0).1.
Proof.
  apply (errors_are_not_cached Sample.env "ghost" 10 0 0 0 Sample.w0
           (HTTPException 404 "Post not found")).
  by vm_compute.
Defined.

Lemma get_post_error_answers_witness :
  (route "/post/ghost" (get_post Sample.env "ghost" 0 0) Sample.w0).2
  = error_response 404 "Post not found" None.
Proof.
  destruct (get_post_error_answers Sample.env "ghost" 0 0 Sample.w0)
    as (H & _); [reflexivity|reflexivity|reflexivity|].
  apply H. reflexivity.
Defined.

Lemma list_posts_from_cache_witness :
  (list_posts Sample.env 1 1 100 100
     (list_posts Sample.env 10 0 0 0 Sample.w0).1).2
  = Ok (page_response Sample.env
          [Sample.post_one; Sample.post_two; Sample.no_date] 1 1)
  /\ storage_reads
       (list_posts Sample.env 1 1 100 100
          (list_posts Sample.env 10 0 0 0 Sample.w0).1).1
     = storage_reads (list_posts Sample.env 10 0 0 0 Sample.w0).1
  /\ warnings
       (list_posts Sample.env 1 1 100 100
          (list_posts Sample.env 10 0 0 0 Sample.w0).1).1
     = warnings (list_posts Sample.env 10 0 0 0 Sample.w0).1.
Proof.
  apply list_posts_from_cache. by vm_compute.
Defined.

Lemma pages_tile_witness :
  exists r1 r2 r3,
    (list_posts Sample.env 1 0 0 0 Sample.w0).2 = Ok r1
    /\ (list_posts Sample.env 1 (0 + 1) 0 0 Sample.w0).2 = Ok r2
    /\ (list_posts Sample.env (1 + 1) 0 0 0 Sample.w0).2 = Ok r3
    /\ page_posts r1 ++ page_posts r2 = page_posts r3.
Proof.
  apply (pages_tile Sample.env
           [Sample.post_one; Sample.post_two; Sample.no_date]
           1 1 0 0 0 0 0 0 0 Sample.w0 Sample.w0 Sample.w0);
    try lia; by vm_compute.
Defined.


Lemma s3_client_created_once_witness :
  S3Client.get_s3_client SampleS3.settings SampleS3.broken_boto3
    (S3Client.get_s3_client SampleS3.settings SampleS3.boto3 SampleS3.p0).1
  = ((S3Client.get_s3_client SampleS3.settings SampleS3.boto3
        SampleS3.p0).1, Ok S3ClientHandle).
Proof.
  apply (s3_client_created_once SampleS3.settings SampleS3.settings
           SampleS3.boto3 SampleS3.broken_boto3 SampleS3.p0 S3ClientHandle).
  reflexivity.
Defined.

Lemma unconfigured_store_is_empty_witness :
  (ContentStore.list_post_slugs SampleS3.unconfigured SampleS3.fs
     SampleS3.boto3 0 0 SampleS3.p0).2 = Ok []
  /\ (ContentStore.load_post_by_slug SampleS3.unconfigured SampleS3.fs
        SampleS3.boto3 "my-post" 0 0 SampleS3.p0).2
     = Raise FileNotFoundError
  /\ storage_reads
       (world (ContentStore.load_post_by_slug SampleS3.unconfigured
                 SampleS3.fs SampleS3.boto3 "my-post" 0 0 SampleS3.p0).1)
     = storage_reads (world SampleS3.p0).
Proof.
  apply unconfigured_store_is_empty; reflexivity.
Defined.

Lemma local_store_never_touches_s3_witness :
  ContentStore.load_post_by_slug SampleS3.local_settings SampleS3.fs
    SampleS3.boto3 "test-post-one" 0 0 SampleS3.p0
  = ContentStore.load_post_by_slug SampleS3.local_settings SampleS3.fs
      SampleS3.broken_boto3 "test-post-one" 0 0 SampleS3.p0.
Proof.
  apply (local_store_never_touches_s3 SampleS3.local_settings SampleS3.fs
           SampleS3.boto3 SampleS3.broken_boto3 "test-post-one" 0 0
           SampleS3.p0).
  discriminate.
Defined.

Lemma effective_cors_origins_only_warns_witness :
  exists record,
    log (Config.effective_cors_origins SampleS3.settings Sample.w0).1
    = log Sample.w0 ++ [record]
    /\ level record = WARNING.
Proof.
  destruct (effective_cors_origins_only_warns SampleS3.settings Sample.w0)
    as (_ & Hwarn & _).
  apply Hwarn; [reflexivity|]. simpl. auto.
Defined.

Lemma clear_all_caches_forces_reload_witness :
  storage_reads
    (get_post Sample.env "post-one" 1 1
       (clear_all_caches
          (get_post Sample.env "post-one" 0 0 Sample.w0).1).1).1
  = storage_reads (get_post Sample.env "post-one" 0 0 Sample.w0).1
    ++ ["post-one"].
Proof.
  apply (clear_all_caches_forces_reload Sample.env SampleS3.settings
           "post-one" 1 1
           (get_post Sample.env "post-one" 0 0 Sample.w0).1);
    reflexivity.
Defined.

Lemma denied_request_never_reaches_application_witness :
  status_code
    (dispatch Sample.busy_limiter Sample.request 103 103
       Sample.call_next).2 = 429.
Proof.
  destruct (denied_request_never_reaches_application Sample.busy_limiter
              Sample.request 103 103 Sample.call_next Sample.call_next)
    as (Hdeny & _).
  apply Hdeny; [reflexivity|discriminate|by vm_compute].
Defined.
